(** * Message lifecycle coordinator: a shallow embedding of [ts/models/messages.ts]

    The development follows the [MessageModel] class of the desktop client:
    the attributes of a message are a record, the imported selectors and
    reducers that live in other modules are an interface (a type class),
    effectful methods run in a small state monad over the process-wide
    collaborators (conversation controller, message controller, store), and
    every call to an external collaborator is recorded in a trace. *)

From Stdlib Require Import ZArith String List Bool Lia.
From stdpp Require Import base option list gmap strings.

Local Open Scope string_scope.
Local Open Scope Z_scope.
Local Open Scope list_scope.

(** ** JavaScript values *)

(** [Boolean(x)] on the shapes the code tests for truthiness. *)
Module Truthy.
Definition str (s : option string) : bool :=
  match s with Some s => negb (String.eqb s "") | None => false end.
Definition num (n : option Z) : bool :=
  match n with Some n => negb (Z.eqb n 0) | None => false end.
Definition flag (b : option bool) : bool := default false b.
Definition obj {A} (o : option A) : bool :=
  match o with Some _ => true | None => false end.
End Truthy.

(** [x || []] followed by [.length > 0]. *)
Definition nonEmpty {A} (l : option (list A)) : bool :=
  match default [] l with [] => false | _ :: _ => true end.

(** [Math.min(a, ...rest)]. *)
Definition mathMin (a : Z) (rest : list Z) : Z := fold_left Z.min rest a.

(** ** Enumerations *)

Inductive MessageType := incoming | outgoing | story | otherMessageType.

Module ReadStatus.
Inductive t := Unread | Read | Viewed.
End ReadStatus.

Module SeenStatus.
Inductive t := NotApplicable | Unseen | Seen.
End SeenStatus.

Module SendStatus.
Inductive t := Failed | Pending | Sent | Delivered | Read | Viewed.
End SendStatus.

Module SendActionType.
Inductive t :=
  Failed | GotDeliveryReceipt | GotReadReceipt | GotViewedReceipt | ManuallyRetried | Sent.
End SendActionType.

Inductive ReactionSource := FromSomeoneElse | FromSync | FromThisDevice.

Inductive MessageReceiptType := Delivery | ReadReceipt | ViewReceipt.

#[global] Instance MessageType_eq_dec : EqDecision MessageType.
Proof. solve_decision. Defined.
#[global] Instance ReadStatus_eq_dec : EqDecision ReadStatus.t.
Proof. solve_decision. Defined.
#[global] Instance SeenStatus_eq_dec : EqDecision SeenStatus.t.
Proof. solve_decision. Defined.
#[global] Instance SendStatus_eq_dec : EqDecision SendStatus.t.
Proof. solve_decision. Defined.
#[global] Instance ReactionSource_eq_dec : EqDecision ReactionSource.
Proof. solve_decision. Defined.

(** ** Records carried by a message *)

Record SendState := mkSendState {
  status : SendStatus.t;
  updatedAt : option Z;
  isAllowedToReplyToStory : option bool
}.

Record SendAction := mkSendAction {
  actionType : SendActionType.t;
  actionUpdatedAt : Z
}.

#[global] Instance SendState_eq_dec : EqDecision SendState.
Proof. solve_decision. Defined.

Record MessageReactionType := mkReaction {
  emoji : option string;
  fromId : string;
  targetAuthorUuid : string;
  targetTimestamp : Z;
  reactionTimestamp : Z;
  isSentByConversationId : option (list (string * bool))
}.

#[global] Instance MessageReactionType_eq_dec : EqDecision MessageReactionType.
Proof. solve_decision. Defined.

Definition BodyRange : Type := Z * Z.
Record AttachmentType := mkAttachment {
  contentType : string;
  path : option string;
  attachmentUrl : option string;
  textAttachment : bool
}.
Definition EmbeddedContact : Type := string.
Record LinkPreviewType := mkPreview { url : string; image : option string; title : option string }.
Record QuotedMessageType := mkQuote {
  quoteId : Z;
  quoteText : option string;
  referencedMessageNotFound : bool
}.
Record StickerType := mkSticker { packId : string; stickerId : Z }.
Record CustomError := mkError { name : string; message : string; identifier : option string }.
Record ExpirationTimerUpdate := mkTimerUpdate {
  updateSource : option string;
  updateSourceUuid : option string;
  updateExpireTimer : option Z
}.
Record StoryReplyContext := mkStoryReplyContext {
  contextAttachment : option AttachmentType;
  contextAuthorUuid : option string;
  contextMessageId : string
}.
Record StoryReaction := mkStoryReaction {
  storyEmoji : string;
  storyTargetAuthorUuid : string;
  storyTargetTimestamp : Z
}.
Record GiftBadge := mkGiftBadge { level : Z; badgeId : option string }.

(** ** Message attributes

    The fields of [MessageAttributesType] that the modelled methods read or
    write.  Bookkeeping fields that are only written ([decrypted_at],
    [schemaVersion], the [has*Attachments] flags, protocol versions) are left
    out. *)

Record MessageAttributesType : Type := mkAttributes {
  id : option string;
  type : MessageType;
  conversationId : string;
  source : option string;
  sourceUuid : option string;
  sourceDevice : option Z;
  sent_at : Z;
  timestamp : Z;
  received_at : Z;
  body : option string;
  bodyRanges : option (list BodyRange);
  attachments : option (list AttachmentType);
  contact : option (list EmbeddedContact);
  editHistory : option (list string);
  isErased : option bool;
  preview : option (list LinkPreviewType);
  quote : option QuotedMessageType;
  sticker : option StickerType;
  reactions : option (list MessageReactionType);
  deletedForEveryone : option bool;
  sendStateByConversationId : option (gmap string SendState);
  unidentifiedDeliveries : option (list string);
  unidentifiedDeliveryReceived : option bool;
  readStatus : option ReadStatus.t;
  seenStatus : option SeenStatus.t;
  expirationStartTimestamp : option Z;
  expireTimer : option Z;
  expirationTimerUpdate : option ExpirationTimerUpdate;
  errors : option (list CustomError);
  flags : option Z;
  storyDistributionListId : option string;
  storyId : option string;
  storyReplyContext : option StoryReplyContext;
  storyReaction : option StoryReaction;
  giftBadge : option GiftBadge;
  payment : option string;
  isViewOnce : option bool;
  isTapToViewInvalid : option bool
}.

Definition set_id (v : option string) (a : MessageAttributesType) :=
  mkAttributes v (a.(type)) (a.(conversationId)) (a.(source)) (a.(sourceUuid))
    (a.(sourceDevice)) (a.(sent_at)) (a.(timestamp)) (a.(received_at)) (a.(body))
    (a.(bodyRanges)) (a.(attachments)) (a.(contact)) (a.(editHistory)) (a.(isErased))
    (a.(preview)) (a.(quote)) (a.(sticker)) (a.(reactions)) (a.(deletedForEveryone))
    (a.(sendStateByConversationId)) (a.(unidentifiedDeliveries))
    (a.(unidentifiedDeliveryReceived)) (a.(readStatus)) (a.(seenStatus))
    (a.(expirationStartTimestamp)) (a.(expireTimer)) (a.(expirationTimerUpdate)) (a.(errors))
    (a.(flags)) (a.(storyDistributionListId)) (a.(storyId)) (a.(storyReplyContext))
    (a.(storyReaction)) (a.(giftBadge)) (a.(payment)) (a.(isViewOnce)) (a.(isTapToViewInvalid)).
Definition set_conversationId (v : string) (a : MessageAttributesType) :=
  mkAttributes (a.(id)) (a.(type)) v (a.(source)) (a.(sourceUuid)) (a.(sourceDevice))
    (a.(sent_at)) (a.(timestamp)) (a.(received_at)) (a.(body)) (a.(bodyRanges))
    (a.(attachments)) (a.(contact)) (a.(editHistory)) (a.(isErased)) (a.(preview)) (a.(quote))
    (a.(sticker)) (a.(reactions)) (a.(deletedForEveryone)) (a.(sendStateByConversationId))
    (a.(unidentifiedDeliveries)) (a.(unidentifiedDeliveryReceived)) (a.(readStatus))
    (a.(seenStatus)) (a.(expirationStartTimestamp)) (a.(expireTimer))
    (a.(expirationTimerUpdate)) (a.(errors)) (a.(flags)) (a.(storyDistributionListId))
    (a.(storyId)) (a.(storyReplyContext)) (a.(storyReaction)) (a.(giftBadge)) (a.(payment))
    (a.(isViewOnce)) (a.(isTapToViewInvalid)).
Definition set_timestamp (v : Z) (a : MessageAttributesType) :=
  mkAttributes (a.(id)) (a.(type)) (a.(conversationId)) (a.(source)) (a.(sourceUuid))
    (a.(sourceDevice)) (a.(sent_at)) v (a.(received_at)) (a.(body)) (a.(bodyRanges))
    (a.(attachments)) (a.(contact)) (a.(editHistory)) (a.(isErased)) (a.(preview)) (a.(quote))
    (a.(sticker)) (a.(reactions)) (a.(deletedForEveryone)) (a.(sendStateByConversationId))
    (a.(unidentifiedDeliveries)) (a.(unidentifiedDeliveryReceived)) (a.(readStatus))
    (a.(seenStatus)) (a.(expirationStartTimestamp)) (a.(expireTimer))
    (a.(expirationTimerUpdate)) (a.(errors)) (a.(flags)) (a.(storyDistributionListId))
    (a.(storyId)) (a.(storyReplyContext)) (a.(storyReaction)) (a.(giftBadge)) (a.(payment))
    (a.(isViewOnce)) (a.(isTapToViewInvalid)).
Definition set_body (v : option string) (a : MessageAttributesType) :=
  mkAttributes (a.(id)) (a.(type)) (a.(conversationId)) (a.(source)) (a.(sourceUuid))
    (a.(sourceDevice)) (a.(sent_at)) (a.(timestamp)) (a.(received_at)) v (a.(bodyRanges))
    (a.(attachments)) (a.(contact)) (a.(editHistory)) (a.(isErased)) (a.(preview)) (a.(quote))
    (a.(sticker)) (a.(reactions)) (a.(deletedForEveryone)) (a.(sendStateByConversationId))
    (a.(unidentifiedDeliveries)) (a.(unidentifiedDeliveryReceived)) (a.(readStatus))
    (a.(seenStatus)) (a.(expirationStartTimestamp)) (a.(expireTimer))
    (a.(expirationTimerUpdate)) (a.(errors)) (a.(flags)) (a.(storyDistributionListId))
    (a.(storyId)) (a.(storyReplyContext)) (a.(storyReaction)) (a.(giftBadge)) (a.(payment))
    (a.(isViewOnce)) (a.(isTapToViewInvalid)).
Definition set_bodyRanges (v : option (list BodyRange)) (a : MessageAttributesType) :=
  mkAttributes (a.(id)) (a.(type)) (a.(conversationId)) (a.(source)) (a.(sourceUuid))
    (a.(sourceDevice)) (a.(sent_at)) (a.(timestamp)) (a.(received_at)) (a.(body)) v
    (a.(attachments)) (a.(contact)) (a.(editHistory)) (a.(isErased)) (a.(preview)) (a.(quote))
    (a.(sticker)) (a.(reactions)) (a.(deletedForEveryone)) (a.(sendStateByConversationId))
    (a.(unidentifiedDeliveries)) (a.(unidentifiedDeliveryReceived)) (a.(readStatus))
    (a.(seenStatus)) (a.(expirationStartTimestamp)) (a.(expireTimer))
    (a.(expirationTimerUpdate)) (a.(errors)) (a.(flags)) (a.(storyDistributionListId))
    (a.(storyId)) (a.(storyReplyContext)) (a.(storyReaction)) (a.(giftBadge)) (a.(payment))
    (a.(isViewOnce)) (a.(isTapToViewInvalid)).
Definition set_attachments (v : option (list AttachmentType)) (a : MessageAttributesType) :=
  mkAttributes (a.(id)) (a.(type)) (a.(conversationId)) (a.(source)) (a.(sourceUuid))
    (a.(sourceDevice)) (a.(sent_at)) (a.(timestamp)) (a.(received_at)) (a.(body))
    (a.(bodyRanges)) v (a.(contact)) (a.(editHistory)) (a.(isErased)) (a.(preview)) (a.(quote))
    (a.(sticker)) (a.(reactions)) (a.(deletedForEveryone)) (a.(sendStateByConversationId))
    (a.(unidentifiedDeliveries)) (a.(unidentifiedDeliveryReceived)) (a.(readStatus))
    (a.(seenStatus)) (a.(expirationStartTimestamp)) (a.(expireTimer))
    (a.(expirationTimerUpdate)) (a.(errors)) (a.(flags)) (a.(storyDistributionListId))
    (a.(storyId)) (a.(storyReplyContext)) (a.(storyReaction)) (a.(giftBadge)) (a.(payment))
    (a.(isViewOnce)) (a.(isTapToViewInvalid)).
Definition set_contact (v : option (list EmbeddedContact)) (a : MessageAttributesType) :=
  mkAttributes (a.(id)) (a.(type)) (a.(conversationId)) (a.(source)) (a.(sourceUuid))
    (a.(sourceDevice)) (a.(sent_at)) (a.(timestamp)) (a.(received_at)) (a.(body))
    (a.(bodyRanges)) (a.(attachments)) v (a.(editHistory)) (a.(isErased)) (a.(preview))
    (a.(quote)) (a.(sticker)) (a.(reactions)) (a.(deletedForEveryone))
    (a.(sendStateByConversationId)) (a.(unidentifiedDeliveries))
    (a.(unidentifiedDeliveryReceived)) (a.(readStatus)) (a.(seenStatus))
    (a.(expirationStartTimestamp)) (a.(expireTimer)) (a.(expirationTimerUpdate)) (a.(errors))
    (a.(flags)) (a.(storyDistributionListId)) (a.(storyId)) (a.(storyReplyContext))
    (a.(storyReaction)) (a.(giftBadge)) (a.(payment)) (a.(isViewOnce)) (a.(isTapToViewInvalid)).
Definition set_editHistory (v : option (list string)) (a : MessageAttributesType) :=
  mkAttributes (a.(id)) (a.(type)) (a.(conversationId)) (a.(source)) (a.(sourceUuid))
    (a.(sourceDevice)) (a.(sent_at)) (a.(timestamp)) (a.(received_at)) (a.(body))
    (a.(bodyRanges)) (a.(attachments)) (a.(contact)) v (a.(isErased)) (a.(preview)) (a.(quote))
    (a.(sticker)) (a.(reactions)) (a.(deletedForEveryone)) (a.(sendStateByConversationId))
    (a.(unidentifiedDeliveries)) (a.(unidentifiedDeliveryReceived)) (a.(readStatus))
    (a.(seenStatus)) (a.(expirationStartTimestamp)) (a.(expireTimer))
    (a.(expirationTimerUpdate)) (a.(errors)) (a.(flags)) (a.(storyDistributionListId))
    (a.(storyId)) (a.(storyReplyContext)) (a.(storyReaction)) (a.(giftBadge)) (a.(payment))
    (a.(isViewOnce)) (a.(isTapToViewInvalid)).
Definition set_isErased (v : option bool) (a : MessageAttributesType) :=
  mkAttributes (a.(id)) (a.(type)) (a.(conversationId)) (a.(source)) (a.(sourceUuid))
    (a.(sourceDevice)) (a.(sent_at)) (a.(timestamp)) (a.(received_at)) (a.(body))
    (a.(bodyRanges)) (a.(attachments)) (a.(contact)) (a.(editHistory)) v (a.(preview))
    (a.(quote)) (a.(sticker)) (a.(reactions)) (a.(deletedForEveryone))
    (a.(sendStateByConversationId)) (a.(unidentifiedDeliveries))
    (a.(unidentifiedDeliveryReceived)) (a.(readStatus)) (a.(seenStatus))
    (a.(expirationStartTimestamp)) (a.(expireTimer)) (a.(expirationTimerUpdate)) (a.(errors))
    (a.(flags)) (a.(storyDistributionListId)) (a.(storyId)) (a.(storyReplyContext))
    (a.(storyReaction)) (a.(giftBadge)) (a.(payment)) (a.(isViewOnce)) (a.(isTapToViewInvalid)).
Definition set_preview (v : option (list LinkPreviewType)) (a : MessageAttributesType) :=
  mkAttributes (a.(id)) (a.(type)) (a.(conversationId)) (a.(source)) (a.(sourceUuid))
    (a.(sourceDevice)) (a.(sent_at)) (a.(timestamp)) (a.(received_at)) (a.(body))
    (a.(bodyRanges)) (a.(attachments)) (a.(contact)) (a.(editHistory)) (a.(isErased)) v
    (a.(quote)) (a.(sticker)) (a.(reactions)) (a.(deletedForEveryone))
    (a.(sendStateByConversationId)) (a.(unidentifiedDeliveries))
    (a.(unidentifiedDeliveryReceived)) (a.(readStatus)) (a.(seenStatus))
    (a.(expirationStartTimestamp)) (a.(expireTimer)) (a.(expirationTimerUpdate)) (a.(errors))
    (a.(flags)) (a.(storyDistributionListId)) (a.(storyId)) (a.(storyReplyContext))
    (a.(storyReaction)) (a.(giftBadge)) (a.(payment)) (a.(isViewOnce)) (a.(isTapToViewInvalid)).
Definition set_quote (v : option QuotedMessageType) (a : MessageAttributesType) :=
  mkAttributes (a.(id)) (a.(type)) (a.(conversationId)) (a.(source)) (a.(sourceUuid))
    (a.(sourceDevice)) (a.(sent_at)) (a.(timestamp)) (a.(received_at)) (a.(body))
    (a.(bodyRanges)) (a.(attachments)) (a.(contact)) (a.(editHistory)) (a.(isErased))
    (a.(preview)) v (a.(sticker)) (a.(reactions)) (a.(deletedForEveryone))
    (a.(sendStateByConversationId)) (a.(unidentifiedDeliveries))
    (a.(unidentifiedDeliveryReceived)) (a.(readStatus)) (a.(seenStatus))
    (a.(expirationStartTimestamp)) (a.(expireTimer)) (a.(expirationTimerUpdate)) (a.(errors))
    (a.(flags)) (a.(storyDistributionListId)) (a.(storyId)) (a.(storyReplyContext))
    (a.(storyReaction)) (a.(giftBadge)) (a.(payment)) (a.(isViewOnce)) (a.(isTapToViewInvalid)).
Definition set_sticker (v : option StickerType) (a : MessageAttributesType) :=
  mkAttributes (a.(id)) (a.(type)) (a.(conversationId)) (a.(source)) (a.(sourceUuid))
    (a.(sourceDevice)) (a.(sent_at)) (a.(timestamp)) (a.(received_at)) (a.(body))
    (a.(bodyRanges)) (a.(attachments)) (a.(contact)) (a.(editHistory)) (a.(isErased))
    (a.(preview)) (a.(quote)) v (a.(reactions)) (a.(deletedForEveryone))
    (a.(sendStateByConversationId)) (a.(unidentifiedDeliveries))
    (a.(unidentifiedDeliveryReceived)) (a.(readStatus)) (a.(seenStatus))
    (a.(expirationStartTimestamp)) (a.(expireTimer)) (a.(expirationTimerUpdate)) (a.(errors))
    (a.(flags)) (a.(storyDistributionListId)) (a.(storyId)) (a.(storyReplyContext))
    (a.(storyReaction)) (a.(giftBadge)) (a.(payment)) (a.(isViewOnce)) (a.(isTapToViewInvalid)).
Definition set_reactions (v : option (list MessageReactionType)) (a : MessageAttributesType) :=
  mkAttributes (a.(id)) (a.(type)) (a.(conversationId)) (a.(source)) (a.(sourceUuid))
    (a.(sourceDevice)) (a.(sent_at)) (a.(timestamp)) (a.(received_at)) (a.(body))
    (a.(bodyRanges)) (a.(attachments)) (a.(contact)) (a.(editHistory)) (a.(isErased))
    (a.(preview)) (a.(quote)) (a.(sticker)) v (a.(deletedForEveryone))
    (a.(sendStateByConversationId)) (a.(unidentifiedDeliveries))
    (a.(unidentifiedDeliveryReceived)) (a.(readStatus)) (a.(seenStatus))
    (a.(expirationStartTimestamp)) (a.(expireTimer)) (a.(expirationTimerUpdate)) (a.(errors))
    (a.(flags)) (a.(storyDistributionListId)) (a.(storyId)) (a.(storyReplyContext))
    (a.(storyReaction)) (a.(giftBadge)) (a.(payment)) (a.(isViewOnce)) (a.(isTapToViewInvalid)).
Definition set_deletedForEveryone (v : option bool) (a : MessageAttributesType) :=
  mkAttributes (a.(id)) (a.(type)) (a.(conversationId)) (a.(source)) (a.(sourceUuid))
    (a.(sourceDevice)) (a.(sent_at)) (a.(timestamp)) (a.(received_at)) (a.(body))
    (a.(bodyRanges)) (a.(attachments)) (a.(contact)) (a.(editHistory)) (a.(isErased))
    (a.(preview)) (a.(quote)) (a.(sticker)) (a.(reactions)) v (a.(sendStateByConversationId))
    (a.(unidentifiedDeliveries)) (a.(unidentifiedDeliveryReceived)) (a.(readStatus))
    (a.(seenStatus)) (a.(expirationStartTimestamp)) (a.(expireTimer))
    (a.(expirationTimerUpdate)) (a.(errors)) (a.(flags)) (a.(storyDistributionListId))
    (a.(storyId)) (a.(storyReplyContext)) (a.(storyReaction)) (a.(giftBadge)) (a.(payment))
    (a.(isViewOnce)) (a.(isTapToViewInvalid)).
Definition set_sendStateByConversationId (v : option (gmap string SendState)) (a : MessageAttributesType) :=
  mkAttributes (a.(id)) (a.(type)) (a.(conversationId)) (a.(source)) (a.(sourceUuid))
    (a.(sourceDevice)) (a.(sent_at)) (a.(timestamp)) (a.(received_at)) (a.(body))
    (a.(bodyRanges)) (a.(attachments)) (a.(contact)) (a.(editHistory)) (a.(isErased))
    (a.(preview)) (a.(quote)) (a.(sticker)) (a.(reactions)) (a.(deletedForEveryone)) v
    (a.(unidentifiedDeliveries)) (a.(unidentifiedDeliveryReceived)) (a.(readStatus))
    (a.(seenStatus)) (a.(expirationStartTimestamp)) (a.(expireTimer))
    (a.(expirationTimerUpdate)) (a.(errors)) (a.(flags)) (a.(storyDistributionListId))
    (a.(storyId)) (a.(storyReplyContext)) (a.(storyReaction)) (a.(giftBadge)) (a.(payment))
    (a.(isViewOnce)) (a.(isTapToViewInvalid)).
Definition set_unidentifiedDeliveries (v : option (list string)) (a : MessageAttributesType) :=
  mkAttributes (a.(id)) (a.(type)) (a.(conversationId)) (a.(source)) (a.(sourceUuid))
    (a.(sourceDevice)) (a.(sent_at)) (a.(timestamp)) (a.(received_at)) (a.(body))
    (a.(bodyRanges)) (a.(attachments)) (a.(contact)) (a.(editHistory)) (a.(isErased))
    (a.(preview)) (a.(quote)) (a.(sticker)) (a.(reactions)) (a.(deletedForEveryone))
    (a.(sendStateByConversationId)) v (a.(unidentifiedDeliveryReceived)) (a.(readStatus))
    (a.(seenStatus)) (a.(expirationStartTimestamp)) (a.(expireTimer))
    (a.(expirationTimerUpdate)) (a.(errors)) (a.(flags)) (a.(storyDistributionListId))
    (a.(storyId)) (a.(storyReplyContext)) (a.(storyReaction)) (a.(giftBadge)) (a.(payment))
    (a.(isViewOnce)) (a.(isTapToViewInvalid)).
Definition set_readStatus (v : option ReadStatus.t) (a : MessageAttributesType) :=
  mkAttributes (a.(id)) (a.(type)) (a.(conversationId)) (a.(source)) (a.(sourceUuid))
    (a.(sourceDevice)) (a.(sent_at)) (a.(timestamp)) (a.(received_at)) (a.(body))
    (a.(bodyRanges)) (a.(attachments)) (a.(contact)) (a.(editHistory)) (a.(isErased))
    (a.(preview)) (a.(quote)) (a.(sticker)) (a.(reactions)) (a.(deletedForEveryone))
    (a.(sendStateByConversationId)) (a.(unidentifiedDeliveries))
    (a.(unidentifiedDeliveryReceived)) v (a.(seenStatus)) (a.(expirationStartTimestamp))
    (a.(expireTimer)) (a.(expirationTimerUpdate)) (a.(errors)) (a.(flags))
    (a.(storyDistributionListId)) (a.(storyId)) (a.(storyReplyContext)) (a.(storyReaction))
    (a.(giftBadge)) (a.(payment)) (a.(isViewOnce)) (a.(isTapToViewInvalid)).
Definition set_seenStatus (v : option SeenStatus.t) (a : MessageAttributesType) :=
  mkAttributes (a.(id)) (a.(type)) (a.(conversationId)) (a.(source)) (a.(sourceUuid))
    (a.(sourceDevice)) (a.(sent_at)) (a.(timestamp)) (a.(received_at)) (a.(body))
    (a.(bodyRanges)) (a.(attachments)) (a.(contact)) (a.(editHistory)) (a.(isErased))
    (a.(preview)) (a.(quote)) (a.(sticker)) (a.(reactions)) (a.(deletedForEveryone))
    (a.(sendStateByConversationId)) (a.(unidentifiedDeliveries))
    (a.(unidentifiedDeliveryReceived)) (a.(readStatus)) v (a.(expirationStartTimestamp))
    (a.(expireTimer)) (a.(expirationTimerUpdate)) (a.(errors)) (a.(flags))
    (a.(storyDistributionListId)) (a.(storyId)) (a.(storyReplyContext)) (a.(storyReaction))
    (a.(giftBadge)) (a.(payment)) (a.(isViewOnce)) (a.(isTapToViewInvalid)).
Definition set_expirationStartTimestamp (v : option Z) (a : MessageAttributesType) :=
  mkAttributes (a.(id)) (a.(type)) (a.(conversationId)) (a.(source)) (a.(sourceUuid))
    (a.(sourceDevice)) (a.(sent_at)) (a.(timestamp)) (a.(received_at)) (a.(body))
    (a.(bodyRanges)) (a.(attachments)) (a.(contact)) (a.(editHistory)) (a.(isErased))
    (a.(preview)) (a.(quote)) (a.(sticker)) (a.(reactions)) (a.(deletedForEveryone))
    (a.(sendStateByConversationId)) (a.(unidentifiedDeliveries))
    (a.(unidentifiedDeliveryReceived)) (a.(readStatus)) (a.(seenStatus)) v (a.(expireTimer))
    (a.(expirationTimerUpdate)) (a.(errors)) (a.(flags)) (a.(storyDistributionListId))
    (a.(storyId)) (a.(storyReplyContext)) (a.(storyReaction)) (a.(giftBadge)) (a.(payment))
    (a.(isViewOnce)) (a.(isTapToViewInvalid)).
Definition set_expireTimer (v : option Z) (a : MessageAttributesType) :=
  mkAttributes (a.(id)) (a.(type)) (a.(conversationId)) (a.(source)) (a.(sourceUuid))
    (a.(sourceDevice)) (a.(sent_at)) (a.(timestamp)) (a.(received_at)) (a.(body))
    (a.(bodyRanges)) (a.(attachments)) (a.(contact)) (a.(editHistory)) (a.(isErased))
    (a.(preview)) (a.(quote)) (a.(sticker)) (a.(reactions)) (a.(deletedForEveryone))
    (a.(sendStateByConversationId)) (a.(unidentifiedDeliveries))
    (a.(unidentifiedDeliveryReceived)) (a.(readStatus)) (a.(seenStatus))
    (a.(expirationStartTimestamp)) v (a.(expirationTimerUpdate)) (a.(errors)) (a.(flags))
    (a.(storyDistributionListId)) (a.(storyId)) (a.(storyReplyContext)) (a.(storyReaction))
    (a.(giftBadge)) (a.(payment)) (a.(isViewOnce)) (a.(isTapToViewInvalid)).
Definition set_expirationTimerUpdate (v : option ExpirationTimerUpdate) (a : MessageAttributesType) :=
  mkAttributes (a.(id)) (a.(type)) (a.(conversationId)) (a.(source)) (a.(sourceUuid))
    (a.(sourceDevice)) (a.(sent_at)) (a.(timestamp)) (a.(received_at)) (a.(body))
    (a.(bodyRanges)) (a.(attachments)) (a.(contact)) (a.(editHistory)) (a.(isErased))
    (a.(preview)) (a.(quote)) (a.(sticker)) (a.(reactions)) (a.(deletedForEveryone))
    (a.(sendStateByConversationId)) (a.(unidentifiedDeliveries))
    (a.(unidentifiedDeliveryReceived)) (a.(readStatus)) (a.(seenStatus))
    (a.(expirationStartTimestamp)) (a.(expireTimer)) v (a.(errors)) (a.(flags))
    (a.(storyDistributionListId)) (a.(storyId)) (a.(storyReplyContext)) (a.(storyReaction))
    (a.(giftBadge)) (a.(payment)) (a.(isViewOnce)) (a.(isTapToViewInvalid)).
Definition set_errors (v : option (list CustomError)) (a : MessageAttributesType) :=
  mkAttributes (a.(id)) (a.(type)) (a.(conversationId)) (a.(source)) (a.(sourceUuid))
    (a.(sourceDevice)) (a.(sent_at)) (a.(timestamp)) (a.(received_at)) (a.(body))
    (a.(bodyRanges)) (a.(attachments)) (a.(contact)) (a.(editHistory)) (a.(isErased))
    (a.(preview)) (a.(quote)) (a.(sticker)) (a.(reactions)) (a.(deletedForEveryone))
    (a.(sendStateByConversationId)) (a.(unidentifiedDeliveries))
    (a.(unidentifiedDeliveryReceived)) (a.(readStatus)) (a.(seenStatus))
    (a.(expirationStartTimestamp)) (a.(expireTimer)) (a.(expirationTimerUpdate)) v (a.(flags))
    (a.(storyDistributionListId)) (a.(storyId)) (a.(storyReplyContext)) (a.(storyReaction))
    (a.(giftBadge)) (a.(payment)) (a.(isViewOnce)) (a.(isTapToViewInvalid)).
Definition set_flags (v : option Z) (a : MessageAttributesType) :=
  mkAttributes (a.(id)) (a.(type)) (a.(conversationId)) (a.(source)) (a.(sourceUuid))
    (a.(sourceDevice)) (a.(sent_at)) (a.(timestamp)) (a.(received_at)) (a.(body))
    (a.(bodyRanges)) (a.(attachments)) (a.(contact)) (a.(editHistory)) (a.(isErased))
    (a.(preview)) (a.(quote)) (a.(sticker)) (a.(reactions)) (a.(deletedForEveryone))
    (a.(sendStateByConversationId)) (a.(unidentifiedDeliveries))
    (a.(unidentifiedDeliveryReceived)) (a.(readStatus)) (a.(seenStatus))
    (a.(expirationStartTimestamp)) (a.(expireTimer)) (a.(expirationTimerUpdate)) (a.(errors)) v
    (a.(storyDistributionListId)) (a.(storyId)) (a.(storyReplyContext)) (a.(storyReaction))
    (a.(giftBadge)) (a.(payment)) (a.(isViewOnce)) (a.(isTapToViewInvalid)).
Definition set_storyId (v : option string) (a : MessageAttributesType) :=
  mkAttributes (a.(id)) (a.(type)) (a.(conversationId)) (a.(source)) (a.(sourceUuid))
    (a.(sourceDevice)) (a.(sent_at)) (a.(timestamp)) (a.(received_at)) (a.(body))
    (a.(bodyRanges)) (a.(attachments)) (a.(contact)) (a.(editHistory)) (a.(isErased))
    (a.(preview)) (a.(quote)) (a.(sticker)) (a.(reactions)) (a.(deletedForEveryone))
    (a.(sendStateByConversationId)) (a.(unidentifiedDeliveries))
    (a.(unidentifiedDeliveryReceived)) (a.(readStatus)) (a.(seenStatus))
    (a.(expirationStartTimestamp)) (a.(expireTimer)) (a.(expirationTimerUpdate)) (a.(errors))
    (a.(flags)) (a.(storyDistributionListId)) v (a.(storyReplyContext)) (a.(storyReaction))
    (a.(giftBadge)) (a.(payment)) (a.(isViewOnce)) (a.(isTapToViewInvalid)).
Definition set_storyReplyContext (v : option StoryReplyContext) (a : MessageAttributesType) :=
  mkAttributes (a.(id)) (a.(type)) (a.(conversationId)) (a.(source)) (a.(sourceUuid))
    (a.(sourceDevice)) (a.(sent_at)) (a.(timestamp)) (a.(received_at)) (a.(body))
    (a.(bodyRanges)) (a.(attachments)) (a.(contact)) (a.(editHistory)) (a.(isErased))
    (a.(preview)) (a.(quote)) (a.(sticker)) (a.(reactions)) (a.(deletedForEveryone))
    (a.(sendStateByConversationId)) (a.(unidentifiedDeliveries))
    (a.(unidentifiedDeliveryReceived)) (a.(readStatus)) (a.(seenStatus))
    (a.(expirationStartTimestamp)) (a.(expireTimer)) (a.(expirationTimerUpdate)) (a.(errors))
    (a.(flags)) (a.(storyDistributionListId)) (a.(storyId)) v (a.(storyReaction))
    (a.(giftBadge)) (a.(payment)) (a.(isViewOnce)) (a.(isTapToViewInvalid)).
Definition set_storyReaction (v : option StoryReaction) (a : MessageAttributesType) :=
  mkAttributes (a.(id)) (a.(type)) (a.(conversationId)) (a.(source)) (a.(sourceUuid))
    (a.(sourceDevice)) (a.(sent_at)) (a.(timestamp)) (a.(received_at)) (a.(body))
    (a.(bodyRanges)) (a.(attachments)) (a.(contact)) (a.(editHistory)) (a.(isErased))
    (a.(preview)) (a.(quote)) (a.(sticker)) (a.(reactions)) (a.(deletedForEveryone))
    (a.(sendStateByConversationId)) (a.(unidentifiedDeliveries))
    (a.(unidentifiedDeliveryReceived)) (a.(readStatus)) (a.(seenStatus))
    (a.(expirationStartTimestamp)) (a.(expireTimer)) (a.(expirationTimerUpdate)) (a.(errors))
    (a.(flags)) (a.(storyDistributionListId)) (a.(storyId)) (a.(storyReplyContext)) v
    (a.(giftBadge)) (a.(payment)) (a.(isViewOnce)) (a.(isTapToViewInvalid)).
Definition set_giftBadge (v : option GiftBadge) (a : MessageAttributesType) :=
  mkAttributes (a.(id)) (a.(type)) (a.(conversationId)) (a.(source)) (a.(sourceUuid))
    (a.(sourceDevice)) (a.(sent_at)) (a.(timestamp)) (a.(received_at)) (a.(body))
    (a.(bodyRanges)) (a.(attachments)) (a.(contact)) (a.(editHistory)) (a.(isErased))
    (a.(preview)) (a.(quote)) (a.(sticker)) (a.(reactions)) (a.(deletedForEveryone))
    (a.(sendStateByConversationId)) (a.(unidentifiedDeliveries))
    (a.(unidentifiedDeliveryReceived)) (a.(readStatus)) (a.(seenStatus))
    (a.(expirationStartTimestamp)) (a.(expireTimer)) (a.(expirationTimerUpdate)) (a.(errors))
    (a.(flags)) (a.(storyDistributionListId)) (a.(storyId)) (a.(storyReplyContext))
    (a.(storyReaction)) v (a.(payment)) (a.(isViewOnce)) (a.(isTapToViewInvalid)).
Definition set_payment (v : option string) (a : MessageAttributesType) :=
  mkAttributes (a.(id)) (a.(type)) (a.(conversationId)) (a.(source)) (a.(sourceUuid))
    (a.(sourceDevice)) (a.(sent_at)) (a.(timestamp)) (a.(received_at)) (a.(body))
    (a.(bodyRanges)) (a.(attachments)) (a.(contact)) (a.(editHistory)) (a.(isErased))
    (a.(preview)) (a.(quote)) (a.(sticker)) (a.(reactions)) (a.(deletedForEveryone))
    (a.(sendStateByConversationId)) (a.(unidentifiedDeliveries))
    (a.(unidentifiedDeliveryReceived)) (a.(readStatus)) (a.(seenStatus))
    (a.(expirationStartTimestamp)) (a.(expireTimer)) (a.(expirationTimerUpdate)) (a.(errors))
    (a.(flags)) (a.(storyDistributionListId)) (a.(storyId)) (a.(storyReplyContext))
    (a.(storyReaction)) (a.(giftBadge)) v (a.(isViewOnce)) (a.(isTapToViewInvalid)).
Definition set_isViewOnce (v : option bool) (a : MessageAttributesType) :=
  mkAttributes (a.(id)) (a.(type)) (a.(conversationId)) (a.(source)) (a.(sourceUuid))
    (a.(sourceDevice)) (a.(sent_at)) (a.(timestamp)) (a.(received_at)) (a.(body))
    (a.(bodyRanges)) (a.(attachments)) (a.(contact)) (a.(editHistory)) (a.(isErased))
    (a.(preview)) (a.(quote)) (a.(sticker)) (a.(reactions)) (a.(deletedForEveryone))
    (a.(sendStateByConversationId)) (a.(unidentifiedDeliveries))
    (a.(unidentifiedDeliveryReceived)) (a.(readStatus)) (a.(seenStatus))
    (a.(expirationStartTimestamp)) (a.(expireTimer)) (a.(expirationTimerUpdate)) (a.(errors))
    (a.(flags)) (a.(storyDistributionListId)) (a.(storyId)) (a.(storyReplyContext))
    (a.(storyReaction)) (a.(giftBadge)) (a.(payment)) v (a.(isTapToViewInvalid)).
Definition set_isTapToViewInvalid (v : option bool) (a : MessageAttributesType) :=
  mkAttributes (a.(id)) (a.(type)) (a.(conversationId)) (a.(source)) (a.(sourceUuid))
    (a.(sourceDevice)) (a.(sent_at)) (a.(timestamp)) (a.(received_at)) (a.(body))
    (a.(bodyRanges)) (a.(attachments)) (a.(contact)) (a.(editHistory)) (a.(isErased))
    (a.(preview)) (a.(quote)) (a.(sticker)) (a.(reactions)) (a.(deletedForEveryone))
    (a.(sendStateByConversationId)) (a.(unidentifiedDeliveries))
    (a.(unidentifiedDeliveryReceived)) (a.(readStatus)) (a.(seenStatus))
    (a.(expirationStartTimestamp)) (a.(expireTimer)) (a.(expirationTimerUpdate)) (a.(errors))
    (a.(flags)) (a.(storyDistributionListId)) (a.(storyId)) (a.(storyReplyContext))
    (a.(storyReaction)) (a.(giftBadge)) (a.(payment)) (a.(isViewOnce)) v.

(** The model object: a Backbone model wraps the attributes and carries two
    private instance fields. *)
Record MessageModel := mkModel {
  attributes : MessageAttributesType;
  pendingMarkRead : option Z;
  deletingForEveryone : option bool
}.

Definition newModel (a : MessageAttributesType) : MessageModel := mkModel a None None.

(** [this.set(...)] on the attributes of a model. *)
Definition setAttributes (f : MessageAttributesType → MessageAttributesType)
    (m : MessageModel) : MessageModel :=
  mkModel (f (attributes m)) (pendingMarkRead m) (deletingForEveryone m).

Definition set_pendingMarkRead (v : option Z) (m : MessageModel) : MessageModel :=
  mkModel (attributes m) v (deletingForEveryone m).

Definition set_deletingForEveryone (v : option bool) (m : MessageModel) : MessageModel :=
  mkModel (attributes m) (pendingMarkRead m) v.

(** ** Conversations

    [ConversationModel] lives in [models/conversations]; messages only read
    attributes of it and ask membership questions.  The answers to
    [hasMember], [isAdmin], [getAccepted] and [getMemberConversationIds] are
    carried as data. *)

Inductive ConversationKind := Direct | GroupV1 | GroupV2.

Module Conversation.
Record t : Type := mk {
  id : string;
  kind : ConversationKind;
  uuid : option string;
  left : bool;
  members : option (list string);
  memberUuids : list string;
  adminUuids : list string;
  memberConversationIds : list string;
  announcementsOnly : bool;
  accepted : bool;
  expireTimer : option Z;
  timestamp : option Z;
  active_at : option Z;
  hasPostedStory : bool;
  isArchived : bool;
  profileSharing : bool;
  revision : option Z;
  messageCount : Z;
  sentMessageCount : Z
}.

Definition set_expireTimer (v : option Z) (c : t) : t :=
  mk (c.(id)) (c.(kind)) (c.(uuid)) (c.(left)) (c.(members)) (c.(memberUuids))
    (c.(adminUuids)) (c.(memberConversationIds)) (c.(announcementsOnly)) (c.(accepted)) v
    (c.(timestamp)) (c.(active_at)) (c.(hasPostedStory)) (c.(isArchived))
    (c.(profileSharing)) (c.(revision)) (c.(messageCount)) (c.(sentMessageCount)).
Definition set_timestamp (v : option Z) (c : t) : t :=
  mk (c.(id)) (c.(kind)) (c.(uuid)) (c.(left)) (c.(members)) (c.(memberUuids))
    (c.(adminUuids)) (c.(memberConversationIds)) (c.(announcementsOnly)) (c.(accepted))
    (c.(expireTimer)) v (c.(active_at)) (c.(hasPostedStory)) (c.(isArchived))
    (c.(profileSharing)) (c.(revision)) (c.(messageCount)) (c.(sentMessageCount)).
Definition set_active_at (v : option Z) (c : t) : t :=
  mk (c.(id)) (c.(kind)) (c.(uuid)) (c.(left)) (c.(members)) (c.(memberUuids))
    (c.(adminUuids)) (c.(memberConversationIds)) (c.(announcementsOnly)) (c.(accepted))
    (c.(expireTimer)) (c.(timestamp)) v (c.(hasPostedStory)) (c.(isArchived))
    (c.(profileSharing)) (c.(revision)) (c.(messageCount)) (c.(sentMessageCount)).
Definition set_hasPostedStory (v : bool) (c : t) : t :=
  mk (c.(id)) (c.(kind)) (c.(uuid)) (c.(left)) (c.(members)) (c.(memberUuids))
    (c.(adminUuids)) (c.(memberConversationIds)) (c.(announcementsOnly)) (c.(accepted))
    (c.(expireTimer)) (c.(timestamp)) (c.(active_at)) v (c.(isArchived))
    (c.(profileSharing)) (c.(revision)) (c.(messageCount)) (c.(sentMessageCount)).
Definition set_isArchived (v : bool) (c : t) : t :=
  mk (c.(id)) (c.(kind)) (c.(uuid)) (c.(left)) (c.(members)) (c.(memberUuids))
    (c.(adminUuids)) (c.(memberConversationIds)) (c.(announcementsOnly)) (c.(accepted))
    (c.(expireTimer)) (c.(timestamp)) (c.(active_at)) (c.(hasPostedStory)) v
    (c.(profileSharing)) (c.(revision)) (c.(messageCount)) (c.(sentMessageCount)).
Definition set_profileSharing (v : bool) (c : t) : t :=
  mk (c.(id)) (c.(kind)) (c.(uuid)) (c.(left)) (c.(members)) (c.(memberUuids))
    (c.(adminUuids)) (c.(memberConversationIds)) (c.(announcementsOnly)) (c.(accepted))
    (c.(expireTimer)) (c.(timestamp)) (c.(active_at)) (c.(hasPostedStory)) (c.(isArchived))
    v (c.(revision)) (c.(messageCount)) (c.(sentMessageCount)).
Definition set_messageCount (v : Z) (c : t) : t :=
  mk (c.(id)) (c.(kind)) (c.(uuid)) (c.(left)) (c.(members)) (c.(memberUuids))
    (c.(adminUuids)) (c.(memberConversationIds)) (c.(announcementsOnly)) (c.(accepted))
    (c.(expireTimer)) (c.(timestamp)) (c.(active_at)) (c.(hasPostedStory)) (c.(isArchived))
    (c.(profileSharing)) (c.(revision)) v (c.(sentMessageCount)).
Definition set_sentMessageCount (v : Z) (c : t) : t :=
  mk (c.(id)) (c.(kind)) (c.(uuid)) (c.(left)) (c.(members)) (c.(memberUuids))
    (c.(adminUuids)) (c.(memberConversationIds)) (c.(announcementsOnly)) (c.(accepted))
    (c.(expireTimer)) (c.(timestamp)) (c.(active_at)) (c.(hasPostedStory)) (c.(isArchived))
    (c.(profileSharing)) (c.(revision)) (c.(messageCount)) v.

Definition hasMember (c : t) (u : string) : bool := bool_decide (u ∈ memberUuids c).
Definition isAdmin (c : t) (u : string) : bool := bool_decide (u ∈ adminUuids c).
End Conversation.

(** ** Buffered modifiers (the [messageModifiers] singletons hand these out) *)

Module ReactionModel.
Record t := mk {
  emoji : string;
  remove : option bool;
  fromId : string;
  source : ReactionSource;
  targetAuthorUuid : string;
  targetTimestamp : Z;
  timestamp : Z;
  storyReactionMessage : option MessageModel
}.
End ReactionModel.

Module DeleteModel.
Record t := mk { fromId : string; targetSentTimestamp : Z; serverTimestamp : Z }.
End DeleteModel.

Module MessageReceipt.
Record t := mk {
  receiptType : MessageReceiptType;
  sourceConversationId : string;
  receiptTimestamp : Z
}.
End MessageReceipt.

Record ReadSync := mkReadSync { readAt : Z }.
Record ViewSync := mkViewSync { viewedAt : Z }.

(** What the modifier singletons return from [forMessage] during one
    reconciliation pass. *)
Record PendingModifiers := mkPending {
  receipts : list MessageReceipt.t;
  readSync : option ReadSync;
  viewSyncs : list ViewSync;
  viewOnceOpenSync : bool;
  pendingReactions : list ReactionModel.t;
  pendingDeletes : list DeleteModel.t;
  pendingEdits : list string
}.

Definition noPending : PendingModifiers := mkPending [] None [] false [] [] [].

(** ** Inbound payloads *)

Record GroupV2Context := mkGroupV2 {
  groupRevision : option Z;
  groupChange : option string;
  masterKey : option string;
  secretParams : option string;
  publicParams : option string
}.

Record StoryContext := mkStoryContext { storyAuthorUuid : option string; storySentTimestamp : Z }.

Record UnidentifiedDeliveryStatus := mkUnidentifiedStatus {
  destinationUuid : option string;
  destination : option string;
  unidentified : bool
}.

(** [SentEventData], the [data] option of [handleDataMessage]. *)
Record SentEventData := mkSentEventData {
  isRecipientUpdate : option bool;
  unidentifiedStatus : option (list UnidentifiedDeliveryStatus);
  dataTimestamp : option Z
}.

(** [ProcessedDataMessage], the decoded payload handed over by the receiver. *)
Module DataMessage.
Record t := mk {
  body : option string;
  bodyRanges : option (list BodyRange);
  attachments : list AttachmentType;
  contact : option (list EmbeddedContact);
  preview : option (list LinkPreviewType);
  sticker : option StickerType;
  quote : option QuotedMessageType;
  flags : option Z;
  expireTimer : option Z;
  timestamp : Z;
  profileKey : option string;
  isViewOnce : option bool;
  payment : option string;
  giftBadge : option GiftBadge;
  groupV2 : option GroupV2Context;
  storyContext : option StoryContext
}.
End DataMessage.

Record StoryDistribution := mkStoryDistribution {
  allowsReplies : bool;
  distributionMembers : list string
}.

(** ** Imported helpers

    [messages.ts] imports its selectors, the send-state reducer and the
    reaction utilities from sibling modules.  They are interfaces here, so
    that every statement proved below holds for any implementation of them;
    where a statement needs a property of a helper, the property is a named
    hypothesis. *)

(** [state/selectors/message] and [messages/helpers]. *)
Class MessageSelectors := {
  isCallHistory : MessageAttributesType → bool;
  isChatSessionRefreshed : MessageAttributesType → bool;
  isDeliveryIssue : MessageAttributesType → bool;
  isGiftBadge : MessageAttributesType → bool;
  isGroupUpdate : MessageAttributesType → bool;
  isGroupV2Change : MessageAttributesType → bool;
  isEndSession : MessageAttributesType → bool;
  isExpirationTimerUpdate : MessageAttributesType → bool;
  isVerifiedChange : MessageAttributesType → bool;
  isUnsupportedMessage : MessageAttributesType → bool;
  isTapToView : MessageAttributesType → bool;
  hasErrors : MessageAttributesType → bool;
  isKeyChange : MessageAttributesType → bool;
  isProfileChange : MessageAttributesType → bool;
  isUniversalTimerNotification : MessageAttributesType → bool;
  isConversationMerge : MessageAttributesType → bool;
  messageHasPaymentEvent : MessageAttributesType → bool;
  isIncoming : MessageAttributesType → bool;
  isOutgoing : MessageAttributesType → bool;
  isStory : MessageAttributesType → bool;
  getSourceUuid : MessageAttributesType → option string;
  getMessagePropStatus : MessageAttributesType → string → option string
}.

(** [messages/MessageSendState]. *)
Class SendStateOps := {
  isSent : SendStatus.t → bool;
  sendStateReducer : SendState → SendAction → SendState
}.

(** [reactions/util]. *)
Class ReactionUtil := {
  isNewReactionReplacingPrevious : MessageReactionType → MessageReactionType → bool;
  addOutgoingReaction :
    list MessageReactionType → MessageReactionType → list MessageReactionType
}.

(** [util/whatTypeOfConversation] and [util/canConversationBeUnarchived]. *)
Class ConversationSelectors := {
  isDirectConversation : Conversation.t → bool;
  isGroup : Conversation.t → bool;
  isGroupV1 : Conversation.t → bool;
  isMe : Conversation.t → bool;
  canConversationBeUnarchived : Conversation.t → bool
}.

(** What [util/queueAttachmentDownloads] hands back for [this.set(value)]. *)
Record DownloadedFields := mkDownloaded {
  downloadedAttachments : option (list AttachmentType);
  downloadedContact : option (list EmbeddedContact);
  downloadedPreview : option (list LinkPreviewType);
  downloadedQuote : option QuotedMessageType;
  downloadedSticker : option StickerType
}.

(** [services/MessageUpdater], [util/GoogleChrome], [types/LinkPreview],
    [types/Attachment], the schema migration and the download helpers. *)
Class MessageUtil := {
  markViewed : MessageAttributesType → MessageAttributesType;
  isImageTypeSupported : string → bool;
  isVideoTypeSupported : string → bool;
  findLinks : string → list string;
  shouldPreviewHref : string → bool;
  upgradeMessageSchema : MessageAttributesType → MessageAttributesType;
  hasAttachmentDownloads : MessageAttributesType → bool;
  isImage : list AttachmentType → bool;
  isVideo : list AttachmentType → bool;
  queueAttachmentDownloads : MessageAttributesType → option DownloadedFields;
  getAttachmentsForMessage : MessageAttributesType → option (list AttachmentType)
}.

(** ** The environment of one run

    Answers of the process-wide collaborators that the message model only
    queries: the account, the block list, contact resolution, the group
    service, quote and story lookup, and the buffered modifiers. *)
Record Env := mkEnv {
  ourUuid : string;
  ourNumber : option string;
  ourConversationId : string;
  lookupOrCreate : option string → option string → option string;
  checkedLookup : option string → option string;
  maybeMergeContacts : option string → option string → option string;
  isBlocked : string → bool;
  isUuidBlocked : string → bool;
  respondToGroupV2Migration : Conversation.t → GroupV2Context → Conversation.t;
  maybeRepairGroupV2 : Conversation.t → GroupV2Context → Conversation.t;
  maybeUpdateGroup : Conversation.t → GroupV2Context → option Conversation.t;
  copyFromQuotedMessage : option QuotedMessageType → string → option QuotedMessageType;
  findStoryMessage : string → option StoryContext → option MessageModel;
  getStoryDistributionWithMembers : string → option StoryDistribution;
  forMessage : bool → MessageAttributesType → PendingModifiers;
  deleteForEveryoneApplies : MessageAttributesType → DeleteModel.t → bool;
  messagingAvailable : bool;
  boostBadgeId : Z → option string;
  areWePrimaryDevice : bool;
  nowAt : string → Z;
  isShowingStories : bool;
  shouldDownloadStory : Conversation.t → bool;
  isInCall : bool;
  shouldUseAttachmentDownloadQueue : bool;
  shouldReplyNotifyUser : MessageAttributesType → Conversation.t → bool;
  deleteDataFails : MessageAttributesType → bool;
  saveMessageFails : MessageAttributesType → bool
}.

(** ** Effects on collaborators, in the order they are issued *)
Inductive Effect :=
| Confirm
| SaveMessage (a : MessageAttributesType)
| SaveNewMessageBatch (a : MessageAttributesType)
| UpdateConversation (conversationId : string)
| DeleteMessageData (messageId : option string)
| DeleteSentProto (messageId : option string)
| ScheduleOptimizeFTS
| UpdateLastMessage (conversationId : string)
| RemoveNotifications (messageId : option string)
| RemoveReactionFromConversation (fromId : string) (targetTimestamp : Z)
| AddReaction (fromId : string) (targetTimestamp : Z)
| Notify (conversationId : string) (messageId : option string)
| EnqueueJob (jobType : string) (messageId : option string)
| AddSingleMessage (conversationId : string) (messageId : option string)
| SetRegistered (contact : string)
| QueueDeliveryReceipt (messageId : string)
| UpdateExpirationTimer (conversationId : string) (timer : option Z)
| SetProfileKey (conversationId : string)
| UpdateBadges
| QueueAttachmentDownloads (messageId : option string)
| TriggerNewMessage (messageId : option string)
| OnReadMessage (messageId : option string) (markReadAt : Z)
| HandleEditMessage (messageId : option string) (edit : string)
| IncrementProgress
| QueueUpdateUnread (conversationId : string)
| AddNotification (conversationId : string) (messageId : option string)
| SetArchived (conversationId : string)
| GroupMigration (conversationId : string)
| GroupRepair (conversationId : string)
| GroupUpdate (conversationId : string).

(** Why the queued job of [handleDataMessage] ended early. *)
Inductive Outcome :=
| DuplicateMessage
| TranscriptMerged
| UpdateWithoutExisting
| DuplicateTranscript
| BlockedSender
| NotInGroupV2
| NotInGroupV1
| AnnouncementOnly
| StoryMissingInGroup
| StoryMissingDeferred
| StorySenderUnknown
| StoryReplyDenied
| StoryDistributionMissing
| StoryRepliesDisabled
| EmptyMessage.

Inductive Completion (A : Type) :=
| Normal (a : A)
| Return (o : Outcome)
| Throw (e : string).
Arguments Normal {A} a.
Arguments Return {A} o.
Arguments Throw {A} e.

(** ** Process-wide state *)
Record World := mkWorld {
  conversations : gmap string Conversation.t;
  messageCache : list MessageModel;
  database : list MessageAttributesType;
  trace : list Effect;
  clock : list Z;
  uuids : list string
}.

(** A method runs against its receiver [this] and the process-wide state. *)
Record St := mkSt { self : MessageModel; world : World }.

Definition M (A : Type) : Type := St → Completion A * St.

#[global] Instance M_ret : MRet M := λ A a s, (Normal a, s).
#[global] Instance M_bind : MBind M := λ A B f m s,
  match m s with
  | (Normal a, s') => f a s'
  | (Return o, s') => (Return o, s')
  | (Throw e, s') => (Throw e, s')
  end.

Definition returnWith {A} (o : Outcome) : M A := λ s, (Return o, s).
Definition throw {A} (e : string) : M A := λ s, (Throw e, s).

(** [try { body } catch { handler }]. *)
Definition tryCatch {A} (body : M A) (handler : string → M A) : M A := λ s,
  match body s with
  | (Throw e, s') => handler e s'
  | r => r
  end.

(** [try { body } finally { cleanup }]: the cleanup runs on every way out. *)
Definition tryFinally {A} (body : M A) (cleanup : M unit) : M A := λ s,
  match body s with
  | (r, s') =>
      match cleanup s' with
      | (Normal _, s'') => (r, s'')
      | (Return o, s'') => (Return o, s'')
      | (Throw e, s'') => (Throw e, s'')
      end
  end.

Definition when (b : bool) (m : M unit) : M unit := if b then m else mret tt.

Definition getThis : M MessageModel := λ s, (Normal (self s), s).
Definition getAttributes : M MessageAttributesType := λ s, (Normal (attributes (self s)), s).
Definition modifyThis (f : MessageModel → MessageModel) : M unit := λ s,
  (Normal tt, mkSt (f (self s)) (world s)).

(** [this.set(...)]. *)
Definition set (f : MessageAttributesType → MessageAttributesType) : M unit :=
  modifyThis (setAttributes f).

Definition getWorld : M World := λ s, (Normal (world s), s).
Definition modifyWorld (f : World → World) : M unit := λ s,
  (Normal tt, mkSt (self s) (f (world s))).

(** A method call on another model object: the receiver is swapped for the
    call and the mutated object is handed back. *)
Definition callOn {A} (other : MessageModel) (method : M A) : M (A * MessageModel) := λ s,
  match method (mkSt other (world s)) with
  | (Normal a, s') => (Normal (a, self s'), mkSt (self s) (world s'))
  | (Return o, s') => (Return o, mkSt (self s) (world s'))
  | (Throw e, s') => (Throw e, mkSt (self s) (world s'))
  end.

Definition logged (e : Effect) (w : World) : World :=
  mkWorld (conversations w) (messageCache w) (database w) (trace w ++ [e]) (clock w) (uuids w).

Definition emit (e : Effect) : M unit := modifyWorld (logged e).

(** [Date.now()]: the next reading of the clock. *)
Definition reading (w : World) : Z := hd 0 (clock w).
Definition tick (w : World) : World :=
  mkWorld (conversations w) (messageCache w) (database w) (trace w) (tl (clock w)) (uuids w).
Definition dateNow : M Z := λ s, (Normal (reading (world s)), mkSt (self s) (tick (world s))).

(** [UUID.generate().toString()]. *)
Definition nextUuid (w : World) : string := hd "" (uuids w).
Definition drawUuid (w : World) : World :=
  mkWorld (conversations w) (messageCache w) (database w) (trace w) (clock w) (tl (uuids w)).
Definition generateUuid : M string := λ s,
  (Normal (nextUuid (world s)), mkSt (self s) (drawUuid (world s))).

(** [window.ConversationController.get(id)]. *)
Definition getConversationById (cid : string) : M (option Conversation.t) := λ s,
  (Normal (conversations (world s) !! cid), s).

(** A mutation of a conversation model held by the controller. *)
Definition withConversation (c : Conversation.t) (w : World) : World :=
  mkWorld (<[Conversation.id c := c]> (conversations w)) (messageCache w) (database w)
    (trace w) (clock w) (uuids w).

Definition putConversation (c : Conversation.t) : M unit := modifyWorld (withConversation c).

Definition sameId (i : option string) (a : MessageAttributesType) : bool :=
  bool_decide (id a = i).

(** The store keeps one row per message id. *)
Definition upsert (a : MessageAttributesType) (rows : list MessageAttributesType) :=
  if existsb (sameId (id a)) rows
  then map (λ r, if sameId (id a) r then a else r) rows
  else rows ++ [a].

Definition withRow (a : MessageAttributesType) (w : World) : World :=
  mkWorld (conversations w) (messageCache w) (upsert a (database w)) (trace w) (clock w)
    (uuids w).

Definition writeRow (a : MessageAttributesType) : M unit := modifyWorld (withRow a).

(** Modelled from the spec: [window.MessageController] (util/MessageController)
    is the in-memory identity index.  [register(id, model)] keeps the first
    model registered under an id and returns the registered model. *)
Definition registered (m : MessageModel) (w : World) : MessageModel :=
  if negb (Truthy.str (id (attributes m))) then m
  else default m (find (λ x, sameId (id (attributes m)) (attributes x)) (messageCache w)).

Definition withRegistered (m : MessageModel) (w : World) : World :=
  if negb (Truthy.str (id (attributes m))) then w
  else
    match find (λ x, sameId (id (attributes m)) (attributes x)) (messageCache w) with
    | Some _ => w
    | None =>
        mkWorld (conversations w) (messageCache w ++ [m]) (database w) (trace w) (clock w)
          (uuids w)
    end.

Definition register (m : MessageModel) : M MessageModel := λ s,
  (Normal (registered m (world s)), mkSt (self s) (withRegistered m (world s))).

(** The controller holds a reference to the registered object, so later
    mutations of the object are visible through it. *)
Definition withPublished (m : MessageModel) (w : World) : World :=
  mkWorld (conversations w)
    (map (λ x, if sameId (id (attributes m)) (attributes x) then m else x) (messageCache w))
    (database w) (trace w) (clock w) (uuids w).

Definition publish (m : MessageModel) : M unit := modifyWorld (withPublished m).

(** ** The message model *)

Section Model.
Context `{!MessageSelectors, !SendStateOps, !ReactionUtil, !ConversationSelectors,
          !MessageUtil}.
Variable env : Env.

(** [getSenderIdentifier]: the template string
    [`${conversation?.id}.${sourceDevice}-${sentAt}`], kept as its three
    components. *)
Definition SenderIdentifier : Type := option string * option Z * Z.

Definition getSenderIdentifier (a : MessageAttributesType) : SenderIdentifier :=
  (lookupOrCreate env (source a) (sourceUuid a), sourceDevice a, sent_at a).

(** Modelled from the spec: [MessageController.findBySender] and the store's
    [getMessageBySender] are not part of this file; both return a known
    message with a matching sender identity. *)
Definition findBySender (w : World) (i : SenderIdentifier) : option MessageAttributesType :=
  attributes <$> find (λ m, bool_decide (getSenderIdentifier (attributes m) = i))
    (messageCache w).

Definition getMessageBySender (w : World) (a : MessageAttributesType) :
    option MessageAttributesType :=
  find (λ r, bool_decide (getSenderIdentifier r = getSenderIdentifier a)) (database w).

(** [getMessageById]: the cache first, then the store. *)
Definition getMessageById (w : World) (i : string) : option MessageAttributesType :=
  match find (λ m, sameId (Some i) (attributes m)) (messageCache w) with
  | Some m => Some (attributes m)
  | None => find (sameId (Some i)) (database w)
  end.

(** [window.Signal.Data.saveMessage]. *)
Definition saveMessage (a : MessageAttributesType) : M unit :=
  if saveMessageFails env a then throw "saveMessage"
  else emit (SaveMessage a) ;; writeRow a.

Definition deleteData : M unit :=
  a ← getAttributes;
  if deleteDataFails env a then throw "deleteMessageData"
  else emit (DeleteMessageData (id a)).

Definition isValidTapToView (a : MessageAttributesType) : bool :=
  if Truthy.str (body a) then false else
  match attachments a with
  | Some [firstAttachment] =>
      if negb (isImageTypeSupported (contentType firstAttachment)) &&
         negb (isVideoTypeSupported (contentType firstAttachment))
      then false
      else if Truthy.obj (quote a) || Truthy.obj (sticker a) || nonEmpty (contact a) ||
              nonEmpty (preview a)
      then false
      else true
  | _ => false
  end.

Definition eraseContents
    (additionalProperties : MessageAttributesType → MessageAttributesType)
    (shouldPersist : bool) : M unit :=
  tryCatch deleteData (λ _, mret tt) ;;
  set (λ a,
    additionalProperties
      (set_sticker None (set_quote None (set_preview (Some []) (set_isErased (Some true)
        (set_editHistory None (set_contact (Some []) (set_bodyRanges None
          (set_body (Some "") (set_attachments (Some []) a)))))))))) ;;
  a ← getAttributes;
  conversation ← getConversationById (conversationId a);
  when (Truthy.obj conversation) (emit (UpdateLastMessage (conversationId a))) ;;
  when shouldPersist (saveMessage a) ;;
  emit (DeleteSentProto (id a)) ;;
  emit ScheduleOptimizeFTS.

Definition isEmpty (attributes : MessageAttributesType) : bool :=
  (* Core message types *)
  let hasBody := Truthy.str (body attributes) in
  let hasAttachment := nonEmpty (attachments attributes) in
  let hasEmbeddedContact := nonEmpty (contact attributes) in
  let isSticker := Truthy.obj (sticker attributes) in
  (* Rendered sync messages *)
  let isCallHistoryValue := isCallHistory attributes in
  let isChatSessionRefreshedValue := isChatSessionRefreshed attributes in
  let isDeliveryIssueValue := isDeliveryIssue attributes in
  let isGiftBadgeValue := isGiftBadge attributes in
  let isGroupUpdateValue := isGroupUpdate attributes in
  let isGroupV2ChangeValue := isGroupV2Change attributes in
  let isEndSessionValue := isEndSession attributes in
  let isExpirationTimerUpdateValue := isExpirationTimerUpdate attributes in
  let isVerifiedChangeValue := isVerifiedChange attributes in
  (* Placeholder messages *)
  let isUnsupportedMessageValue := isUnsupportedMessage attributes in
  let isTapToViewValue := isTapToView attributes in
  (* Errors *)
  let hasErrorsValue := hasErrors attributes in
  (* Locally-generated notifications *)
  let isKeyChangeValue := isKeyChange attributes in
  let isProfileChangeValue := isProfileChange attributes in
  let isUniversalTimerNotificationValue := isUniversalTimerNotification attributes in
  let isConversationMergeValue := isConversationMerge attributes in
  let isPayment := messageHasPaymentEvent attributes in
  let hasSomethingToDisplay :=
    hasBody || hasAttachment || hasEmbeddedContact || isSticker || isPayment ||
    isCallHistoryValue || isChatSessionRefreshedValue || isDeliveryIssueValue ||
    isGiftBadgeValue || isGroupUpdateValue || isGroupV2ChangeValue || isEndSessionValue ||
    isExpirationTimerUpdateValue || isVerifiedChangeValue ||
    isUnsupportedMessageValue || isTapToViewValue ||
    hasErrorsValue ||
    isKeyChangeValue || isProfileChangeValue || isUniversalTimerNotificationValue ||
    isConversationMergeValue in
  negb hasSomethingToDisplay.

Definition markViewOnceMessageViewed (fromSync : bool) : M unit :=
  a ← getAttributes;
  if negb (isValidTapToView a) then mret tt
  else if Truthy.flag (isErased a) then mret tt
  else
    when (negb (bool_decide (readStatus a = Some ReadStatus.Viewed))) (set markViewed) ;;
    eraseContents (λ a, a) true ;;
    if fromSync then mret tt
    else
      a ← getAttributes;
      match getSourceUuid a with
      | None => throw "markViewOnceMessageViewed: senderUuid is undefined"
      | Some _ =>
          if areWePrimaryDevice env then mret tt
          else emit (EnqueueJob "viewOnceOpen" (id a))
      end.

Definition handleDeleteForEveryone (del : DeleteModel.t) (shouldPersist : bool) : M unit :=
  this ← getThis;
  if Truthy.flag (deletingForEveryone this) ||
     Truthy.flag (deletedForEveryone (attributes this))
  then mret tt
  else
    tryFinally
      (modifyThis (set_deletingForEveryone (Some true)) ;;
       (* Remove any notifications for this message *)
       emit (RemoveNotifications (id (attributes this))) ;;
       (* Erase the contents of this message *)
       eraseContents
         (λ a, set_reactions (Some []) (set_deletedForEveryone (Some true) a))
         shouldPersist ;;
       (* Update the conversation's last message in case this was the last message *)
       conversation ← getConversationById (conversationId (attributes this));
       when (Truthy.obj conversation)
         (emit (UpdateLastMessage (conversationId (attributes this)))))
      (modifyThis (set_deletingForEveryone None)).

Definition clearNotifications : M unit :=
  a ← getAttributes; emit (RemoveNotifications (id a)).

Definition hydrateStoryContext (inMemoryMessage : option MessageAttributesType) : M unit :=
  a ← getAttributes;
  match storyId a with
  | None => mret tt
  | Some storyId =>
      if negb (Truthy.str (Some storyId)) then mret tt else
      let settled :=
        match storyReplyContext a with
        | Some context =>
            Truthy.str (contextAttachment context ≫= attachmentUrl) ||
            negb (Truthy.str (Some (contextMessageId context)))
        | None => false
        end in
      if settled then mret tt else
      w ← getWorld;
      let message :=
        match inMemoryMessage with
        | None => getMessageById w storyId
        | Some m => Some m
        end in
      match message with
      | None =>
          conversation ← getConversationById (conversationId a);
          set (set_storyReplyContext
                 (Some (mkStoryReplyContext None (conversation ≫= Conversation.uuid) "")))
      | Some message =>
          let attachment :=
            match default [] (getAttachmentsForMessage message) with
            | [] => None
            | first :: _ =>
                if negb (Truthy.str (attachmentUrl first)) && negb (textAttachment first)
                then None else Some first
            end in
          set (set_storyReplyContext
                 (Some (mkStoryReplyContext attachment (sourceUuid message)
                          (default "" (id message)))))
      end
  end.

(** lodash [maxBy]: the first element with the greatest key. *)
Definition maxBy {A} (key : A → Z) (first : A) (rest : list A) : A :=
  fold_left (λ best x, if key best <? key x then x else best) rest first.

(** [reaction.attributes] where a [MessageReactionType] is expected. *)
Definition reactionAttributes (reaction : ReactionModel.t) : MessageReactionType :=
  mkReaction (Some (ReactionModel.emoji reaction)) (ReactionModel.fromId reaction)
    (ReactionModel.targetAuthorUuid reaction) (ReactionModel.targetTimestamp reaction)
    (ReactionModel.timestamp reaction) None.

Definition isFromThisDevice (reaction : ReactionModel.t) : bool :=
  bool_decide (ReactionModel.source reaction = FromThisDevice).
Definition isFromSync (reaction : ReactionModel.t) : bool :=
  bool_decide (ReactionModel.source reaction = FromSync).
Definition isFromSomeoneElse (reaction : ReactionModel.t) : bool :=
  bool_decide (ReactionModel.source reaction = FromSomeoneElse).

Definition newReactionOf (reaction : ReactionModel.t) (conversation : Conversation.t) :
    MessageReactionType :=
  mkReaction
    (if Truthy.flag (ReactionModel.remove reaction) then None
     else Some (ReactionModel.emoji reaction))
    (ReactionModel.fromId reaction)
    (ReactionModel.targetAuthorUuid reaction)
    (ReactionModel.targetTimestamp reaction)
    (ReactionModel.timestamp reaction)
    (if isFromThisDevice reaction
     then Some (map (λ c, (c, false)) (Conversation.memberConversationIds conversation))
     else None).

(** The reaction list that [handleReaction] stores on a message that is not
    a story, for the three provenances. *)
Definition updatedReactions (reaction : ReactionModel.t) (newReaction : MessageReactionType)
    (oldReactions : list MessageReactionType) : list MessageReactionType :=
  if isFromThisDevice reaction then addOutgoingReaction oldReactions newReaction
  else if Truthy.flag (ReactionModel.remove reaction) then
    if isFromSync reaction then
      List.filter
        (λ re, negb (isNewReactionReplacingPrevious re newReaction) ||
               (ReactionModel.timestamp reaction <? reactionTimestamp re))
        oldReactions
    else
      List.filter (λ re, negb (isNewReactionReplacingPrevious re newReaction)) oldReactions
  else
    let reactionToAdd :=
      if isFromSync reaction then
        maxBy reactionTimestamp newReaction
          (List.filter (λ re, String.eqb (fromId re) (ReactionModel.fromId reaction))
             oldReactions)
      else newReaction in
    List.filter
      (λ re, negb (isNewReactionReplacingPrevious re (reactionAttributes reaction)))
      oldReactions ++ [reactionToAdd].

(** The story branch of [handleReaction] for a reaction that did not come
    from this device: the reaction becomes a message of its own. *)
Definition storeStoryReaction (reaction : ReactionModel.t)
    (storyMessage : MessageAttributesType) : M unit :=
  match ReactionModel.storyReactionMessage reaction with
  | None => throw "Story reactions must provide storyReactionMessage"
  | Some generatedMessage =>
      targetConversation ← getConversationById (conversationId (attributes generatedMessage));
      match targetConversation with
      | None => throw "handleReaction: targetConversation not found"
      | Some targetConversation =>
          '(_, generatedMessage) ← callOn generatedMessage
            (set (λ a,
               set_storyReaction
                 (Some (mkStoryReaction (ReactionModel.emoji reaction)
                          (ReactionModel.targetAuthorUuid reaction)
                          (ReactionModel.targetTimestamp reaction)))
                 (set_storyId (id storyMessage)
                    (set_expireTimer
                       (if isDirectConversation targetConversation
                        then Conversation.expireTimer targetConversation else None) a))) ;;
             a ← getAttributes;
             saveMessage a ;;
             hydrateStoryContext (Some storyMessage));
          messageToAdd ← register generatedMessage;
          when (isDirectConversation targetConversation)
            (emit (AddSingleMessage (Conversation.id targetConversation)
                     (id (attributes messageToAdd))) ;;
             when (negb (Truthy.num (Conversation.active_at targetConversation)))
               (putConversation
                  (Conversation.set_active_at (Some (timestamp (attributes messageToAdd)))
                     targetConversation) ;;
                emit (UpdateConversation (Conversation.id targetConversation)))) ;;
          when (isFromSomeoneElse reaction &&
                shouldReplyNotifyUser env (attributes messageToAdd) targetConversation)
            (emit (Notify (Conversation.id targetConversation)
                     (id (attributes messageToAdd))))
      end
  end.

Definition handleReaction (reaction : ReactionModel.t)
    (storyMessage : option MessageAttributesType) (shouldPersist : bool) : M unit :=
  attrs ← getAttributes;
  if Truthy.flag (deletedForEveryone attrs) then mret tt else
  (* We allow you to react to messages with outgoing errors only if it has sent
     successfully to at least one person. *)
  if hasErrors attrs &&
     (isIncoming attrs ||
      negb (bool_decide (getMessagePropStatus attrs (ourConversationId env)
                         = Some "partial-sent")))
  then mret tt else
  conversation ← getConversationById (conversationId attrs);
  match conversation with
  | None => mret tt
  | Some conversation =>
      let newReaction := newReactionOf reaction conversation in
      (* Reactions to stories are saved as separate messages *)
      match storyMessage with
      | Some storyMessage =>
          if isFromThisDevice reaction then mret tt
          else storeStoryReaction reaction storyMessage
      | None =>
          (* Reactions to all messages other than stories will update the target *)
          let oldReactions := default [] (reactions attrs) in
          (if isFromThisDevice reaction then mret tt
           else
             when (Truthy.obj
                     (find (λ re, isNewReactionReplacingPrevious re newReaction)
                        oldReactions))
               clearNotifications) ;;
          set (set_reactions (Some (updatedReactions reaction newReaction oldReactions))) ;;
          if isFromThisDevice reaction then mret tt
          else if Truthy.flag (ReactionModel.remove reaction) then
            emit (RemoveReactionFromConversation (ReactionModel.fromId reaction)
                    (ReactionModel.targetTimestamp reaction))
          else
            this ← getAttributes;
            when (isOutgoing this && isFromSomeoneElse reaction)
              (emit (Notify (Conversation.id conversation) (id this))) ;;
            emit (AddReaction (ReactionModel.fromId reaction)
                    (ReactionModel.targetTimestamp reaction))
      end ;;
      if isFromThisDevice reaction then
        jobMessageId ←
          match storyMessage with
          | Some _ =>
              if negb (Truthy.obj (emoji newReaction))
              then throw "New story reaction must have an emoji"
              else
                match ReactionModel.storyReactionMessage reaction with
                | None => throw "Story reactions must provide storyReactionmessage"
                | Some generatedMessage =>
                    this ← getAttributes;
                    '(_, generatedMessage) ← callOn generatedMessage
                      (a ← getAttributes;
                       saveMessage a ;;
                       hydrateStoryContext (Some this));
                    registered ← register generatedMessage;
                    emit (AddSingleMessage (Conversation.id conversation)
                            (id (attributes registered))) ;;
                    mret (id (attributes generatedMessage))
                end
          | None => mret (id attrs)
          end;
        if shouldPersist then
          emit (EnqueueJob (match storyMessage with
                            | Some _ => "NormalMessage" | None => "Reaction" end)
                  jobMessageId) ;;
          this ← getAttributes;
          saveMessage this
        else
          emit (EnqueueJob (match storyMessage with
                            | Some _ => "NormalMessage" | None => "Reaction" end)
                  jobMessageId)
      else
        this ← getAttributes;
        when (shouldPersist && negb (isStory this)) (saveMessage this)
  end.

(** *** Send states *)

(** [markFailed]: change any pending send state to failed. *)
Definition markFailed : M unit :=
  now ← dateNow;
  set (λ a,
    set_sendStateByConversationId
      (Some ((λ sendState,
                sendStateReducer sendState (mkSendAction SendActionType.Failed now))
             <$> default ∅ (sendStateByConversationId a))) a) ;;
  (* notifyStorySendFailed *)
  a ← getAttributes;
  when (isStory a) (emit (AddNotification (conversationId a) (id a))).

(** Modelled from the spec: [window.ConversationController.get(identifier)]
    is not part of this file; the lookup is by conversation id, else by
    uuid. *)
Definition controllerGet (w : World) (identifier : string) : option Conversation.t :=
  match conversations w !! identifier with
  | Some c => Some c
  | None =>
      snd <$> find (λ kc, bool_decide (Conversation.uuid (snd kc) = Some identifier))
                (map_to_list (conversations w))
  end.

(** The loop of [retrySend] over the entries of the old send states.  The
    loop reads the clock once per retried recipient; [nowAt] is that
    reading. *)
Definition retriedSendStates (w : World) (currentConversationRecipients : list string)
    (oldSendStateByConversationId : gmap string SendState) : gmap string SendState :=
  map_imap (λ conversationId sendState,
    Some
      (if isSent (status sendState) then sendState
       else
         match controllerGet w conversationId with
         | None => sendState
         | Some recipient =>
             if negb (bool_decide (conversationId ∈ currentConversationRecipients)) &&
                negb (isMe recipient)
             then sendState
             else
               sendStateReducer sendState
                 (mkSendAction SendActionType.ManuallyRetried (nowAt env conversationId))
         end))
    oldSendStateByConversationId.

(** The recipients [retrySend] may retry: the members of the story's
    distribution list, or the members of the conversation. *)
Inductive RetryRecipients :=
| DistributionMissing
| ConversationMissing
| Recipients (currentConversationRecipients : list string).

Definition retryRecipients (w : World) (a : MessageAttributesType) : RetryRecipients :=
  if Truthy.str (storyDistributionListId a) then
    match getStoryDistributionWithMembers env (default "" (storyDistributionListId a)) with
    | None => DistributionMissing
    | Some storyDistribution =>
        Recipients
          (omap (λ uuid, Conversation.id <$> controllerGet w uuid)
             (distributionMembers storyDistribution))
    end
  else
    match conversations w !! conversationId a with
    | None => ConversationMissing
    | Some conversation => Recipients (Conversation.memberConversationIds conversation)
    end.

Definition retrySend : M unit :=
  a ← getAttributes;
  w ← getWorld;
  match retryRecipients w a with
  | DistributionMissing => markFailed
  | ConversationMissing => throw "TypeError: conversation is undefined"
  | Recipients currentConversationRecipients =>
      (* Determine retry recipients and get their most up-to-date addressing
         information *)
      let oldSendStateByConversationId := default ∅ (sendStateByConversationId a) in
      set (set_sendStateByConversationId
             (Some (retriedSendStates w currentConversationRecipients
                      oldSendStateByConversationId))) ;;
      match conversations w !! conversationId a with
      | None => throw "TypeError: conversation is undefined"
      | Some _ =>
          this ← getAttributes;
          emit (EnqueueJob (if isStory this then "Story" else "NormalMessage") (id this)) ;;
          saveMessage this
      end
  end.

(** *** Reconciliation with buffered modifiers *)

(** The non-null conversation of the message. *)
Definition theConversation (cid : string) : M Conversation.t :=
  conversation ← getConversationById cid;
  match conversation with
  | Some conversation => mret conversation
  | None => throw "TypeError: conversation is undefined"
  end.

(** [value ?? Date.now()]. *)
Definition orNow (value : option Z) : M Z :=
  match value with Some v => mret v | None => dateNow end.

Definition computeMarkReadAt (now : Z) (readSyncs : list ReadSync)
    (viewSyncs : list ViewSync) : Z :=
  mathMin now (map readAt readSyncs ++ map viewedAt viewSyncs).

Definition sendActionOf (receipt : MessageReceipt.t) : string * SendAction :=
  (MessageReceipt.sourceConversationId receipt,
   mkSendAction
     (match MessageReceipt.receiptType receipt with
      | Delivery => SendActionType.GotDeliveryReceipt
      | ReadReceipt => SendActionType.GotReadReceipt
      | ViewReceipt => SendActionType.GotViewedReceipt
      end)
     (MessageReceipt.receiptTimestamp receipt)).

Definition applySendActions (sendActions : list (string * SendAction))
    (oldSendStateByConversationId : gmap string SendState) : gmap string SendState :=
  fold_left
    (λ result '(destinationConversationId, action),
       match result !! destinationConversationId with
       | None => result
       | Some oldSendState =>
           <[destinationConversationId := sendStateReducer oldSendState action]> result
       end)
    sendActions oldSendStateByConversationId.

(** The block of [modifyTargetMessage] that folds read and view syncs into
    an incoming message; runs when there is at least one of them. *)
Definition applyReadAndViewSyncs (readSyncs : list ReadSync) (viewSyncs : list ViewSync) :
    M unit :=
  now ← dateNow;
  let markReadAt := computeMarkReadAt now readSyncs viewSyncs in
  a ← getAttributes;
  when (Truthy.num (expireTimer a))
    (existingExpirationStartTimestamp ← orNow (expirationStartTimestamp a);
     set (set_expirationStartTimestamp
            (Some (Z.min existingExpirationStartTimestamp markReadAt)))) ;;
  let newReadStatus :=
    match viewSyncs with [] => ReadStatus.Read | _ :: _ => ReadStatus.Viewed end in
  set (λ a, set_seenStatus (Some SeenStatus.Seen) (set_readStatus (Some newReadStatus) a)) ;;
  this ← getThis;
  pending ← orNow (pendingMarkRead this);
  modifyThis (set_pendingMarkRead (Some (Z.min pending markReadAt))).

(** [util/deleteForEveryone] decides whether a buffered delete applies to the
    message and then calls [handleDeleteForEveryone]. *)
Definition deleteForEveryone (del : DeleteModel.t) (shouldPersist : bool) : M unit :=
  a ← getAttributes;
  when (deleteForEveryoneApplies env a del) (handleDeleteForEveryone del shouldPersist).

Fixpoint forEach {A} (items : list A) (body : A → M unit) : M unit :=
  match items with
  | [] => mret tt
  | x :: rest => body x ;; forEach rest body
  end.

Fixpoint foldM {A B} (body : B → A → M B) (items : list A) (acc : B) : M B :=
  match items with
  | [] => mret acc
  | x :: rest => acc' ← body acc x; foldM body rest acc'
  end.

Definition isNil {A} (l : list A) : bool := match l with [] => true | _ :: _ => false end.

(** Receipts for a message we sent: fold them into the send states. *)
Definition reconcileReceipts (pending : PendingModifiers) (changed : bool) : M bool :=
  a ← getAttributes;
  let sendActions := map sendActionOf (receipts pending) in
  let oldSendStateByConversationId := default ∅ (sendStateByConversationId a) in
  let newSendStateByConversationId :=
    applySendActions sendActions oldSendStateByConversationId in
  if negb (bool_decide (oldSendStateByConversationId = newSendStateByConversationId))
  then set (set_sendStateByConversationId (Some newSendStateByConversationId)) ;; mret true
  else mret changed.

(** The [type === 'incoming'] block: read and view syncs, the deferred
    read cascade, and view-once open syncs. *)
Definition reconcileIncoming (cid : string) (isFirstRun : bool)
    (pending : PendingModifiers) (changed : bool) : M bool :=
  let readSyncs := match readSync pending with Some s => [s] | None => [] end in
  let viewSyncs := viewSyncs pending in
  conversation ← theConversation cid;
  a ← getAttributes;
  let isGroupStoryReply := isGroup conversation && Truthy.str (storyId a) in
  changed ←
    (if negb (isNil readSyncs) || negb (isNil viewSyncs)
     then applyReadAndViewSyncs readSyncs viewSyncs ;; mret true
     else
       when (isFirstRun && negb isGroupStoryReply &&
             canConversationBeUnarchived conversation)
         (putConversation (Conversation.set_isArchived false conversation) ;;
          emit (SetArchived cid)) ;;
       mret changed);
  this ← getThis;
  when (negb isFirstRun && Truthy.num (pendingMarkRead this))
    (let markReadAt := default 0 (pendingMarkRead this) in
     modifyThis (set_pendingMarkRead None) ;;
     (* This is primarily to allow the conversation to mark all older messages as
        read.  We run this when isFirstRun is false so that it triggers when the
        message and the other ones accompanying it in the batch are fully in the
        database. *)
     a ← getAttributes;
     own ← getConversationById (conversationId a);
     when (Truthy.obj own) (emit (OnReadMessage (id a) markReadAt))) ;;
  (* Check for out-of-order view once open syncs *)
  a ← getAttributes;
  if isTapToView a && viewOnceOpenSync pending
  then markViewOnceMessageViewed true ;; mret true
  else mret changed.

(** The [isStory] block. *)
Definition reconcileStory (pending : PendingModifiers) (changed : bool) : M bool :=
  let viewSyncs := viewSyncs pending in
  changed ←
    (if negb (isNil viewSyncs) then
       set (λ a, set_seenStatus (Some SeenStatus.Seen)
                   (set_readStatus (Some ReadStatus.Viewed) a)) ;;
       now ← dateNow;
       let markReadAt := computeMarkReadAt now [] viewSyncs in
       this ← getThis;
       pendingValue ← orNow (pendingMarkRead this);
       modifyThis (set_pendingMarkRead (Some (Z.min pendingValue markReadAt))) ;;
       mret true
     else mret changed);
  a ← getAttributes;
  if negb (Truthy.num (expirationStartTimestamp a))
  then set (set_expirationStartTimestamp (Some (timestamp a))) ;; mret true
  else mret changed.

(** Does this message have any pending, previously-received associated
    reactions? *)
Definition reconcileReaction (changed : bool) (reaction : ReactionModel.t) : M bool :=
  this ← getAttributes;
  if isStory this then
    (* We don't set changed = true here, because we don't modify the original story *)
    match ReactionModel.storyReactionMessage reaction with
    | None => throw "Story reactions must provide storyReactionMessage"
    | Some generatedMessage =>
        callOn generatedMessage (handleReaction reaction (Some this) true) ;;
        mret changed
    end
  else handleReaction reaction None false ;; mret true.

(** [modifyTargetMessage(conversation, isFirstRun)].  The conversation is
    passed by its id and read from the controller.  [Promise.all] over the
    buffered reactions and deletes is run in list order. *)
Definition modifyTargetMessage (cid : string) (isFirstRun : bool) : M unit :=
  a ← getAttributes;
  let messageType := type a in
  let pending := forMessage env isFirstRun a in
  let sourceUuid := getSourceUuid a in
  let changed := false in
  changed ←
    (if bool_decide (messageType = outgoing) ||
        (bool_decide (messageType = story) && bool_decide (Some (ourUuid env) = sourceUuid))
     then reconcileReceipts pending changed
     else mret changed);
  changed ←
    (if bool_decide (messageType = incoming)
     then reconcileIncoming cid isFirstRun pending changed
     else mret changed);
  a ← getAttributes;
  changed ← (if isStory a then reconcileStory pending changed else mret changed);
  changed ← foldM reconcileReaction (pendingReactions pending) changed;
  (* Does this message have any pending, previously-received associated delete for
     everyone messages? *)
  changed ←
    foldM (λ changed del, deleteForEveryone del false ;; mret true)
      (pendingDeletes pending) changed;
  (* We want to make sure the message is saved first before applying any edits *)
  when (negb isFirstRun)
    (forEach (pendingEdits pending) (λ editAttributes,
       a ← getAttributes; emit (HandleEditMessage (id a) editAttributes))) ;;
  when (changed && negb isFirstRun) (a ← getAttributes; saveMessage a).

(** [saveAndNotify]: the continuation that [handleDataMessage] starts without
    awaiting it. *)
Definition saveAndNotify (cid : string) : M unit :=
  a ← getAttributes;
  (if saveMessageFails env a then throw "saveNewMessageBatcher"
   else emit (SaveNewMessageBatch a) ;; writeRow a) ;;
  emit (TriggerNewMessage (id a)) ;;
  modifyTargetMessage cid false ;;
  this ← getThis;
  publish this ;;
  a ← getAttributes;
  conversation ← getConversationById cid;
  match conversation with
  | None => throw "TypeError: conversation is undefined"
  | Some conversation =>
      when (shouldReplyNotifyUser env a conversation) (emit (Notify cid (id a))) ;;
      (* Increment the sent message count if this is an outgoing message *)
      when (bool_decide (type a = outgoing))
        (conversation ← getConversationById cid;
         match conversation with
         | Some conversation =>
             putConversation
               (Conversation.set_sentMessageCount
                  (Conversation.sentMessageCount conversation + 1) conversation)
         | None => mret tt
         end) ;;
      emit IncrementProgress ;;
      emit Confirm ;;
      when (negb (isStory a)) (emit (QueueUpdateUnread cid))
  end.

(** *** Ingestion of an inbound payload *)

(** [new Set(...)], [set.add] and [[...set]]: insertion order, no repeats. *)
Definition setAdd (x : string) (s : list string) : list string :=
  if bool_decide (x ∈ s) then s else s ++ [x].
Definition newSet (l : list string) : list string := fold_left (λ s x, setAdd x s) l [].

(** [a || b] on optional strings. *)
Definition orElse (a b : option string) : option string :=
  if Truthy.str a then a else b.

(** One step of the [unidentifiedStatus.forEach] loop of a sync update. *)
Definition mergeUnidentifiedStatus (data : SentEventData)
    (acc : gmap string SendState * list string) (entry : UnidentifiedDeliveryStatus) :
    M (gmap string SendState * list string) :=
  let '(sendStateByConversationId, unidentifiedDeliveriesSet) := acc in
  match orElse (destinationUuid entry) (destination entry) with
  | None => mret acc
  | Some identifier =>
      if negb (Truthy.str (Some identifier)) then mret acc else
      match maybeMergeContacts env (destinationUuid entry)
              (orElse (destination entry) None) with
      | None => mret acc
      | Some destinationConversationId =>
          updatedAt ← orNow (dataTimestamp data);
          let previousSendState := sendStateByConversationId !! destinationConversationId in
          let newSendState :=
            match previousSendState with
            | Some previousSendState =>
                sendStateReducer previousSendState
                  (mkSendAction SendActionType.Sent updatedAt)
            | None => mkSendState SendStatus.Sent (Some updatedAt) None
            end in
          mret (<[destinationConversationId := newSendState]> sendStateByConversationId,
                if unidentified entry then setAdd identifier unidentifiedDeliveriesSet
                else unidentifiedDeliveriesSet)
      end
  end.

(** A sync update for a message we already have: merge the delivery
    metadata of the transcript into the existing message and save it. *)
Definition mergeTranscript (existingMessage : MessageAttributesType)
    (data : option SentEventData) : M unit :=
  toUpdate ← register (newModel existingMessage);
  let unidentifiedDeliveriesSet :=
    newSet (default [] (unidentifiedDeliveries (attributes toUpdate))) in
  let sendStateByConversationId :=
    default ∅ (sendStateByConversationId (attributes toUpdate)) in
  let unidentifiedStatus := default [] (data ≫= unidentifiedStatus) in
  '(sendStateByConversationId, unidentifiedDeliveriesSet) ←
    foldM (mergeUnidentifiedStatus (default (mkSentEventData None None None) data))
      unidentifiedStatus (sendStateByConversationId, unidentifiedDeliveriesSet);
  '(_, toUpdate) ← callOn toUpdate
    (set (λ a,
       set_unidentifiedDeliveries (Some unidentifiedDeliveriesSet)
         (set_sendStateByConversationId (Some sendStateByConversationId) a)) ;;
     a ← getAttributes;
     saveMessage a);
  publish toUpdate.

(** First, check for duplicates.  If we find one, stop processing here. *)
Definition checkForDuplicates (data : option SentEventData) : M unit :=
  a ← getAttributes;
  w ← getWorld;
  let inMemoryMessage := findBySender w (getSenderIdentifier a) in
  let existingMessage :=
    match inMemoryMessage with
    | Some m => Some m
    | None => getMessageBySender w a
    end in
  let isUpdate := Truthy.flag (data ≫= isRecipientUpdate) in
  let isDuplicateMessage :=
    match existingMessage with
    | Some existingMessage =>
        bool_decide (type a = incoming) ||
        (bool_decide (type a = story) &&
         bool_decide (storyDistributionListId existingMessage = storyDistributionListId a))
    | None => false
    end in
  if isDuplicateMessage then emit Confirm ;; returnWith DuplicateMessage
  else if bool_decide (type a = outgoing) then
    match existingMessage with
    | Some existingMessage =>
        if isUpdate then
          mergeTranscript existingMessage data ;;
          emit Confirm ;;
          returnWith TranscriptMerged
        else emit Confirm ;; returnWith DuplicateTranscript
    | None =>
        if isUpdate then emit Confirm ;; returnWith UpdateWithoutExisting
        else mret tt
    end
  else mret tt.

(** The GroupV2 block: migration, repair and the embedded group change. *)
Definition processGroupV2 (cid : string) (initialMessage : DataMessage.t) : M unit :=
  match DataMessage.groupV2 initialMessage with
  | None => mret tt
  | Some groupV2 =>
      conversation ← theConversation cid;
      if isGroupV1 conversation then
        (* If we received a GroupV2 message in a GroupV1 group, we migrate! *)
        putConversation (respondToGroupV2Migration env conversation groupV2) ;;
        emit (GroupMigration cid)
      else if Truthy.str (masterKey groupV2) && Truthy.str (secretParams groupV2) &&
              Truthy.str (publicParams groupV2) then
        (* Repair core GroupV2 data if needed *)
        putConversation (maybeRepairGroupV2 env conversation groupV2) ;;
        emit (GroupRepair cid) ;;
        conversation ← theConversation cid;
        let existingRevision := Conversation.revision conversation in
        let isV2GroupUpdate :=
          match groupRevision groupV2, existingRevision with
          | Some revision, Some existingRevision => existingRevision <? revision
          | Some _, None => true
          | None, _ => false
          end in
        if isV2GroupUpdate then
          match maybeUpdateGroup env conversation groupV2 with
          | Some updated => putConversation updated ;; emit (GroupUpdate cid)
          | None => throw "maybeUpdateGroup"
          end
        else mret tt
      else mret tt
  end.

(** [{ ...message.attributes, ...initialMessage, quote, storyId }]. *)
Definition withQuoteReference (a : MessageAttributesType) (initialMessage : DataMessage.t)
    (quote : option QuotedMessageType) (storyId : option string) : MessageAttributesType :=
  set_storyId storyId (set_quote quote
    (set_giftBadge (DataMessage.giftBadge initialMessage)
    (set_payment (DataMessage.payment initialMessage)
    (set_isViewOnce (DataMessage.isViewOnce initialMessage)
    (set_timestamp (DataMessage.timestamp initialMessage)
    (set_expireTimer (DataMessage.expireTimer initialMessage)
    (set_flags (DataMessage.flags initialMessage)
    (set_sticker (DataMessage.sticker initialMessage)
    (set_preview (DataMessage.preview initialMessage)
    (set_contact (DataMessage.contact initialMessage)
    (set_attachments (Some (DataMessage.attachments initialMessage))
    (set_bodyRanges (DataMessage.bodyRanges initialMessage)
    (set_body (DataMessage.body initialMessage) a))))))))))))).

Definition filterPreviews (a dataMessage : MessageAttributesType) : list LinkPreviewType :=
  let urls := findLinks (default "" (orElse (body dataMessage) None)) in
  List.filter
    (λ item,
       if negb (Truthy.str (image item)) && negb (Truthy.str (title item)) then false
       else if isStory a then true
       else bool_decide (url item ∈ urls) && shouldPreviewHref (url item))
    (default [] (preview dataMessage)).

(** The first [message.set] of the payload's fields. *)
Definition populate (messageId : string) (cid : string) (initialMessage : DataMessage.t)
    (dataMessage : MessageAttributesType) (a : MessageAttributesType) :
    MessageAttributesType :=
  set_storyId (storyId dataMessage) (set_sticker (sticker dataMessage)
    (set_quote (quote dataMessage)
    (set_payment (payment dataMessage)
    (set_preview (Some (filterPreviews a dataMessage))
    (set_isViewOnce (Some (Truthy.flag (isViewOnce dataMessage)))
    (set_giftBadge (DataMessage.giftBadge initialMessage)
    (set_flags (flags dataMessage)
    (set_errors (Some [])
    (set_conversationId cid
    (set_contact (contact dataMessage)
    (set_bodyRanges (bodyRanges dataMessage)
    (set_body (body dataMessage)
    (set_attachments (attachments dataMessage)
    (set_id (Some messageId) a)))))))))))))).

(** The story gates: a reply to a story needs the story, a send state for
    the sender when the story is ours, and a distribution list that allows
    replies. *)
Definition checkStoryContext (conversation : Conversation.t) (sender : option string)
    (initialMessage : DataMessage.t) (storyQuote : option MessageModel) : M unit :=
  (if Truthy.obj (DataMessage.storyContext initialMessage) && negb (Truthy.obj storyQuote)
   then
     if negb (isDirectConversation conversation)
     then emit Confirm ;; returnWith StoryMissingInGroup
     else returnWith StoryMissingDeferred
   else mret tt) ;;
  match storyQuote with
  | None => mret tt
  | Some storyQuote =>
      let sendStateByConversationId :=
        default ∅ (sendStateByConversationId (attributes storyQuote)) in
      let sendState := sender ≫= (λ senderId, sendStateByConversationId !! senderId) in
      let storyQuoteIsFromSelf :=
        bool_decide (sourceUuid (attributes storyQuote) = Some (ourUuid env)) in
      if storyQuoteIsFromSelf && negb (Truthy.obj sendState)
      then emit Confirm ;; returnWith StorySenderUnknown
      else if storyQuoteIsFromSelf &&
              bool_decide (sendState ≫= isAllowedToReplyToStory = Some false) &&
              isDirectConversation conversation
      then emit Confirm ;; returnWith StoryReplyDenied
      else
        let storyDistributionListId := storyDistributionListId (attributes storyQuote) in
        if Truthy.str storyDistributionListId then
          match getStoryDistributionWithMembers env (default "" storyDistributionListId) with
          | None => emit Confirm ;; returnWith StoryDistributionMissing
          | Some storyDistribution =>
              if negb (allowsReplies storyDistribution)
              then emit Confirm ;; returnWith StoryRepliesDisabled
              else mret tt
          end
        else mret tt
  end.

(** The block guarded by [isSupported]: the emptiness gate, conversation
    activity, expiration timers, profile keys and view-once erasure. *)
Definition processSupported (cid : string) (initialMessage : DataMessage.t)
    (dataMessage : MessageAttributesType) (storyQuote : option MessageModel)
    (isGroupStoryReply hasGroupV2Prop : bool) (now : Z) : M unit :=
  conversation ← theConversation cid;
  a ← getAttributes;
  (* Drop empty messages after.  This needs to happen after the initial message.set
     call and after GroupV1 processing to make sure all possible properties are set
     before we determine that a message is empty. *)
  (if isEmpty a then emit Confirm ;; returnWith EmptyMessage else mret tt) ;;
  putConversation
    (if isStory a then Conversation.set_hasPostedStory true conversation
     else Conversation.set_active_at (Some now) conversation) ;;
  (* Sync group story reply expiration timers with the parent story's *)
  match storyQuote with
  | Some storyQuote =>
      when isGroupStoryReply
        (set (λ a,
           set_expirationStartTimestamp (expirationStartTimestamp (attributes storyQuote))
             (set_expireTimer (expireTimer (attributes storyQuote)) a)))
  | None => mret tt
  end ;;
  when (Truthy.num (expireTimer dataMessage) && negb (isExpirationTimerUpdate dataMessage))
    (set (set_expireTimer (expireTimer dataMessage)) ;;
     a ← getAttributes;
     when (isStory a) (set (set_expirationStartTimestamp (Some (timestamp dataMessage))))) ;;
  a ← getAttributes;
  when (negb hasGroupV2Prop && negb (isStory a))
    (when (isExpirationTimerUpdate a)
       (set (set_expirationTimerUpdate
               (Some (mkTimerUpdate (source a) (sourceUuid a)
                        (DataMessage.expireTimer initialMessage)))) ;;
        conversation ← theConversation cid;
        when (negb (bool_decide (Conversation.expireTimer conversation
                                 = expireTimer dataMessage)))
          (putConversation
             (Conversation.set_expireTimer (expireTimer dataMessage) conversation))) ;;
     a ← getAttributes;
     if Truthy.num (expireTimer dataMessage)
     then emit (UpdateExpirationTimer cid (expireTimer dataMessage))
     else when (negb (isGroupUpdate a) && negb (isEndSession a))
            (emit (UpdateExpirationTimer cid None))) ;;
  when (Truthy.str (DataMessage.profileKey initialMessage))
    (a ← getAttributes;
     if bool_decide (source a = ourNumber env ∧ is_Some (source a)) ||
        bool_decide (sourceUuid a = Some (ourUuid env))
     then
       conversation ← theConversation cid;
       putConversation (Conversation.set_profileSharing true conversation)
     else if isDirectConversation conversation then emit (SetProfileKey cid)
     else
       match lookupOrCreate env (source a) (sourceUuid a) with
       | Some local => emit (SetProfileKey local)
       | None => mret tt
       end) ;;
  a ← getAttributes;
  when (isTapToView a && bool_decide (type a = outgoing)) (eraseContents (λ a, a) true) ;;
  a ← getAttributes;
  when (bool_decide (type a = incoming) && isTapToView a && negb (isValidTapToView a))
    (set (set_isTapToViewInvalid (Some true)) ;;
     eraseContents (λ a, a) true).

(** The tail of the job after the gates: registration, conversation
    bookkeeping, badges, attachment downloads and the first reconciliation
    pass. *)
Definition registerAndReconcile (cid : string) (isGroupStoryReply : bool) : M unit :=
  conversation ← theConversation cid;
  a ← getAttributes;
  when (negb (isStory a) && negb isGroupStoryReply &&
        (negb (Truthy.num (Conversation.timestamp conversation)) ||
         (default 0 (Conversation.timestamp conversation) <? sent_at a)) &&
        messageHasPaymentEvent a)
    (putConversation (Conversation.set_timestamp (Some (sent_at a)) conversation)) ;;
  this ← getThis;
  register this ;;
  conversation ← theConversation cid;
  putConversation
    (Conversation.set_messageCount (Conversation.messageCount conversation + 1)
       conversation) ;;
  (* If we sent a message in a given conversation, unarchive it! *)
  when (bool_decide (type a = outgoing))
    (conversation ← theConversation cid;
     putConversation (Conversation.set_isArchived false conversation) ;;
     emit (SetArchived cid)) ;;
  emit (UpdateConversation cid) ;;
  match giftBadge a with
  | Some badge =>
      if negb (messagingAvailable env) then throw "messaging is not available"
      else
        match boostBadgeId env (level badge) with
        | None => mret tt
        | Some found =>
            emit UpdateBadges ;;
            set (set_giftBadge (Some (mkGiftBadge (level badge) (Some found))))
        end
  | None => mret tt
  end ;;
  (* Only queue attachments for downloads if this is a story or outgoing message or
     we've accepted the conversation *)
  a ← getAttributes;
  conversation ← theConversation cid;
  let attachments := default [] (attachments a) in
  let queueStoryForDownload :=
    isStory a && (isShowingStories env || shouldDownloadStory env conversation) in
  let shouldHoldOffDownload :=
    (isStory a && negb queueStoryForDownload) ||
    (negb (isStory a) && (isImage attachments || isVideo attachments) && isInCall env) in
  when (hasAttachmentDownloads a &&
        (Conversation.accepted conversation || isOutgoing a) &&
        negb shouldHoldOffDownload)
    (if shouldUseAttachmentDownloadQueue env then emit (QueueAttachmentDownloads (id a))
     else
       match queueAttachmentDownloads a with
       | Some value =>
           set (λ a,
             set_sticker (downloadedSticker value) (set_quote (downloadedQuote value)
               (set_preview (downloadedPreview value)
                 (set_contact (downloadedContact value)
                   (set_attachments (downloadedAttachments value) a)))))
       | None => mret tt
       end) ;;
  modifyTargetMessage cid true ;;
  this ← getThis;
  publish this.

Definition isBlockedSender (message : MessageAttributesType) : bool :=
  (Truthy.str (source message) && isBlocked env (default "" (source message))) ||
  (Truthy.str (sourceUuid message) && isUuidBlocked env (default "" (sourceUuid message))).

(** The start of the job, up to the block list: duplicate detection and the
    GroupV2 block. *)
Definition beforeBlockedGate (initialMessage : DataMessage.t)
    (data : option SentEventData) : M unit :=
  message ← getAttributes;
  match lookupOrCreate env (source message) (sourceUuid message) with
  | Some fromContact => emit (SetRegistered fromContact)
  | None => mret tt
  end ;;
  theConversation (conversationId message) ;;
  checkForDuplicates data ;;
  (* GroupV2 *)
  processGroupV2 (conversationId message) initialMessage.

(** The gates after the block list: group membership, announcement-only
    groups, delivery receipts, and the story context.  Hands over what the
    rest of the job needs. *)
Definition afterBlockedGate (initialMessage : DataMessage.t) :
    M (string * MessageAttributesType * option MessageModel * bool) :=
  message ← getAttributes;
  let sourceUuid := sourceUuid message in
  let messageType := type message in
  let cid := conversationId message in
  conversation ← theConversation cid;
  let sender := lookupOrCreate env (source message) sourceUuid in
  let hasGroupV2Prop := Truthy.obj (DataMessage.groupV2 initialMessage) in
  let areWeMember :=
    negb (Conversation.left conversation) &&
    Conversation.hasMember conversation (ourUuid env) in
  (* Drop an incoming GroupV2 message if we or the sender are not part of the group
     after applying the message's associated group changes. *)
  (if bool_decide (messageType = incoming) && negb (isDirectConversation conversation) &&
      hasGroupV2Prop &&
      (negb areWeMember ||
       (Truthy.str sourceUuid &&
        negb (Conversation.hasMember conversation (default "" sourceUuid))))
   then emit Confirm ;; returnWith NotInGroupV2 else mret tt) ;;
  (* We drop incoming messages for v1 groups we already know about, which we're not a
     part of.  If we have no information about a group at all, we will accept those
     messages.  We detect that via a missing 'members' field. *)
  (if bool_decide (messageType = incoming) && negb (isDirectConversation conversation) &&
      negb hasGroupV2Prop && Truthy.obj (Conversation.members conversation) &&
      negb areWeMember
   then emit Confirm ;; returnWith NotInGroupV1 else mret tt) ;;
  (* Drop incoming messages to announcement only groups where sender is not admin *)
  (if Conversation.announcementsOnly conversation then
     match checkedLookup env sender with
     | None => throw "UUID.checkedLookup"
     | Some senderUuid =>
         if negb (Conversation.isAdmin conversation senderUuid)
         then emit Confirm ;; returnWith AnnouncementOnly else mret tt
     end
   else mret tt) ;;
  messageId ←
    (if Truthy.str (id message) then mret (default "" (id message)) else generateUuid);
  (* Send delivery receipts, but only for non-story sealed sender messages and not for
     messages from unaccepted conversations *)
  when (bool_decide (messageType = incoming) &&
        Truthy.flag (unidentifiedDeliveryReceived message) &&
        negb (hasErrors message) && Conversation.accepted conversation)
    (emit (QueueDeliveryReceipt messageId)) ;;
  let quote := copyFromQuotedMessage env (DataMessage.quote initialMessage) cid in
  let storyQuote := findStoryMessage env cid (DataMessage.storyContext initialMessage) in
  checkStoryContext conversation sender initialMessage storyQuote ;;
  let dataMessage :=
    upgradeMessageSchema
      (withQuoteReference message initialMessage quote
         (storyQuote ≫= (λ s, id (attributes s)))) in
  let isGroupStoryReply := isGroup conversation && Truthy.str (storyId dataMessage) in
  mret (messageId, dataMessage, storyQuote, isGroupStoryReply).

(** The initial [message.set] and the story context that comes with it. *)
Definition populateMessage (messageId : string) (initialMessage : DataMessage.t)
    (dataMessage : MessageAttributesType) (storyQuote : option MessageModel) : M unit :=
  message ← getAttributes;
  set (populate messageId (conversationId message) initialMessage dataMessage) ;;
  match storyQuote with
  | Some storyQuote => hydrateStoryContext (Some (attributes storyQuote))
  | None => mret tt
  end.

(** What follows the initial [message.set]: unsupported messages are erased,
    supported ones pass the emptiness gate; then registration and the first
    reconciliation pass. *)
Definition afterPopulate (initialMessage : DataMessage.t)
    (dataMessage : MessageAttributesType) (storyQuote : option MessageModel)
    (isGroupStoryReply : bool) (now : Z) : M unit :=
  a ← getAttributes;
  let isSupported := negb (isUnsupportedMessage a) in
  when (negb isSupported) (eraseContents (λ a, a) true) ;;
  when isSupported
    (processSupported (conversationId a) initialMessage dataMessage storyQuote
       isGroupStoryReply (Truthy.obj (DataMessage.groupV2 initialMessage)) now) ;;
  registerAndReconcile (conversationId a) isGroupStoryReply.

(** [handleDataMessage(initialMessage, confirm, { data })]: the job queued on
    the conversation.  A normal completion means that [saveAndNotify] has
    been started. *)
Definition handleDataMessage (initialMessage : DataMessage.t)
    (data : option SentEventData) : M unit :=
  beforeBlockedGate initialMessage data ;;
  message ← getAttributes;
  (* Drop if from blocked user.  Only GroupV2 messages should need to be dropped here. *)
  (if isBlockedSender message then emit Confirm ;; returnWith BlockedSender
   else mret tt) ;;
  '(messageId, dataMessage, storyQuote, isGroupStoryReply) ←
    afterBlockedGate initialMessage;
  tryCatch
    (now ← dateNow;
     populateMessage messageId initialMessage dataMessage storyQuote ;;
     afterPopulate initialMessage dataMessage storyQuote isGroupStoryReply now)
    (λ error, throw error).

(** One inbound payload from receipt to acknowledgement: the queued job and,
    when it completes, the continuation it started. *)
Definition processPayload (initialMessage : DataMessage.t) (data : option SentEventData) :
    M unit :=
  a ← getAttributes;
  handleDataMessage initialMessage data ;;
  saveAndNotify (conversationId a).
End Model.

(** * The vocabulary of the statements *)

(** ** Weakest preconditions

    [wp m s Q]: running [m] from [s] ends in a completion and a state that
    satisfy [Q].  Every method is a total function, so this speaks about all
    runs. *)
Definition wp {A} (m : M A) (s : St) (Q : Completion A → St → Prop) : Prop :=
  Q (m s).1 (m s).2.

(** ** Frame conditions

    [ensures R T m]: however [m] completes, the state after is related by [R]
    to the state before, and when [m] ends the job early the reason
    satisfies [T]. *)
Definition ensures (R : relation St) (T : Outcome → Prop) {A} (m : M A) : Prop :=
  ∀ s, R s (m s).2 ∧ ∀ o, (m s).1 = Return o → T o.

Definition never : Outcome → Prop := λ _, False.

(** A relation that constrains the receiver and the world separately. *)
Definition both (Rs : relation MessageModel) (Rw : relation World) : relation St :=
  λ s s', Rs (self s) (self s') ∧ Rw (world s) (world s').

Definition anything {X} : relation X := λ _ _, True.

Definition isCascade (e : Effect) : bool :=
  match e with OnReadMessage _ _ => true | _ => false end.

(** [appends P w w']: the trace of [w'] is the trace of [w] followed by
    effects that all satisfy [P]. *)
Definition appends (P : Effect → Prop) : relation World :=
  λ w w', ∃ extra, trace w' = trace w ++ extra ∧ Forall P extra.

(** The part of a message that the read and view syncs decide. *)
Definition readState (m : MessageModel) :=
  (type (attributes m), conversationId (attributes m), readStatus (attributes m),
   seenStatus (attributes m), expirationStartTimestamp (attributes m),
   expireTimer (attributes m), pendingMarkRead m).

Definition keepsReadState : relation MessageModel := λ m m', readState m' = readState m.

(** The sent-class statuses. *)
Definition sentClass (s : SendStatus.t) : bool :=
  match s with
  | SendStatus.Sent | SendStatus.Delivered | SendStatus.Read | SendStatus.Viewed => true
  | SendStatus.Pending | SendStatus.Failed => false
  end.

Definition isGroupEffect (e : Effect) : bool :=
  match e with
  | GroupMigration _ | GroupRepair _ | GroupUpdate _ => true
  | _ => false
  end.

Section Specification.
Context `{!MessageSelectors, !SendStateOps, !ReactionUtil, !ConversationSelectors,
          !MessageUtil}.
Variable env : Env.

(** ** Deletion for everyone *)

(** What [eraseContents] writes over the content fields. *)
Definition erase (additionalProperties : MessageAttributesType → MessageAttributesType)
    (a : MessageAttributesType) : MessageAttributesType :=
  additionalProperties
    (set_sticker None (set_quote None (set_preview (Some []) (set_isErased (Some true)
      (set_editHistory None (set_contact (Some []) (set_bodyRanges None
        (set_body (Some "") (set_attachments (Some []) a))))))))).

Record ErasedForEveryone (a : MessageAttributesType) : Prop := {
  erased_deletedForEveryone : deletedForEveryone a = Some true;
  erased_isErased : isErased a = Some true;
  erased_body : body a = Some "";
  erased_attachments : attachments a = Some [];
  erased_contact : contact a = Some [];
  erased_preview : preview a = Some [];
  erased_reactions : reactions a = Some [];
  erased_quote : quote a = None;
  erased_sticker : sticker a = None
}.

(** ** Reactions *)

(** The two guards at the head of [handleReaction]. *)
Definition refusesReactions (a : MessageAttributesType) : bool :=
  Truthy.flag (deletedForEveryone a) ||
  (hasErrors a &&
   (isIncoming a ||
    negb (bool_decide (getMessagePropStatus a (ourConversationId env)
                       = Some "partial-sent")))).

(** The receiver after [handleReaction] on a message that is not a story. *)
Definition reacted (reaction : ReactionModel.t) (s : St) : MessageModel :=
  let a := attributes (self s) in
  if refusesReactions a then self s
  else
    match conversations (world s) !! conversationId a with
    | None => self s
    | Some conversation =>
        setAttributes
          (set_reactions
             (Some (updatedReactions reaction (newReactionOf reaction conversation)
                      (default [] (reactions a)))))
          (self s)
    end.

(** Properties of [reactions/util] that the statements about reactions rest
    on.  The helpers are not part of messages.ts; the properties are the
    replacement rule of the specification. *)
Definition ReplacesSameAuthor : Prop :=
  ∀ a b, isNewReactionReplacingPrevious a b = String.eqb (fromId a) (fromId b).

Definition OutgoingRemovalDeletes : Prop :=
  ∀ old new, emoji new = None →
    addOutgoingReaction old new
    = List.filter (λ re, negb (isNewReactionReplacingPrevious re new)) old.

Definition OutgoingReplaces : Prop :=
  ∀ old new, emoji new ≠ None →
    addOutgoingReaction old new
    = List.filter (λ re, negb (isNewReactionReplacingPrevious re new)) old ++ [new].

(** ** The job up to the emptiness gate, and what a run adds to the trace *)

(** The job up to and including the initial [message.set]. *)
Definition ingest (initialMessage : DataMessage.t) (data : option SentEventData) :
    M (MessageAttributesType * option MessageModel * bool * Z) :=
  beforeBlockedGate env initialMessage data ;;
  message ← getAttributes;
  (if isBlockedSender env message then emit Confirm ;; returnWith BlockedSender
   else mret tt) ;;
  '(messageId, dataMessage, storyQuote, isGroupStoryReply) ←
    afterBlockedGate env initialMessage;
  now ← dateNow;
  populateMessage messageId initialMessage dataMessage storyQuote ;;
  mret (dataMessage, storyQuote, isGroupStoryReply, now).

(** The effects that a run added to the trace. *)
Definition added (before after : World) (extra : list Effect) : Prop :=
  trace after = trace before ++ extra.

(** ** Read and view syncs *)

(** The message after the block that applies read and view syncs. *)
Record Synced (readSyncs : list ReadSync) (viewSyncs : list ViewSync) (s : St)
    (this : MessageModel) : Prop := {
  synced_type : type (attributes this) = type (attributes (self s));
  synced_conversation :
    conversationId (attributes this) = conversationId (attributes (self s));
  synced_timer : expireTimer (attributes this) = expireTimer (attributes (self s));
  synced_read :
    readStatus (attributes this)
    = Some (match viewSyncs with [] => ReadStatus.Read | _ :: _ => ReadStatus.Viewed end);
  synced_seen : seenStatus (attributes this) = Some SeenStatus.Seen;
  synced_expiration :
    expirationStartTimestamp (attributes this)
    = if Truthy.num (expireTimer (attributes (self s)))
      then Some (Z.min (default (reading (tick (world s)))
                          (expirationStartTimestamp (attributes (self s))))
                   (computeMarkReadAt (reading (world s)) readSyncs viewSyncs))
      else expirationStartTimestamp (attributes (self s))
}.

Definition readSyncsOf (pending : PendingModifiers) : list ReadSync :=
  match readSync pending with Some s => [s] | None => [] end.

(** Selectors identify a story by its type. *)
Definition StoryIsAType : Prop := ∀ a, isStory a = true → type a = story.

(** The state right after the block of the pass that applies the read and
    view syncs to an incoming message. *)
Definition afterSyncs (pending : PendingModifiers) (s : St) : St :=
  (applyReadAndViewSyncs (readSyncsOf pending) (viewSyncs pending) s).2.

(** The clock when the block takes [this.pendingMarkRead ?? Date.now()]: the
    reading for [markReadAt] has been taken, and one more when the start of
    the timer was taken from the clock. *)
Definition clockAtPending (s : St) : World :=
  let a := attributes (self s) in
  if Truthy.num (expireTimer a)
  then match expirationStartTimestamp a with
       | Some _ => tick (world s)
       | None => tick (tick (world s))
       end
  else tick (world s).

(** A view-once open sync that is buffered for the pass opens the message:
    the message is a tap-to-view message that is valid and not erased. *)
Definition opensViewOnce (pending : PendingModifiers) (a : MessageAttributesType) : bool :=
  isTapToView a && viewOnceOpenSync pending && isValidTapToView a &&
  negb (Truthy.flag (isErased a)).

(** The attributes that decide the read state after the view-once step of
    the pass: [markViewed] is applied when a view-once open sync opens the
    message and the message is not Viewed yet. *)
Definition openedBy (pending : PendingModifiers) (a : MessageAttributesType) :
    MessageAttributesType :=
  if opensViewOnce pending a && negb (bool_decide (readStatus a = Some ReadStatus.Viewed))
  then markViewed a else a.

(** What is left of [pendingMarkRead] at the end of a pass: a later run
    hands a stamp that is not zero to the read cascade and clears it. *)
Definition stampLeft (isFirstRun : bool) (stamp : option Z) : option Z :=
  if negb isFirstRun && Truthy.num stamp then None else stamp.

(** ** Send states *)

(** Properties of messages/MessageSendState that the statement rests on:
    [isSent] holds of the sent-class statuses, and a failure does not touch
    a successful send (the note on [markFailed]). *)
Definition IsSentClass : Prop := ∀ s, isSent s = sentClass s.

Definition FailureSparesSent : Prop :=
  ∀ state action,
    isSent (status state) = true → actionType action = SendActionType.Failed →
    sendStateReducer state action = state.

Definition sendStates (m : MessageModel) : gmap string SendState :=
  default ∅ (sendStateByConversationId (attributes m)).

(** ** Emptiness *)

(** The content kinds that can stand alone in a message. *)
Definition hasDisplayableContent (a : MessageAttributesType) : bool :=
  Truthy.str (body a) || nonEmpty (attachments a) || nonEmpty (contact a) ||
  Truthy.obj (sticker a) || messageHasPaymentEvent a.

(** The subtypes that are rendered without any content of their own:
    rendered sync messages, placeholders, errors and locally generated
    notifications. *)
Definition isRecognizedSubtype (a : MessageAttributesType) : bool :=
  isCallHistory a || isChatSessionRefreshed a || isDeliveryIssue a || isGiftBadge a ||
  isGroupUpdate a || isGroupV2Change a || isEndSession a || isExpirationTimerUpdate a ||
  isVerifiedChange a || isUnsupportedMessage a || isTapToView a || hasErrors a ||
  isKeyChange a || isProfileChange a || isUniversalTimerNotification a ||
  isConversationMerge a.

(** ** Duplicates and transcripts *)


(** What happens before the job is queued: the sender is marked registered. *)
Definition registration (a : MessageAttributesType) : list Effect :=
  match lookupOrCreate env (source a) (sourceUuid a) with
  | Some fromContact => [SetRegistered fromContact]
  | None => []
  end.

Definition DeliveryMetadata : Type := gmap string SendState * list string.

Definition deliveryMetadata (a : MessageAttributesType) : DeliveryMetadata :=
  (default ∅ (sendStateByConversationId a), newSet (default [] (unidentifiedDeliveries a))).

Definition withDeliveryMetadata (d : DeliveryMetadata) (a : MessageAttributesType) :
    MessageAttributesType :=
  set_unidentifiedDeliveries (Some d.2) (set_sendStateByConversationId (Some d.1) a).

(** Merging only adds: every recipient and every sealed-sender delivery that
    was recorded stays recorded. *)
Definition extends (d d' : DeliveryMetadata) : Prop :=
  (∀ k, is_Some (d.1 !! k) → is_Some (d'.1 !! k)) ∧ (∀ i, i ∈ d.2 → i ∈ d'.2).

(** The recipient of a delivery status of the transcript is recorded. *)
Definition covers (d : DeliveryMetadata) (entry : UnidentifiedDeliveryStatus) : Prop :=
  ∀ identifier recipient,
    orElse (destinationUuid entry) (destination entry) = Some identifier →
    Truthy.str (Some identifier) = true →
    maybeMergeContacts env (destinationUuid entry) (orElse (destination entry) None)
      = Some recipient →
    is_Some (d.1 !! recipient) ∧ (unidentified entry = true → identifier ∈ d.2).

(** Only the clock may differ. *)
Definition sameStore (w w' : World) : Prop :=
  conversations w' = conversations w ∧ messageCache w' = messageCache w ∧
  database w' = database w ∧ trace w' = trace w ∧ uuids w' = uuids w.

(** The outcome of merging a transcript into [base]. *)
Definition Merged (data : option SentEventData) (base : MessageAttributesType)
    (trail : list Effect) (before : St) (r : Completion unit) (after : St) (done : Outcome) :
    Prop :=
  ∃ d,
    let merged := withDeliveryMetadata d base in
    extends (deliveryMetadata base) d ∧
    Forall (covers d) (default [] (data ≫= unidentifiedStatus)) ∧
    self after = self before ∧
    conversations (world after) = conversations (world before) ∧
    if saveMessageFails env merged
    then r = Throw "saveMessage" ∧ database (world after) = database (world before)
    else r = Return done ∧
         database (world after) = upsert merged (database (world before)) ∧
         trace (world after) = trace (world before) ++ trail ++ [SaveMessage merged; Confirm].

Definition loggedAll (effects : list Effect) (w : World) : World :=
  fold_left (λ w e, logged e w) effects w.

(** ** The block list *)

(** What a step leaves alone when it only talks to the groups module: the
    receiver, the store and the identity index; the trace grows by group
    effects, and without a group context nothing changes at all. *)
Record GroupsOnly (grouped : bool) (s s' : St) (groupEffects : list Effect) : Prop := {
  groups_self : self s' = self s;
  groups_database : database (world s') = database (world s);
  groups_cache : messageCache (world s') = messageCache (world s);
  groups_trace : trace (world s') = trace (world s) ++ groupEffects;
  groups_effects : Forall (λ e, isGroupEffect e = true) groupEffects;
  groups_none : grouped = false →
                groupEffects = [] ∧ conversations (world s') = conversations (world s)
}.

End Specification.

(** * More of the message model *)

(** [messages/MessageSendState] also exports [someSendStatus]. *)
Class SendStateQueries := {
  someSendStatus : gmap string SendState → (SendStatus.t → bool) → bool
}.

Section MoreModel.
Context `{!MessageSelectors, !SendStateOps, !ReactionUtil, !ConversationSelectors,
          !MessageUtil, !SendStateQueries}.
Variable env : Env.

(** [x || 0] on a number. *)
Definition orZero (x : Z) : Z := if Z.eqb x 0 then 0 else x.

(** The [comparator] of [MessageCollection]: by [received_at], then by
    [sent_at]. *)
Definition comparator (left right : MessageAttributesType) : Z :=
  if Z.eqb (received_at left) (received_at right)
  then orZero (sent_at left) - orZero (sent_at right)
  else orZero (received_at left) - orZero (received_at right).

(** [hasSuccessfulDelivery]: lodash [omit] and [isEmpty] on the send
    states. *)
Definition hasSuccessfulDelivery (a : MessageAttributesType) : bool :=
  let sendStateByConversationId := default ∅ (sendStateByConversationId a) in
  let withoutMe := delete (ourConversationId env) sendStateByConversationId in
  bool_decide (withoutMe = ∅) || someSendStatus withoutMe isSent.
End MoreModel.

(** * The vocabulary of the further statements *)

Definition isConfirm (e : Effect) : bool :=
  match e with Confirm => true | _ => false end.

(** How often a run called [confirm]. *)
Definition confirmations (effects : list Effect) : nat :=
  length (List.filter isConfirm effects).

(** The one way out of the queued job that leaves the payload unconfirmed on
    purpose: a reply to a story that has not arrived yet, in a direct
    conversation. *)
Definition isDeferred (o : Outcome) : bool :=
  match o with StoryMissingDeferred => true | _ => false end.

(** [Acknowledged final before r after]: the run added effects to the trace;
    when it ended the job early (and not by deferring), [confirm] was called
    once, as the last thing; when it completed and [final] holds, [confirm]
    was called once; otherwise [confirm] was not called. *)
Definition Acknowledged {A} (final : bool) (before : list Effect) (r : Completion A)
    (after : list Effect) : Prop :=
  ∃ added,
    after = before ++ added ∧
    match r with
    | Return o =>
        if isDeferred o then confirmations added = 0%nat
        else ∃ earlier, added = earlier ++ [Confirm] ∧ confirmations earlier = 0%nat
    | Normal _ => confirmations added = (if final then 1 else 0)%nat
    | Throw _ => confirmations added = 0%nat
    end.

(** [acks m]: [m] is a part of the queued job that confirms exactly when it
    ends the job early. *)
Definition acks {A} (m : M A) : Prop :=
  ∀ s, Acknowledged false (trace (world s)) (m s).1 (trace (world (m s).2)).

(** [settles m]: [m] runs the job to its end and confirms exactly when it
    completes or drops the payload. *)
Definition settles {A} (m : M A) : Prop :=
  ∀ s, Acknowledged true (trace (world s)) (m s).1 (trace (world (m s).2)).

Definition isJob (e : Effect) : bool :=
  match e with EnqueueJob _ _ => true | _ => false end.

(** How many jobs a run put on the job queues. *)
Definition jobs (effects : list Effect) : nat := length (List.filter isJob effects).

Definition isNormal {A} (r : Completion A) : bool :=
  match r with Normal _ => true | _ => false end.

(** The property of [someSendStatus] that the statement on deliveries rests
    on: it holds when some entry has a status that satisfies the predicate. *)
Definition SomeIsExists `{!SendStateQueries} : Prop :=
  ∀ states predicate,
    someSendStatus states predicate = true ↔
    ∃ k state, states !! k = Some state ∧ predicate (status state) = true.

(** The story a reply refers to, as [hydrateStoryContext] resolves it: the
    message handed in, or else the message with that id. *)
Definition resolvedStory (w : World) (inMemoryMessage : option MessageAttributesType)
    (storyId : string) : option MessageAttributesType :=
  match inMemoryMessage with
  | None => getMessageById w storyId
  | Some m => Some m
  end.

(** The reply context needs no (further) hydration: it has an attachment with
    a url, or it records that the story was not found. *)
Definition contextSettled (a : MessageAttributesType) : bool :=
  match storyReplyContext a with
  | Some context =>
      Truthy.str (contextAttachment context ≫= attachmentUrl) ||
      negb (Truthy.str (Some (contextMessageId context)))
  | None => false
  end.

(** The context [hydrateStoryContext] builds from a story it found: the first
    attachment, unless that has neither a url nor a text, the author and the
    id of the story. *)
Definition storyContextOf `{!MessageUtil} (message : MessageAttributesType) :
    StoryReplyContext :=
  mkStoryReplyContext
    match default [] (getAttachmentsForMessage message) with
    | [] => None
    | first :: _ =>
        if negb (Truthy.str (attachmentUrl first)) && negb (textAttachment first)
        then None else Some first
    end
    (sourceUuid message) (default "" (id message)).

(** ** The group gates of [handleDataMessage] *)

Section GateVocabulary.
Context `{!MessageSelectors, !SendStateOps, !ReactionUtil, !ConversationSelectors,
          !MessageUtil}.
Variable env : Env.

(** [areWeMember]: we have not left the group and are among its members. *)
Definition areWeMember (conversation : Conversation.t) : bool :=
  negb (Conversation.left conversation) &&
  Conversation.hasMember conversation (ourUuid env).

(** The sender has a uuid that is not among the members of the group. *)
Definition senderOutside (a : MessageAttributesType) (conversation : Conversation.t) :
    bool :=
  Truthy.str (sourceUuid a) &&
  negb (Conversation.hasMember conversation (default "" (sourceUuid a))).

(** The condition under which a delivery receipt is queued. *)
Definition wantsDeliveryReceipt (a : MessageAttributesType)
    (conversation : Conversation.t) : bool :=
  bool_decide (type a = incoming) && Truthy.flag (unidentifiedDeliveryReceived a) &&
  negb (hasErrors a) && Conversation.accepted conversation.

(** The job ends at a group gate: an incoming message to a group is dropped
    for membership, or the conversation is announcement-only and the
    sender is no admin of it or has no uuid. *)
Definition endsAtGroupGates (initialMessage : DataMessage.t) (a : MessageAttributesType)
    (conversation : Conversation.t) : bool :=
  let grouped := Truthy.obj (DataMessage.groupV2 initialMessage) in
  let toGroup :=
    bool_decide (type a = incoming) && negb (isDirectConversation conversation) in
  toGroup && grouped && (negb (areWeMember conversation) || senderOutside a conversation) ||
  toGroup && negb grouped && Truthy.obj (Conversation.members conversation) &&
    negb (areWeMember conversation) ||
  Conversation.announcementsOnly conversation &&
    match checkedLookup env (lookupOrCreate env (source a) (sourceUuid a)) with
    | None => true
    | Some senderUuid => negb (Conversation.isAdmin conversation senderUuid)
    end.

(** The rest of [afterBlockedGate] once the group gates have let the
    message pass: the message id, the delivery receipt, the story gates and
    the upgraded payload. *)
Definition afterGroupGates (initialMessage : DataMessage.t) (message : MessageAttributesType)
    (conversation : Conversation.t) :
    M (string * MessageAttributesType * option MessageModel * bool) :=
  let cid := conversationId message in
  let sender := lookupOrCreate env (source message) (sourceUuid message) in
  messageId ←
    (if Truthy.str (id message) then mret (default "" (id message)) else generateUuid);
  when (bool_decide (type message = incoming) &&
        Truthy.flag (unidentifiedDeliveryReceived message) &&
        negb (hasErrors message) && Conversation.accepted conversation)
    (emit (QueueDeliveryReceipt messageId)) ;;
  let quote := copyFromQuotedMessage env (DataMessage.quote initialMessage) cid in
  let storyQuote := findStoryMessage env cid (DataMessage.storyContext initialMessage) in
  checkStoryContext env conversation sender initialMessage storyQuote ;;
  let dataMessage :=
    upgradeMessageSchema
      (withQuoteReference message initialMessage quote
         (storyQuote ≫= (λ s, id (attributes s)))) in
  let isGroupStoryReply := isGroup conversation && Truthy.str (storyId dataMessage) in
  mret (messageId, dataMessage, storyQuote, isGroupStoryReply).
End GateVocabulary.

Definition isStoryOutcome (o : Outcome) : bool :=
  match o with
  | StoryMissingInGroup | StoryMissingDeferred | StorySenderUnknown | StoryReplyDenied
  | StoryDistributionMissing | StoryRepliesDisabled => true
  | _ => false
  end.

Definition isDeliveryReceipt (e : Effect) : bool :=
  match e with QueueDeliveryReceipt _ => true | _ => false end.

(** How many delivery receipts a run queued. *)
Definition receiptsQueued (effects : list Effect) : nat :=
  length (List.filter isDeliveryReceipt effects).

(** The job ended at one of the group gates (membership, announcement-only)
    or failed there. *)
Definition stoppedAtGroupGates {A} (r : Completion A) : bool :=
  match r with
  | Return NotInGroupV2 | Return NotInGroupV1 | Return AnnouncementOnly | Throw _ => true
  | _ => false
  end.

(** ** The stores *)

(** The ids of the rows of the message store, in the order of the rows. *)
Definition storedIds (w : World) : list (option string) := map id (database w).

(** The ids of the messages in the identity index, in the order of
    registration. *)
Definition registeredIds (w : World) : list (option string) :=
  map (λ m, id (attributes m)) (messageCache w).

(** [onlyAdds w w']: the message store of [w'] has a row for every row of
    [w], in the same place and under the same id, and new rows only at the
    end; the same holds of the identity index; and every conversation of [w]
    is a conversation of [w']. *)
Definition onlyAdds : relation World := λ w w',
  storedIds w `prefix_of` storedIds w' ∧
  registeredIds w `prefix_of` registeredIds w' ∧
  dom (conversations w) ⊆ dom (conversations w').

(** ** Reference implementations of the imported helpers

    The sibling modules are not part of this development.  The instances
    below give the helpers a concrete reading so that the model can be run on
    examples. *)

#[global] Instance ConversationKind_eq_dec : EqDecision ConversationKind.
Proof. solve_decision. Defined.

Module Reference.

Definition rank (s : SendStatus.t) : Z :=
  match s with
  | SendStatus.Failed => 0
  | SendStatus.Pending => 1
  | SendStatus.Sent => 2
  | SendStatus.Delivered => 3
  | SendStatus.Read => 4
  | SendStatus.Viewed => 5
  end.

Definition target (t : SendActionType.t) : SendStatus.t :=
  match t with
  | SendActionType.Failed => SendStatus.Failed
  | SendActionType.ManuallyRetried => SendStatus.Pending
  | SendActionType.Sent => SendStatus.Sent
  | SendActionType.GotDeliveryReceipt => SendStatus.Delivered
  | SendActionType.GotReadReceipt => SendStatus.Read
  | SendActionType.GotViewedReceipt => SendStatus.Viewed
  end.

(** Modelled from the spec: [isSent] of messages/MessageSendState; the
    sent-class statuses are Sent, Delivered, Read and Viewed. *)
Definition isSent (s : SendStatus.t) : bool := 2 <=? rank s.

Definition nextStatus (old : SendStatus.t) (t : SendActionType.t) : SendStatus.t :=
  match old, t with
  | SendStatus.Pending, SendActionType.Failed => SendStatus.Failed
  | SendStatus.Failed, SendActionType.ManuallyRetried => SendStatus.Pending
  | SendStatus.Failed, _ => SendStatus.Failed
  | _, _ => if rank old <? rank (target t) then target t else old
  end.

(** Modelled from the spec: [sendStateReducer] of messages/MessageSendState.
    The status advances along Pending, Sent, Delivered, Read, Viewed; a
    receipt for a later status implies the earlier ones; a failure only
    marks a pending send failed; a failed send stays failed until it is
    manually retried, which makes it pending again. *)
Definition sendStateReducer (state : SendState) (action : SendAction) : SendState :=
  let new := nextStatus (status state) (actionType action) in
  if bool_decide (new = status state) then state
  else mkSendState new (Some (actionUpdatedAt action)) (isAllowedToReplyToStory state).

#[export] Instance sendStateOps : SendStateOps :=
  Build_SendStateOps isSent sendStateReducer.

(** Modelled from the spec: [isNewReactionReplacingPrevious] of
    reactions/util; there is at most one active reaction per [fromId]. *)
Definition isNewReactionReplacingPrevious (reaction newReaction : MessageReactionType) :
    bool :=
  String.eqb (fromId reaction) (fromId newReaction).

(** Modelled from the spec: [addOutgoingReaction] of reactions/util; a new
    event from the same [fromId] replaces the prior one and a remove event
    deletes the matching entry. *)
Definition addOutgoingReaction (oldReactions : list MessageReactionType)
    (newReaction : MessageReactionType) : list MessageReactionType :=
  List.filter (λ re, negb (isNewReactionReplacingPrevious re newReaction)) oldReactions ++
  match emoji newReaction with Some _ => [newReaction] | None => [] end.

#[export] Instance reactionUtil : ReactionUtil :=
  Build_ReactionUtil isNewReactionReplacingPrevious addOutgoingReaction.

Definition hasFlag (bit : Z) (a : MessageAttributesType) : bool :=
  match flags a with
  | Some f => negb (Z.eqb f 0) && Z.eqb (Z.land f bit) bit
  | None => false
  end.

Definition noSuch (a : MessageAttributesType) : bool := false.

(** Modelled from the spec: the selectors of state/selectors/message and
    messages/helpers.  The message kind is read from [type], the
    end-session and expiration-timer-update subtypes from the protocol
    [flags] (bits 1 and 2); subtypes whose marker attribute is not part of
    the model never hold. *)
#[export] Instance messageSelectors : MessageSelectors := {|
  isCallHistory := noSuch;
  isChatSessionRefreshed := noSuch;
  isDeliveryIssue := noSuch;
  isGiftBadge := λ a, Truthy.obj (giftBadge a);
  isGroupUpdate := noSuch;
  isGroupV2Change := noSuch;
  isEndSession := hasFlag 1;
  isExpirationTimerUpdate := hasFlag 2;
  isVerifiedChange := noSuch;
  isUnsupportedMessage := noSuch;
  isTapToView := λ a, Truthy.flag (isViewOnce a);
  hasErrors := λ a, nonEmpty (errors a);
  isKeyChange := noSuch;
  isProfileChange := noSuch;
  isUniversalTimerNotification := noSuch;
  isConversationMerge := noSuch;
  messageHasPaymentEvent := λ a, Truthy.obj (payment a);
  isIncoming := λ a, bool_decide (type a = incoming);
  isOutgoing := λ a, bool_decide (type a = outgoing);
  isStory := λ a, bool_decide (type a = story);
  getSourceUuid := sourceUuid;
  getMessagePropStatus := λ _ _, None
|}.

(** Modelled from the spec: util/whatTypeOfConversation, by the kind of the
    conversation; [isMe] compares with the given account. *)
Definition conversationSelectors (our : string) : ConversationSelectors := {|
  isDirectConversation := λ c, bool_decide (Conversation.kind c = Direct);
  isGroup := λ c, negb (bool_decide (Conversation.kind c = Direct));
  isGroupV1 := λ c, bool_decide (Conversation.kind c = GroupV1);
  isMe := λ c, bool_decide (Conversation.uuid c = Some our);
  canConversationBeUnarchived := Conversation.isArchived
|}.

(** Modelled from the spec: services/MessageUpdater, util/GoogleChrome,
    types/LinkPreview and the download helpers; viewing sets the read
    status, nothing is migrated or queued. *)
#[export] Instance messageUtil : MessageUtil := {|
  markViewed := set_readStatus (Some ReadStatus.Viewed);
  isImageTypeSupported := λ t, bool_decide (t ∈ ["image/jpeg"; "image/png"; "image/gif"]);
  isVideoTypeSupported := λ t, bool_decide (t ∈ ["video/mp4"]);
  findLinks := λ _, [];
  shouldPreviewHref := λ _, true;
  upgradeMessageSchema := λ a, a;
  hasAttachmentDownloads := λ a, nonEmpty (attachments a);
  isImage := λ _, false;
  isVideo := λ _, false;
  queueAttachmentDownloads := λ _, None;
  getAttachmentsForMessage := attachments
|}.

Definition ourAci : string := "our-aci".

#[export] Instance conversationOps : ConversationSelectors := conversationSelectors ourAci.

(** An account with nobody blocked, no groups to update and no buffered
    modifiers. *)
Definition env : Env := {|
  ourUuid := ourAci;
  ourNumber := Some "+100";
  ourConversationId := "me";
  lookupOrCreate := λ e164 uuid, orElse uuid e164;
  checkedLookup := λ c, c;
  maybeMergeContacts := λ uuid e164, orElse uuid e164;
  isBlocked := λ _, false;
  isUuidBlocked := λ _, false;
  respondToGroupV2Migration := λ c _, c;
  maybeRepairGroupV2 := λ c _, c;
  maybeUpdateGroup := λ c _, Some c;
  copyFromQuotedMessage := λ q _, q;
  findStoryMessage := λ _ _, None;
  getStoryDistributionWithMembers := λ _, None;
  forMessage := λ _ _, noPending;
  deleteForEveryoneApplies := λ _ _, true;
  messagingAvailable := true;
  boostBadgeId := λ _, None;
  areWePrimaryDevice := true;
  nowAt := λ _, 1000;
  isShowingStories := false;
  shouldDownloadStory := λ _, false;
  isInCall := false;
  shouldUseAttachmentDownloadQueue := false;
  shouldReplyNotifyUser := λ _ _, false;
  deleteDataFails := λ _, false;
  saveMessageFails := λ _, false
|}.

Definition message (kind : MessageType) (cid : string) (from : string) (sentAt : Z) :
    MessageAttributesType :=
  mkAttributes None kind cid None (Some from) (Some 1) sentAt sentAt sentAt
    None None None None None None None None None None None None None None None None None
    None None None None None None None None None None None None.

Definition payload (text : string) (sentAt : Z) : DataMessage.t :=
  DataMessage.mk (Some text) None [] None None None None None None sentAt None None None
    None None None.

Definition conversation (cid : string) (kind : ConversationKind) : Conversation.t :=
  Conversation.mk cid kind None false None [] [] [] false true None None None false false
    false None 0 0.

Definition worldOf (cs : list Conversation.t) : World :=
  mkWorld (list_to_map (map (λ c, (Conversation.id c, c)) cs)) [] [] []
    [100; 101; 102; 103; 104; 105; 106; 107] ["id-1"; "id-2"; "id-3"; "id-4"].

End Reference.

(** ** Sample runs

    Concrete accounts, conversations and arrivals on which the model is run
    with the reference helpers. *)
Module Examples.
Import Reference.

(** The reference account with a block list, a groups module that applies
    the revision of a group change, and buffered modifiers. *)
Definition account (blockedUuid : string → bool)
    (pending : bool → MessageAttributesType → PendingModifiers) : Env := {|
  ourUuid := ourUuid env;
  ourNumber := ourNumber env;
  ourConversationId := ourConversationId env;
  lookupOrCreate := lookupOrCreate env;
  checkedLookup := checkedLookup env;
  maybeMergeContacts := maybeMergeContacts env;
  isBlocked := isBlocked env;
  isUuidBlocked := blockedUuid;
  respondToGroupV2Migration := respondToGroupV2Migration env;
  maybeRepairGroupV2 := maybeRepairGroupV2 env;
  maybeUpdateGroup := λ c groupV2,
    Some (Conversation.mk (Conversation.id c) (Conversation.kind c) (Conversation.uuid c)
            (Conversation.left c) (Conversation.members c) (Conversation.memberUuids c)
            (Conversation.adminUuids c) (Conversation.memberConversationIds c)
            (Conversation.announcementsOnly c) (Conversation.accepted c)
            (Conversation.expireTimer c) (Conversation.timestamp c)
            (Conversation.active_at c) (Conversation.hasPostedStory c)
            (Conversation.isArchived c) (Conversation.profileSharing c)
            (groupRevision groupV2) (Conversation.messageCount c)
            (Conversation.sentMessageCount c));
  copyFromQuotedMessage := copyFromQuotedMessage env;
  findStoryMessage := findStoryMessage env;
  getStoryDistributionWithMembers := getStoryDistributionWithMembers env;
  forMessage := pending;
  deleteForEveryoneApplies := deleteForEveryoneApplies env;
  messagingAvailable := messagingAvailable env;
  boostBadgeId := boostBadgeId env;
  areWePrimaryDevice := areWePrimaryDevice env;
  nowAt := nowAt env;
  isShowingStories := isShowingStories env;
  shouldDownloadStory := shouldDownloadStory env;
  isInCall := isInCall env;
  shouldUseAttachmentDownloadQueue := shouldUseAttachmentDownloadQueue env;
  shouldReplyNotifyUser := shouldReplyNotifyUser env;
  deleteDataFails := deleteDataFails env;
  saveMessageFails := saveMessageFails env
|}.

Definition chat : World := worldOf [conversation "c1" Direct].

Definition arrival (a : MessageAttributesType) (w : World) : St := mkSt (newModel a) w.

(** *** A text message from alice, twice *)
Definition fromAlice : MessageAttributesType := message incoming "c1" "alice" 5.

(** *** One story sent to two distribution lists *)
Definition storyFor (list : string) : MessageAttributesType :=
  mkAttributes None story "me" None (Some ourAci) (Some 1) 7 7 7
    None None None None None None None None None None None None None None None None None
    None None None None (Some list) None None None None None None None.

(** *** An expiration timer update without content *)
Definition timerUpdate : DataMessage.t :=
  DataMessage.mk None None [] None None None None (Some 2) (Some 60) 5 None None None
    None None None.

(** *** A blocked sender *)
Definition blocking : Env := account (String.eqb "mallory") (λ _ _, noPending).
Definition fromMallory (cid : string) : MessageAttributesType :=
  message incoming cid "mallory" 8.
Definition group : Conversation.t :=
  Conversation.mk "g1" GroupV2 None false None ["our-aci"; "mallory"] [] [] false true
    None None None false false false (Some 1) 0 0.
Definition groupChangePayload : DataMessage.t :=
  DataMessage.mk (Some "hello group") None [] None None None None None None 8 None None
    None None (Some (mkGroupV2 (Some 2) None (Some "master") (Some "secret")
                       (Some "public")))
    None.

(** *** A message with a reaction, a deletion, syncs and send states *)
Definition thumbsUp : MessageReactionType :=
  mkReaction (Some "+1") "bob" "alice" 5 20 None.
Definition reactedTo : MessageAttributesType :=
  set_reactions (Some [thumbsUp]) (set_body (Some "hello") fromAlice).
Definition staleRemoval : ReactionModel.t :=
  ReactionModel.mk "+1" (Some true) "bob" FromSync "alice" 5 10 None.
Definition heart : ReactionModel.t :=
  ReactionModel.mk "heart" None "carol" FromSomeoneElse "alice" 5 30 None.
Definition deletion : DeleteModel.t := DeleteModel.mk "alice" 5 9.

Definition synced : Env :=
  account (λ _, false)
    (λ _ _, mkPending [] (Some (mkReadSync 50)) [mkViewSync 40] false [] [] []).
Definition disappearing : MessageAttributesType :=
  set_expireTimer (Some 60) (set_body (Some "hello") fromAlice).

(** *** A read sync and a view-once open sync for a view-once message *)
Definition readThenOpened : Env :=
  account (λ _, false) (λ _ _, mkPending [] (Some (mkReadSync 50)) [] true [] [] []).
Definition glimpse : MessageAttributesType :=
  set_isViewOnce (Some true)
    (set_attachments (Some [mkAttachment "image/jpeg" (Some "glimpse.jpg") None false])
       fromAlice).

Definition delivered : SendState := mkSendState SendStatus.Delivered (Some 3) None.
Definition failed : SendState := mkSendState SendStatus.Failed (Some 4) None.
Definition sentToTwo : MessageAttributesType :=
  set_sendStateByConversationId (Some (<["bob" := delivered]> {["carol" := failed]}))
    (set_body (Some "hello") (message outgoing "c1" ourAci 6)).
End Examples.

(** ** Further sample runs *)
Module MoreExamples.
Import Reference Examples.

(** [someSendStatus] of messages/MessageSendState is not part of this
    development; the instance reads it as: some entry has a status that
    satisfies the predicate. *)
#[export] Instance sendStateQueries : SendStateQueries :=
  Build_SendStateQueries
    (λ states predicate,
       existsb (λ entry, predicate (status entry.2)) (map_to_list states)).

(** The reference account on a store that refuses the messages selected by
    [refused]. *)
Definition onStore (refused : MessageAttributesType → bool) : Env := {|
  ourUuid := ourUuid env;
  ourNumber := ourNumber env;
  ourConversationId := ourConversationId env;
  lookupOrCreate := lookupOrCreate env;
  checkedLookup := checkedLookup env;
  maybeMergeContacts := maybeMergeContacts env;
  isBlocked := isBlocked env;
  isUuidBlocked := isUuidBlocked env;
  respondToGroupV2Migration := respondToGroupV2Migration env;
  maybeRepairGroupV2 := maybeRepairGroupV2 env;
  maybeUpdateGroup := maybeUpdateGroup env;
  copyFromQuotedMessage := copyFromQuotedMessage env;
  findStoryMessage := findStoryMessage env;
  getStoryDistributionWithMembers := getStoryDistributionWithMembers env;
  forMessage := forMessage env;
  deleteForEveryoneApplies := deleteForEveryoneApplies env;
  messagingAvailable := messagingAvailable env;
  boostBadgeId := boostBadgeId env;
  areWePrimaryDevice := areWePrimaryDevice env;
  nowAt := nowAt env;
  isShowingStories := isShowingStories env;
  shouldDownloadStory := shouldDownloadStory env;
  isInCall := isInCall env;
  shouldUseAttachmentDownloadQueue := shouldUseAttachmentDownloadQueue env;
  shouldReplyNotifyUser := shouldReplyNotifyUser env;
  deleteDataFails := deleteDataFails env;
  saveMessageFails := refused
|}.

(** *** A view-once photo from alice *)
Definition photo : AttachmentType := mkAttachment "image/jpeg" (Some "photo.jpg") None false.
Definition snapshot : MessageAttributesType :=
  set_isViewOnce (Some true) (set_attachments (Some [photo]) fromAlice).

(** *** A reply to a story, and the story *)
Definition storyReply : MessageAttributesType := set_storyId (Some "story-1") fromAlice.
Definition undownloaded : MessageAttributesType :=
  set_id (Some "story-1") (set_attachments (Some [photo]) (storyFor "list-A")).
Definition downloaded : MessageAttributesType :=
  set_id (Some "story-1")
    (set_attachments (Some [mkAttachment "image/jpeg" (Some "photo.jpg")
                              (Some "file:///photo.jpg") false])
       (storyFor "list-A")).
Definition replyPayload : DataMessage.t :=
  DataMessage.mk (Some "nice") None [] None None None None None None 5 None None None
    None None (Some (mkStoryContext (Some ourAci) 7)).

(** *** Groups *)
Definition fromEve : MessageAttributesType := message incoming "g1" "eve" 8.
Definition announcements : Conversation.t :=
  Conversation.mk "g2" GroupV2 None false None ["our-aci"; "alice"] ["our-aci"] [] true
    true None None None false false false (Some 1) 0 0.
Definition toAnnouncements : MessageAttributesType := message incoming "g2" "alice" 9.
Definition ahead : Conversation.t :=
  Conversation.mk "g1" GroupV2 None false None ["our-aci"; "mallory"] [] [] false true
    None None None false false false (Some 5) 0 0.

(** *** A sealed-sender message from alice *)
Definition sealed : MessageAttributesType :=
  mkAttributes None incoming "c1" None (Some "alice") (Some 1) 5 5 5
    None None None None None None None None None None None None None (Some true)
    None None None None None None None None None None None None None None None.
End MoreExamples.

(** * Reasoning about methods *)

Section WpRules.
Context {A B : Type}.

Lemma wp_mono (m : M A) s (Q Q' : Completion A → St → Prop) :
  wp m s Q → (∀ r s', Q r s' → Q' r s') → wp m s Q'.
Proof. unfold wp. auto. Qed.

Lemma wp_bind (m : M A) (f : A → M B) s Q :
  wp m s (λ r s',
    match r with
    | Normal a => wp (f a) s' Q
    | Return o => Q (Return o) s'
    | Throw e => Q (Throw e) s'
    end) →
  wp (m ≫= f) s Q.
Proof. unfold wp, mbind, M_bind. destruct (m s) as [[a|o|e] s']; auto. Qed.

Lemma wp_ret (a : A) s (Q : Completion A → St → Prop) : Q (Normal a) s → wp (mret a) s Q.
Proof. auto. Qed.

Lemma wp_throw e s (Q : Completion A → St → Prop) : Q (Throw e) s → wp (throw e) s Q.
Proof. auto. Qed.

Lemma wp_returnWith o s (Q : Completion A → St → Prop) :
  Q (Return o) s → wp (returnWith o) s Q.
Proof. auto. Qed.

Lemma wp_tryCatch (body : M A) handler s Q :
  wp body s (λ r s',
    match r with
    | Throw e => wp (handler e) s' Q
    | _ => Q r s'
    end) →
  wp (tryCatch body handler) s Q.
Proof. unfold wp, tryCatch. destruct (body s) as [[a|o|e] s']; auto. Qed.

Lemma wp_tryFinally (body : M A) cleanup s Q :
  wp body s (λ r s',
    wp cleanup s' (λ r' s'',
      Q (match r' with Normal _ => r | Return o => Return o | Throw e => Throw e end)
        s'')) →
  wp (tryFinally body cleanup) s Q.
Proof.
  unfold wp, tryFinally. destruct (body s) as [r s']. cbn.
  destruct (cleanup s') as [[u|o|e] s'']; auto.
Qed.

Lemma wp_callOn other (method : M A) s (Q : Completion (A * MessageModel) → St → Prop) :
  wp method (mkSt other (world s)) (λ r s',
    Q (match r with
       | Normal a => Normal (a, self s')
       | Return o => Return o
       | Throw e => Throw e
       end)
      (mkSt (self s) (world s'))) →
  wp (callOn other method) s Q.
Proof.
  unfold wp, callOn. destruct (method (mkSt other (world s))) as [[a|o|e] s']; auto.
Qed.
End WpRules.

Lemma wp_when b (m : M unit) s Q :
  (b = true → wp m s Q) → (b = false → Q (Normal tt) s) → wp (when b m) s Q.
Proof. destruct b; cbn; intros Ht Hf; [apply Ht | apply (Hf eq_refl)]; reflexivity. Qed.

Lemma wp_getThis s Q : Q (Normal (self s)) s → wp getThis s Q.
Proof. auto. Qed.
Lemma wp_getAttributes s Q : Q (Normal (attributes (self s))) s → wp getAttributes s Q.
Proof. auto. Qed.
Lemma wp_getWorld s Q : Q (Normal (world s)) s → wp getWorld s Q.
Proof. auto. Qed.
Lemma wp_modifyThis f s Q : Q (Normal tt) (mkSt (f (self s)) (world s)) → wp (modifyThis f) s Q.
Proof. auto. Qed.
Lemma wp_set f s Q :
  Q (Normal tt) (mkSt (setAttributes f (self s)) (world s)) → wp (set f) s Q.
Proof. auto. Qed.
Lemma wp_modifyWorld f s Q :
  Q (Normal tt) (mkSt (self s) (f (world s))) → wp (modifyWorld f) s Q.
Proof. auto. Qed.
Lemma wp_getConversationById cid s Q :
  Q (Normal (conversations (world s) !! cid)) s → wp (getConversationById cid) s Q.
Proof. auto. Qed.

Lemma wp_emit e s Q : Q (Normal tt) (mkSt (self s) (logged e (world s))) → wp (emit e) s Q.
Proof. auto. Qed.
Lemma wp_putConversation c s Q :
  Q (Normal tt) (mkSt (self s) (withConversation c (world s))) → wp (putConversation c) s Q.
Proof. auto. Qed.
Lemma wp_writeRow a s Q :
  Q (Normal tt) (mkSt (self s) (withRow a (world s))) → wp (writeRow a) s Q.
Proof. auto. Qed.

Lemma wp_dateNow s Q :
  Q (Normal (reading (world s))) (mkSt (self s) (tick (world s))) → wp dateNow s Q.
Proof. auto. Qed.
Lemma wp_generateUuid s Q :
  Q (Normal (nextUuid (world s))) (mkSt (self s) (drawUuid (world s))) → wp generateUuid s Q.
Proof. auto. Qed.
Lemma wp_register m s Q :
  Q (Normal (registered m (world s))) (mkSt (self s) (withRegistered m (world s))) →
  wp (register m) s Q.
Proof. auto. Qed.
Lemma wp_publish m s Q :
  Q (Normal tt) (mkSt (self s) (withPublished m (world s))) → wp (publish m) s Q.
Proof. auto. Qed.

Lemma wp_theConversation cid s c Q :
  conversations (world s) !! cid = Some c → Q (Normal c) s → wp (theConversation cid) s Q.
Proof. intros Hc HQ. unfold wp, theConversation, mbind, M_bind, getConversationById. cbn. rewrite Hc. exact HQ. Qed.

(** One step of symbolic execution, in program order. *)
Ltac wp_step :=
  lazymatch goal with
  | |- wp (mbind _ _) _ _ => apply wp_bind
  | |- wp (mret _) _ _ => apply wp_ret
  | |- wp (throw _) _ _ => apply wp_throw
  | |- wp (returnWith _) _ _ => apply wp_returnWith
  | |- wp getThis _ _ => apply wp_getThis
  | |- wp getAttributes _ _ => apply wp_getAttributes
  | |- wp getWorld _ _ => apply wp_getWorld
  | |- wp (modifyThis _) _ _ => apply wp_modifyThis
  | |- wp (set _) _ _ => apply wp_set
  | |- wp (modifyWorld _) _ _ => apply wp_modifyWorld
  | |- wp (getConversationById _) _ _ => apply wp_getConversationById
  | |- wp (emit _) _ _ => apply wp_emit
  | |- wp (putConversation _) _ _ => apply wp_putConversation
  | |- wp (writeRow _) _ _ => apply wp_writeRow
  | |- wp dateNow _ _ => apply wp_dateNow
  | |- wp generateUuid _ _ => apply wp_generateUuid
  | |- wp (register _) _ _ => apply wp_register
  | |- wp (publish _) _ _ => apply wp_publish
  | |- wp (tryCatch _ _) _ _ => apply wp_tryCatch
  | |- wp (tryFinally _ _) _ _ => apply wp_tryFinally
  | |- wp (callOn _ _) _ _ => apply wp_callOn
  | |- wp (when _ _) _ _ => apply wp_when; intros ?
  | |- wp (if ?b then _ else _) _ _ => destruct b eqn:?
  | |- wp (match ?x with _ => _ end) _ _ => destruct x eqn:?
  end;
  cbn beta iota zeta; cbn [self world].

Ltac wp_run := repeat wp_step.

Lemma wp_ensures {A} R T (m : M A) s :
  ensures R T m → wp m s (λ r s', R s s' ∧ ∀ o, r = Return o → T o).
Proof. unfold wp. auto. Qed.

Section EnsuresRules.
Context (R : relation St) `{!PreOrder R} (T : Outcome → Prop).
Context {A B : Type}.

Lemma ensures_ret (a : A) : ensures R T (mret a).
Proof. intros s. split; [reflexivity | discriminate]. Qed.

Lemma ensures_throw e : ensures R T (throw (A:=A) e).
Proof. intros s. split; [reflexivity | discriminate]. Qed.

Lemma ensures_returnWith o : T o → ensures R T (returnWith (A:=A) o).
Proof. intros Ho s. split; [reflexivity | intros o' [= <-]; exact Ho]. Qed.

Lemma ensures_bind (m : M A) (f : A → M B) :
  ensures R T m → (∀ a, ensures R T (f a)) → ensures R T (m ≫= f).
Proof.
  intros Hm Hf s. destruct (Hm s) as [Hstate Hreturn]. unfold mbind, M_bind.
  destruct (m s) as [[a|o|e] s']; cbn in *.
  - destruct (Hf a s') as [Hstate' Hreturn']. split; [etrans; eauto | auto].
  - split; [auto | intros o' [= <-]; auto].
  - split; [auto | discriminate].
Qed.

Lemma ensures_tryCatch (body : M A) handler :
  ensures R T body → (∀ e, ensures R T (handler e)) → ensures R T (tryCatch body handler).
Proof.
  intros Hb Hh s. destruct (Hb s) as [Hstate Hreturn]. unfold tryCatch.
  destruct (body s) as [[a|o|e] s']; cbn in *; auto.
  destruct (Hh e s') as [Hstate' Hreturn']. split; [etrans; eauto | auto].
Qed.

Lemma ensures_tryFinally (body : M A) cleanup :
  ensures R T body → ensures R T cleanup → ensures R T (tryFinally body cleanup).
Proof.
  intros Hb Hc s. destruct (Hb s) as [Hstate Hreturn]. unfold tryFinally.
  destruct (body s) as [r s']. destruct (Hc s') as [Hstate' Hreturn'].
  destruct (cleanup s') as [[u|o|e] s'']; cbn in *;
    (split; [etrans; eauto | ]); auto.
  all: intros o' Heq; try discriminate; injection Heq as <-; auto.
Qed.

Lemma ensures_getThis : ensures R T getThis.
Proof. intros s. split; [reflexivity | discriminate]. Qed.
Lemma ensures_getAttributes : ensures R T getAttributes.
Proof. intros s. split; [reflexivity | discriminate]. Qed.
Lemma ensures_getWorld : ensures R T getWorld.
Proof. intros s. split; [reflexivity | discriminate]. Qed.
Lemma ensures_getConversationById cid : ensures R T (getConversationById cid).
Proof. intros s. split; [reflexivity | discriminate]. Qed.
End EnsuresRules.

Lemma ensures_when R `{!PreOrder R} T b (m : M unit) : ensures R T m → ensures R T (when b m).
Proof. destruct b; auto. intros _. apply ensures_ret; auto. Qed.

Lemma ensures_forEach R `{!PreOrder R} T {A} (items : list A) body :
  (∀ x, ensures R T (body x)) → ensures R T (forEach items body).
Proof.
  intros Hb. induction items as [|x rest IH]; cbn.
  - apply ensures_ret; auto.
  - apply ensures_bind; auto.
Qed.

Lemma ensures_foldM R `{!PreOrder R} T {A B} (body : B → A → M B) items acc :
  (∀ acc x, ensures R T (body acc x)) → ensures R T (foldM body items acc).
Proof.
  intros Hb. revert acc. induction items as [|x rest IH]; intros acc; cbn.
  - apply ensures_ret; auto.
  - apply ensures_bind; auto.
Qed.

#[global] Instance both_preorder Rs Rw `{!PreOrder Rs, !PreOrder Rw} : PreOrder (both Rs Rw).
Proof.
  split.
  - intros s. split; reflexivity.
  - intros s1 s2 s3 [? ?] [? ?]. split; etrans; eauto.
Qed.

#[global] Instance anything_preorder {X} : PreOrder (@anything X).
Proof. split; red; unfold anything; auto. Qed.

Lemma ensures_weaken (R R' : relation St) (T T' : Outcome → Prop) {A} (m : M A) :
  (∀ s s', R s s' → R' s s') → (∀ o, T o → T' o) → ensures R T m → ensures R' T' m.
Proof. intros HR HT Hm s. destruct (Hm s). split; auto. Qed.

Lemma ensures_never R T {A} (m : M A) : ensures R never m → ensures R T m.
Proof. apply ensures_weaken; auto. intros o []. Qed.

Lemma ensures_callOn Rs Rw `{!PreOrder Rs, !PreOrder Rw} T {A} other (method : M A) :
  ensures (both anything Rw) T method → ensures (both Rs Rw) T (callOn other method).
Proof.
  intros Hm s. destruct (Hm (mkSt other (world s))) as [[_ Hworld] Hreturn].
  unfold callOn. destruct (method _) as [[a|o|e] s']; cbn in *;
    (split; [split; [reflexivity | auto] | auto; try discriminate]).
  intros o' [= <-]. auto.
Qed.

Lemma ensures_anyself Rs Rw T {A} (m : M A) :
  ensures (both Rs Rw) T m → ensures (both anything Rw) T m.
Proof. apply ensures_weaken; auto. intros s s' [_ ?]. split; [exact I | auto]. Qed.

Lemma ensures_modifyThis Rs Rw `{!PreOrder Rw} T f :
  (∀ m, Rs m (f m)) → ensures (both Rs Rw) T (modifyThis f).
Proof. intros Hf s. split; [split; cbn; [auto | reflexivity] | discriminate]. Qed.

Lemma ensures_set Rs Rw `{!PreOrder Rw} T f :
  (∀ m, Rs m (setAttributes f m)) → ensures (both Rs Rw) T (set f).
Proof. intros Hf. apply ensures_modifyThis; auto. Qed.

Lemma ensures_modifyWorld Rs Rw `{!PreOrder Rs} T f :
  (∀ w, Rw w (f w)) → ensures (both Rs Rw) T (modifyWorld f).
Proof. intros Hf s. split; [split; cbn; [reflexivity | auto] | discriminate]. Qed.

(** Structural decomposition of a frame goal; the leaves are closed from the
    hint database [frame]. *)
Create HintDb frame.

Ltac frame_leaf :=
  solve [ eauto with frame typeclass_instances
        | apply ensures_never; eauto with frame typeclass_instances
        | eapply ensures_anyself; eauto with frame typeclass_instances ].

Ltac frame_step :=
  cbv zeta;
  lazymatch goal with
  | |- ensures _ _ (mbind _ _) => apply ensures_bind; [ try apply _ | | intros ? ]
  | |- ensures _ _ (mret _) => apply ensures_ret; try apply _
  | |- ensures _ _ (throw _) => apply ensures_throw; try apply _
  | |- ensures _ _ (returnWith _) =>
      apply ensures_returnWith;
        [ try apply _ | first [ exact I | reflexivity | solve [auto; discriminate] | idtac ] ]
  | |- ensures _ _ getThis => apply ensures_getThis; try apply _
  | |- ensures _ _ getAttributes => apply ensures_getAttributes; try apply _
  | |- ensures _ _ getWorld => apply ensures_getWorld; try apply _
  | |- ensures _ _ (getConversationById _) => apply ensures_getConversationById; try apply _
  | |- ensures _ _ (when false _) => apply ensures_ret; try apply _
  | |- ensures _ _ (when _ _) => apply ensures_when; [ try apply _ | ]
  | |- ensures _ _ (tryCatch _ _) => apply ensures_tryCatch; [ try apply _ | | intros ? ]
  | |- ensures _ _ (tryFinally _ _) => apply ensures_tryFinally; [ try apply _ | | ]
  | |- ensures _ _ (forEach _ _) => apply ensures_forEach; [ try apply _ | intros ? ]
  | |- ensures _ _ (foldM _ _ _) => apply ensures_foldM; [ try apply _ | intros ? ? ]
  | |- ensures _ _ (callOn _ _) => apply ensures_callOn; [ try apply _ .. | ]
  | |- ensures _ _ (if ?b then _ else _) => destruct b
  | |- ensures _ _ (match ?x with _ => _ end) => destruct x
  | |- ensures _ _ _ => frame_leaf
  end.

Ltac frame := repeat frame_step.

Section Deletion.
Context `{!MessageSelectors, !SendStateOps, !ReactionUtil, !ConversationSelectors,
          !MessageUtil}.
Variable env : Env.

Lemma eraseContents_self additionalProperties shouldPersist s :
  wp (eraseContents env additionalProperties shouldPersist) s (λ _ s',
    self s' = setAttributes (erase additionalProperties) (self s)).
Proof.
  unfold eraseContents, deleteData, saveMessage. wp_run; reflexivity.
Qed.

Lemma handleDeleteForEveryone_self del shouldPersist s :
  Truthy.flag (deletingForEveryone (self s)) = false →
  Truthy.flag (deletedForEveryone (attributes (self s))) = false →
  wp (handleDeleteForEveryone env del shouldPersist) s (λ _ s',
    self s' =
    set_deletingForEveryone None
      (setAttributes
         (erase (λ a, set_reactions (Some []) (set_deletedForEveryone (Some true) a)))
         (self s))).
Proof.
  intros Hprogress Hdeleted. unfold handleDeleteForEveryone.
  wp_step. wp_step. rewrite Hprogress, Hdeleted. cbn [orb].
  wp_step. wp_step. wp_step. wp_step. wp_step. wp_step.
  eapply wp_mono; [apply eraseContents_self|].
  intros r s' Hs'. cbn [self world] in Hs'.
  destruct r; wp_run; rewrite Hs'; reflexivity.
Qed.

Lemma handleDeleteForEveryone_again del shouldPersist s :
  Truthy.flag (deletedForEveryone (attributes (self s))) = true →
  handleDeleteForEveryone env del shouldPersist s = (Normal tt, s).
Proof.
  intros Hdeleted. unfold handleDeleteForEveryone, mbind, M_bind, getThis.
  rewrite Hdeleted, orb_true_r. reflexivity.
Qed.

(** C9.  After [handleDeleteForEveryone] has run on a message that was not
    deleted for everyone before (and on which no deletion was in progress),
    the message is deleted for everyone and erased: [deletedForEveryone] and
    [isErased] are true, body, attachments, contact, preview and reactions
    are empty, and there is no quote or sticker; this holds however the run
    completes.  A second invocation on the message returns at once and
    changes nothing. *)
Theorem handleDeleteForEveryone_erases del shouldPersist s :
  Truthy.flag (deletingForEveryone (self s)) = false →
  Truthy.flag (deletedForEveryone (attributes (self s))) = false →
  let s' := (handleDeleteForEveryone env del shouldPersist s).2 in
  ErasedForEveryone (attributes (self s')) ∧
  ∀ del' shouldPersist',
    handleDeleteForEveryone env del' shouldPersist' s' = (Normal tt, s').
Proof.
  intros Hprogress Hdeleted s'.
  pose proof (handleDeleteForEveryone_self del shouldPersist s Hprogress Hdeleted) as Hself.
  unfold wp in Hself. fold s' in Hself.
  assert (ErasedForEveryone (attributes (self s'))) as Herased
    by (rewrite Hself; split; reflexivity).
  split; [exact Herased|].
  intros del' shouldPersist'. apply handleDeleteForEveryone_again.
  rewrite (erased_deletedForEveryone _ Herased). reflexivity.
Qed.
End Deletion.

Section Reactions.
Context `{!MessageSelectors, !SendStateOps, !ReactionUtil, !ConversationSelectors,
          !MessageUtil}.
Variable env : Env.

Lemma handleReaction_self reaction shouldPersist s :
  wp (handleReaction env reaction None shouldPersist) s (λ _ s',
    self s' = reacted env reaction s ∧ conversations (world s') = conversations (world s)).
Proof.
  unfold handleReaction, reacted, refusesReactions, clearNotifications, saveMessage.
  wp_run; cbn [orb]; auto.
Qed.

Lemma reactions_after reaction shouldPersist s :
  self (handleReaction env reaction None shouldPersist s).2 = reacted env reaction s ∧
  conversations (world (handleReaction env reaction None shouldPersist s).2)
  = conversations (world s).
Proof. apply (handleReaction_self reaction shouldPersist s). Qed.

Lemma elem_of_filter {A} (f : A → bool) (l : list A) x :
  x ∈ List.filter f l ↔ x ∈ l ∧ f x = true.
Proof. rewrite !list_elem_of_In. apply filter_In. Qed.

Lemma source_cases (reaction : ReactionModel.t) :
  (isFromThisDevice reaction = true ∧ ReactionModel.source reaction = FromThisDevice) ∨
  (isFromThisDevice reaction = false ∧ isFromSync reaction = true ∧
   ReactionModel.source reaction = FromSync) ∨
  (isFromThisDevice reaction = false ∧ isFromSync reaction = false ∧
   ReactionModel.source reaction = FromSomeoneElse).
Proof.
  unfold isFromThisDevice, isFromSync.
  destruct (ReactionModel.source reaction); cbn; auto.
Qed.

Lemma updatedReactions_remove reaction newReaction old re :
  Truthy.flag (ReactionModel.remove reaction) = true →
  emoji newReaction = None →
  (ReactionModel.source reaction = FromThisDevice → OutgoingRemovalDeletes) →
  re ∈ updatedReactions reaction newReaction old ↔
  re ∈ old ∧
  (isNewReactionReplacingPrevious re newReaction = false ∨
   (ReactionModel.source reaction = FromSync ∧
    ReactionModel.timestamp reaction < reactionTimestamp re)).
Proof.
  intros Hremove Hemoji Hlaw. unfold updatedReactions. rewrite Hremove.
  destruct (source_cases reaction) as [[-> Hsrc]|[(-> & -> & Hsrc)|(-> & -> & Hsrc)]].
  - rewrite (Hlaw Hsrc old newReaction Hemoji), elem_of_filter, negb_true_iff.
    rewrite Hsrc. intuition congruence.
  - rewrite elem_of_filter, orb_true_iff, negb_true_iff, Z.ltb_lt. intuition.
  - rewrite elem_of_filter, negb_true_iff. rewrite Hsrc. intuition congruence.
Qed.

(** C2.  A remove event that [handleReaction] applies to a message that is
    not a story keeps an existing entry exactly when the entry does not match
    the event, or the event came from a sync and the entry is strictly newer
    than the event.  So a sync-sourced remove leaves a newer matching entry
    in place, and a remove from any other source deletes the matching entry
    whatever the timestamps.  (For a remove from this device the list is
    computed by [addOutgoingReaction], which is assumed to delete the
    matching entry.) *)
Theorem handleReaction_remove reaction shouldPersist s conversation :
  refusesReactions env (attributes (self s)) = false →
  conversations (world s) !! conversationId (attributes (self s)) = Some conversation →
  Truthy.flag (ReactionModel.remove reaction) = true →
  (ReactionModel.source reaction = FromThisDevice → OutgoingRemovalDeletes) →
  let old := default [] (reactions (attributes (self s))) in
  let new :=
    default [] (reactions
      (attributes (self (handleReaction env reaction None shouldPersist s).2))) in
  ∀ re,
    re ∈ new ↔
    re ∈ old ∧
    (isNewReactionReplacingPrevious re (newReactionOf reaction conversation) = false ∨
     (ReactionModel.source reaction = FromSync ∧
      ReactionModel.timestamp reaction < reactionTimestamp re)).
Proof.
  intros Haccepts Hconversation Hremove Hlaw old new re. subst old new.
  destruct (reactions_after reaction shouldPersist s) as [-> _].
  unfold reacted. rewrite Haccepts, Hconversation. cbn.
  apply updatedReactions_remove; auto.
  unfold newReactionOf. rewrite Hremove. reflexivity.
Qed.

Lemma maxBy_spec {A} (key : A → Z) rest first :
  (maxBy key first rest = first ∨ key first < key (maxBy key first rest)) ∧
  (maxBy key first rest = first ∨ maxBy key first rest ∈ rest).
Proof.
  unfold maxBy. revert first. induction rest as [|x rest IH]; intros first; cbn.
  - auto.
  - destruct (Z.ltb_spec (key first) (key x)) as [Hlt|Hge].
    + destruct (IH x) as [[->| Hkey] [Heq|Hin]]; split; auto; try lia;
        right; try rewrite Heq; constructor; auto.
    + destruct (IH first) as [Hkey [Heq|Hin]]; split; auto.
      right. constructor. exact Hin.
Qed.

Lemma filter_filter_same {A} (f : A → bool) l :
  List.filter f (List.filter f l) = List.filter f l.
Proof.
  induction l as [|x l IH]; cbn; auto.
  destruct (f x) eqn:Hx; cbn; rewrite ?Hx, IH; auto.
Qed.

Lemma filter_none {A} (f g : A → bool) l :
  (∀ x, g x = true → f x = false) → List.filter g (List.filter f l) = [].
Proof.
  intros Hfg. induction l as [|x l IH]; cbn; auto.
  destruct (f x) eqn:Hx; cbn; auto.
  destruct (g x) eqn:Hg; auto. rewrite (Hfg x Hg) in Hx. discriminate.
Qed.

Lemma updatedReactions_idempotent reaction conversation old :
  Truthy.flag (ReactionModel.remove reaction) = false →
  ReplacesSameAuthor →
  (ReactionModel.source reaction = FromThisDevice → OutgoingReplaces) →
  let newReaction := newReactionOf reaction conversation in
  updatedReactions reaction newReaction (updatedReactions reaction newReaction old)
  = updatedReactions reaction newReaction old.
Proof.
  intros Hadd Hsame Hlaw newReaction.
  assert (emoji newReaction ≠ None) as Hemoji
    by (unfold newReaction, newReactionOf; rewrite Hadd; discriminate).
  assert (∀ re, isNewReactionReplacingPrevious re newReaction
                = String.eqb (fromId re) (ReactionModel.fromId reaction)) as Hnew
    by (intros re; rewrite Hsame; reflexivity).
  assert (∀ re, isNewReactionReplacingPrevious re (reactionAttributes reaction)
                = String.eqb (fromId re) (ReactionModel.fromId reaction)) as Hattrs
    by (intros re; rewrite Hsame; reflexivity).
  assert (fromId newReaction = ReactionModel.fromId reaction) as Hfrom by reflexivity.
  unfold updatedReactions. rewrite Hadd.
  destruct (source_cases reaction) as [[-> Hsrc]|[(-> & -> & Hsrc)|(-> & -> & Hsrc)]].
  - rewrite !(Hlaw Hsrc _ _ Hemoji), List.filter_app, filter_filter_same. cbn.
    rewrite Hnew, Hfrom, String.eqb_refl. cbn. rewrite app_nil_r. reflexivity.
  - set (same := λ re : MessageReactionType,
                   String.eqb (fromId re) (ReactionModel.fromId reaction)).
    set (others := λ re, negb (isNewReactionReplacingPrevious re
                                 (reactionAttributes reaction))).
    pose proof (maxBy_spec reactionTimestamp (List.filter same old) newReaction) as Hmax.
    set (kept := maxBy reactionTimestamp newReaction (List.filter same old)) in *.
    assert (same kept = true) as Hkept.
    { destruct Hmax as [_ [Heq|Hin]].
      - rewrite Heq. unfold same. rewrite Hfrom. apply String.eqb_refl.
      - apply elem_of_filter in Hin. tauto. }
    rewrite !List.filter_app, filter_filter_same. cbn.
    assert (others kept = false) as -> by (unfold others; rewrite Hattrs; fold (same kept);
                                            rewrite Hkept; reflexivity).
    rewrite Hkept, app_nil_r.
    rewrite (filter_none others same).
    2:{ intros x Hx. unfold others. rewrite Hattrs. fold (same x). rewrite Hx.
        reflexivity. }
    cbn. change (ReactionModel.timestamp reaction) with (reactionTimestamp newReaction).
    destruct Hmax as [[Heq|Hlt] _].
    + rewrite Heq, Z.ltb_irrefl. reflexivity.
    + apply Z.ltb_lt in Hlt. rewrite Hlt. reflexivity.
  - rewrite List.filter_app, filter_filter_same. cbn.
    rewrite Hattrs, Hfrom, String.eqb_refl. cbn. rewrite app_nil_r. reflexivity.
Qed.

(** C8.  Applying the same add event (same author, emoji, timestamp and
    provenance) twice through [handleReaction] to a message that is not a
    story leaves the reactions after the second application equal to those
    after the first, so the size of the reaction set is unchanged: the entry
    of the author is filtered out and the same entry is added again.  (The
    helpers of reactions/util are assumed to match entries by author and,
    for an event from this device, to replace the author's entry.) *)
Theorem handleReaction_twice reaction shouldPersist shouldPersist' s :
  Truthy.flag (ReactionModel.remove reaction) = false →
  ReplacesSameAuthor →
  (ReactionModel.source reaction = FromThisDevice → OutgoingReplaces) →
  let once := (handleReaction env reaction None shouldPersist s).2 in
  let twice := (handleReaction env reaction None shouldPersist' once).2 in
  reactions (attributes (self twice)) = reactions (attributes (self once)) ∧
  length (default [] (reactions (attributes (self twice))))
  = length (default [] (reactions (attributes (self once)))).
Proof.
  intros Hadd Hsame Hlaw once twice.
  assert (reactions (attributes (self twice)) = reactions (attributes (self once))) as Heq.
  { subst twice. destruct (reactions_after reaction shouldPersist' once) as [-> _].
    destruct (reactions_after reaction shouldPersist s) as [Honce Hworld].
    fold once in Honce, Hworld.
    unfold reacted at 1.
    destruct (refusesReactions env (attributes (self once))) eqn:Hguard; [reflexivity|].
    destruct (conversations (world once) !! _) as [conversation|] eqn:Hlookup;
      [|reflexivity].
    cbn. rewrite Hworld in Hlookup. rewrite Honce in Hguard, Hlookup |- *.
    unfold reacted in *.
    destruct (refusesReactions env (attributes (self s))) eqn:Hguard';
      [congruence|].
    destruct (conversations (world s) !! conversationId (attributes (self s)))
      as [conversation'|] eqn:Hlookup'; cbn in Hlookup.
    - rewrite Hlookup' in Hlookup. injection Hlookup as <-. cbn.
      rewrite updatedReactions_idempotent; auto.
    - congruence. }
  split; [exact Heq|]. rewrite Heq. reflexivity.
Qed.
End Reactions.

(** ** What a run adds to the trace *)

#[global] Instance appends_preorder P : PreOrder (appends P).
Proof.
  split.
  - intros w. exists []. rewrite app_nil_r. auto.
  - intros w1 w2 w3 (e1 & H1 & F1) (e2 & H2 & F2). exists (e1 ++ e2).
    rewrite H2, H1, app_assoc. split; [reflexivity | apply Forall_app; auto].
Qed.

Section Traces.
Context `{!MessageSelectors, !SendStateOps, !ReactionUtil, !ConversationSelectors,
          !MessageUtil}.
Variable env : Env.
Variable P : Effect → Prop.
Hypothesis HP : ∀ e, isCascade e = false → P e.

Local Abbreviation quiet := (both anything (appends P)).

Lemma ensures_quiet T {A} (m : M A) :
  (∀ s, trace (world (m s).2) = trace (world s) ∧ ∀ o, (m s).1 ≠ Return o) →
  ensures quiet T m.
Proof.
  intros Hm s. destruct (Hm s) as [Htrace Hreturn]. split.
  - split; [exact I|]. exists []. rewrite app_nil_r. split; [exact Htrace | constructor].
  - intros o Ho. destruct (Hreturn o Ho).
Qed.

Lemma emit_trace T e : isCascade e = false → ensures quiet T (emit e).
Proof.
  intros He s. split; [|discriminate]. split; [exact I|].
  exists [e]. split; [reflexivity|]. constructor; auto.
Qed.

Lemma emit_allowed T e : P e → ensures quiet T (emit e).
Proof.
  intros He s. split; [|discriminate]. split; [exact I|].
  exists [e]. split; [reflexivity|]. constructor; auto.
Qed.

Lemma modifyThis_trace T f : ensures quiet T (modifyThis f).
Proof. apply ensures_quiet. intros s. split; [reflexivity | discriminate]. Qed.
Lemma set_trace T f : ensures quiet T (set f).
Proof. apply modifyThis_trace. Qed.
Lemma putConversation_trace T c : ensures quiet T (putConversation c).
Proof. apply ensures_quiet. intros s. split; [reflexivity | discriminate]. Qed.
Lemma writeRow_trace T a : ensures quiet T (writeRow a).
Proof. apply ensures_quiet. intros s. split; [reflexivity | discriminate]. Qed.
Lemma dateNow_trace T : ensures quiet T dateNow.
Proof. apply ensures_quiet. intros s. split; [reflexivity | discriminate]. Qed.
Lemma generateUuid_trace T : ensures quiet T generateUuid.
Proof. apply ensures_quiet. intros s. split; [reflexivity | discriminate]. Qed.
Lemma register_trace T m : ensures quiet T (register m).
Proof.
  apply ensures_quiet. intros s. split; [|discriminate]. cbn. unfold withRegistered.
  destruct (negb _); [reflexivity|]. destruct (find _ _); reflexivity.
Qed.
Lemma publish_trace T m : ensures quiet T (publish m).
Proof. apply ensures_quiet. intros s. split; [reflexivity | discriminate]. Qed.

Hint Resolve modifyThis_trace set_trace putConversation_trace writeRow_trace dateNow_trace
  generateUuid_trace register_trace publish_trace : frame.
Hint Extern 1 (ensures _ _ (emit _)) => apply emit_trace; reflexivity : frame.

Lemma saveMessage_trace T a : ensures quiet T (saveMessage env a).
Proof. unfold saveMessage. frame. Qed.
Hint Resolve saveMessage_trace : frame.

Lemma deleteData_trace T : ensures quiet T (deleteData env).
Proof. unfold deleteData. frame. Qed.
Hint Resolve deleteData_trace : frame.

Lemma eraseContents_trace T f shouldPersist :
  ensures quiet T (eraseContents env f shouldPersist).
Proof. unfold eraseContents. frame. Qed.
Hint Resolve eraseContents_trace : frame.

Lemma markViewOnceMessageViewed_trace T fromSync :
  ensures quiet T (markViewOnceMessageViewed env fromSync).
Proof. unfold markViewOnceMessageViewed. frame. Qed.
Hint Resolve markViewOnceMessageViewed_trace : frame.

Lemma handleDeleteForEveryone_trace T del shouldPersist :
  ensures quiet T (handleDeleteForEveryone env del shouldPersist).
Proof. unfold handleDeleteForEveryone. frame. Qed.
Hint Resolve handleDeleteForEveryone_trace : frame.

Lemma clearNotifications_trace T : ensures quiet T clearNotifications.
Proof. unfold clearNotifications. frame. Qed.
Hint Resolve clearNotifications_trace : frame.

Lemma hydrateStoryContext_trace T inMemoryMessage :
  ensures quiet T (hydrateStoryContext inMemoryMessage).
Proof. unfold hydrateStoryContext. frame. Qed.
Hint Resolve hydrateStoryContext_trace : frame.

Lemma storeStoryReaction_trace T reaction storyMessage :
  ensures quiet T (storeStoryReaction env reaction storyMessage).
Proof. unfold storeStoryReaction. frame. Qed.
Hint Resolve storeStoryReaction_trace : frame.

Lemma handleReaction_trace T reaction storyMessage shouldPersist :
  ensures quiet T (handleReaction env reaction storyMessage shouldPersist).
Proof. unfold handleReaction. frame. Qed.
Hint Resolve handleReaction_trace : frame.

Lemma markFailed_trace T : ensures quiet T markFailed.
Proof. unfold markFailed. frame. Qed.
Hint Resolve markFailed_trace : frame.

Lemma retrySend_trace T : ensures quiet T (retrySend env).
Proof. unfold retrySend. frame. Qed.

Lemma theConversation_trace T cid : ensures quiet T (theConversation cid).
Proof. unfold theConversation. frame. Qed.
Hint Resolve theConversation_trace : frame.

Lemma orNow_trace T v : ensures quiet T (orNow v).
Proof. unfold orNow. frame. Qed.
Hint Resolve orNow_trace : frame.

Lemma applyReadAndViewSyncs_trace T readSyncs viewSyncs :
  ensures quiet T (applyReadAndViewSyncs readSyncs viewSyncs).
Proof. unfold applyReadAndViewSyncs. frame. Qed.
Hint Resolve applyReadAndViewSyncs_trace : frame.

Lemma deleteForEveryone_trace T del shouldPersist :
  ensures quiet T (deleteForEveryone env del shouldPersist).
Proof. unfold deleteForEveryone. frame. Qed.
Hint Resolve deleteForEveryone_trace : frame.

Lemma reconcileReceipts_trace T pending changed :
  ensures quiet T (reconcileReceipts pending changed).
Proof. unfold reconcileReceipts. frame. Qed.
Hint Resolve reconcileReceipts_trace : frame.

Lemma reconcileIncoming_trace T cid isFirstRun pending changed :
  (isFirstRun = false → ∀ i t, P (OnReadMessage i t)) →
  ensures quiet T (reconcileIncoming env cid isFirstRun pending changed).
Proof.
  intros Hsecond. unfold reconcileIncoming.
  destruct isFirstRun; cbn [negb andb]; frame.
  all: apply emit_allowed; auto.
Qed.

Lemma reconcileStory_trace T pending changed :
  ensures quiet T (reconcileStory pending changed).
Proof. unfold reconcileStory. frame. Qed.
Hint Resolve reconcileStory_trace : frame.

Lemma reconcileReaction_trace T changed reaction :
  ensures quiet T (reconcileReaction env changed reaction).
Proof. unfold reconcileReaction. frame. Qed.
Hint Resolve reconcileReaction_trace : frame.

Lemma modifyTargetMessage_trace T cid isFirstRun :
  (isFirstRun = false → ∀ i t, P (OnReadMessage i t)) →
  ensures quiet T (modifyTargetMessage env cid isFirstRun).
Proof.
  intros Hsecond. unfold modifyTargetMessage.
  pose proof (λ pending changed,
    reconcileIncoming_trace T cid isFirstRun pending changed Hsecond) as Hincoming.
  frame.
Qed.

Lemma modifyTargetMessage_first_trace T cid :
  ensures quiet T (modifyTargetMessage env cid true).
Proof. apply modifyTargetMessage_trace. discriminate. Qed.
Hint Resolve modifyTargetMessage_first_trace : frame.

Lemma mergeUnidentifiedStatus_trace T data acc entry :
  ensures quiet T (mergeUnidentifiedStatus env data acc entry).
Proof. unfold mergeUnidentifiedStatus. frame. Qed.
Hint Resolve mergeUnidentifiedStatus_trace : frame.

Lemma mergeTranscript_trace T existingMessage data :
  ensures quiet T (mergeTranscript env existingMessage data).
Proof. unfold mergeTranscript. frame. Qed.
Hint Resolve mergeTranscript_trace : frame.

Lemma processGroupV2_trace T cid initialMessage :
  ensures quiet T (processGroupV2 env cid initialMessage).
Proof. unfold processGroupV2. frame. Qed.
Hint Resolve processGroupV2_trace : frame.

Lemma populateMessage_trace T messageId initialMessage dataMessage storyQuote :
  ensures quiet T (populateMessage messageId initialMessage dataMessage storyQuote).
Proof. unfold populateMessage. frame. Qed.
Hint Resolve populateMessage_trace : frame.

Lemma registerAndReconcile_trace T cid isGroupStoryReply :
  ensures quiet T (registerAndReconcile env cid isGroupStoryReply).
Proof. unfold registerAndReconcile. frame. Qed.
Hint Resolve registerAndReconcile_trace : frame.

Section Returning.
Variable T : Outcome → Prop.

Lemma checkForDuplicates_trace data :
  (∀ o, o ≠ EmptyMessage → T o) → ensures quiet T (checkForDuplicates env data).
Proof. intros HT. unfold checkForDuplicates. frame. Qed.

Lemma beforeBlockedGate_trace initialMessage data :
  (∀ o, o ≠ EmptyMessage → T o) →
  ensures quiet T (beforeBlockedGate env initialMessage data).
Proof.
  intros HT. pose proof (checkForDuplicates_trace data HT).
  unfold beforeBlockedGate. frame.
Qed.

Lemma checkStoryContext_trace conversation sender initialMessage storyQuote :
  (∀ o, o ≠ EmptyMessage → T o) →
  ensures quiet T (checkStoryContext env conversation sender initialMessage storyQuote).
Proof. intros HT. unfold checkStoryContext. frame. Qed.

Lemma afterBlockedGate_trace initialMessage :
  (∀ o, o ≠ EmptyMessage → T o) → ensures quiet T (afterBlockedGate env initialMessage).
Proof.
  intros HT.
  pose proof (λ c s q, checkStoryContext_trace c s initialMessage q HT).
  unfold afterBlockedGate. frame.
Qed.

Lemma processSupported_trace cid initialMessage dataMessage storyQuote reply v2 now :
  T EmptyMessage →
  ensures quiet T
    (processSupported env cid initialMessage dataMessage storyQuote reply v2 now).
Proof. intros HT. unfold processSupported. frame. Qed.

Lemma afterPopulate_trace initialMessage dataMessage storyQuote reply now :
  T EmptyMessage →
  ensures quiet T (afterPopulate env initialMessage dataMessage storyQuote reply now).
Proof.
  intros HT.
  pose proof (λ cid v2,
    processSupported_trace cid initialMessage dataMessage storyQuote reply v2 now HT).
  unfold afterPopulate. frame.
Qed.

Lemma handleDataMessage_trace initialMessage data :
  (∀ o, T o) → ensures quiet T (handleDataMessage env initialMessage data).
Proof.
  intros HT.
  pose proof (beforeBlockedGate_trace initialMessage data (λ o _, HT o)).
  pose proof (afterBlockedGate_trace initialMessage (λ o _, HT o)).
  pose proof (λ d q r n, afterPopulate_trace initialMessage d q r n (HT _)).
  unfold handleDataMessage. frame.
Qed.
End Returning.

(** *** The emptiness gate *)

Lemma handleDataMessage_ingest initialMessage data s :
  handleDataMessage env initialMessage data s
  = ('(dataMessage, storyQuote, isGroupStoryReply, now) ← ingest env initialMessage data;
     afterPopulate env initialMessage dataMessage storyQuote isGroupStoryReply now) s.
Proof.
  unfold handleDataMessage, ingest, tryCatch, mbind, M_bind, mret, M_ret.
  destruct (beforeBlockedGate env initialMessage data s) as [[u|o|e] s1]; [|reflexivity..].
  cbn. set (message := attributes (self s1)).
  cbn in *. destruct (isBlockedSender env message); [reflexivity|]. cbn.
  destruct (afterBlockedGate env initialMessage s1) as [[[[[messageId dataMessage]
    storyQuote] groupReply]|o|e] s4]; [|reflexivity..].
  cbn.
  match goal with
  | |- context [populateMessage ?x1 ?x2 ?x3 ?x4 ?st] =>
      destruct (populateMessage x1 x2 x3 x4 st) as [[u''|o|e] s6]; [|reflexivity..]
  end.
  cbn.
  match goal with
  | |- context [afterPopulate ?x1 ?x2 ?x3 ?x4 ?x5 ?x6 ?st] =>
      destruct (afterPopulate x1 x2 x3 x4 x5 x6 st) as [[u3|o|e] s7]; reflexivity
  end.
Qed.

Lemma ingest_trace initialMessage data :
  ensures quiet (λ o, o ≠ EmptyMessage) (ingest env initialMessage data).
Proof.
  pose proof (beforeBlockedGate_trace (λ o, o ≠ EmptyMessage) initialMessage data
                (λ o Ho, Ho)).
  pose proof (afterBlockedGate_trace (λ o, o ≠ EmptyMessage) initialMessage (λ o Ho, Ho)).
  unfold ingest. frame.
Qed.

Lemma processSupported_gate cid initialMessage dataMessage storyQuote reply v2 now s :
  is_Some (conversations (world s) !! cid) →
  wp (processSupported env cid initialMessage dataMessage storyQuote reply v2 now) s
    (λ r s',
       if isEmpty (attributes (self s))
       then r = Return EmptyMessage ∧ s' = mkSt (self s) (logged Confirm (world s))
       else r ≠ Return EmptyMessage).
Proof.
  intros [conversation Hconversation].
  unfold processSupported. wp_step.
  apply (wp_theConversation _ _ _ _ Hconversation).
  wp_step. wp_step. wp_step.
  destruct (isEmpty (attributes (self s))).
  - wp_run. auto.
  - wp_step.
    eapply wp_mono; [apply (wp_ensures quiet never); frame|].
    cbn beta. intros r s' [_ Hreturn] ->. apply (Hreturn _ eq_refl).
Qed.

Lemma afterPopulate_gate initialMessage dataMessage storyQuote reply now s :
  is_Some (conversations (world s) !! conversationId (attributes (self s))) →
  wp (afterPopulate env initialMessage dataMessage storyQuote reply now) s
    (λ r s',
       if isEmpty (attributes (self s))
       then r = Return EmptyMessage ∧ s' = mkSt (self s) (logged Confirm (world s))
       else r ≠ Return EmptyMessage).
Proof.
  intros Hconversation.
  unfold afterPopulate. wp_step. wp_step.
  destruct (isUnsupportedMessage (attributes (self s))) eqn:Hunsupported; cbn [negb].
  - assert (isEmpty (attributes (self s)) = false) as ->.
    { unfold isEmpty. rewrite Hunsupported. rewrite !orb_true_r. reflexivity. }
    eapply wp_mono; [apply (wp_ensures quiet never); frame|].
    cbn beta. intros r s' [_ Hreturn] ->. apply (Hreturn _ eq_refl).
  - wp_step. wp_step; [discriminate|]. wp_step. wp_step; [|discriminate].
    eapply wp_mono; [apply processSupported_gate; exact Hconversation|].
    cbn beta. intros r s'. destruct (isEmpty (attributes (self s))).
    + intros [-> ->]. auto.
    + intros Hr. destruct r; [|exact Hr|discriminate].
      eapply wp_mono; [apply (wp_ensures quiet never); frame|].
      cbn beta. intros r s'' [_ Hreturn] ->. apply (Hreturn _ eq_refl).
Qed.

(** In the continuation the first effect is the persistence batch; all
    others follow it. *)
Lemma saveAndNotify_trace cid s :
  (∀ i t, P (OnReadMessage i t)) →
  wp (saveAndNotify env cid) s (λ _ s',
    trace (world s') = trace (world s) ∨
    ∃ extra,
      trace (world s')
      = trace (world s) ++ SaveNewMessageBatch (attributes (self s)) :: extra ∧
      Forall P extra).
Proof.
  intros Hall.
  pose proof (modifyTargetMessage_trace (λ _, True) cid false (λ _, Hall)) as Hsecond.
  unfold saveAndNotify. wp_step. wp_step. wp_step. wp_step.
  - wp_step. left. reflexivity.
  - wp_step. wp_step. wp_step.
    eapply wp_mono; [apply (wp_ensures quiet (λ _, True)); frame|].
    cbn beta. intros r s' [[_ (extra & Htrace & Hextra)] _]. cbn [world self] in Htrace.
    assert (trace (world s')
            = trace (world s) ++ SaveNewMessageBatch (attributes (self s)) :: extra)
      as Hfinal by (rewrite Htrace; cbn; rewrite <- app_assoc; reflexivity).
    destruct r; right; exists extra; auto.
Qed.
End Traces.

Section Cascade.
Context `{!MessageSelectors, !SendStateOps, !ReactionUtil, !ConversationSelectors,
          !MessageUtil}.
Variable env : Env.

(** C5.  The cascade that marks older messages read ([onReadMessage]) is
    never started by a first-run reconciliation pass nor anywhere else in
    the queued job of [handleDataMessage]: whatever these add to the trace
    contains no [OnReadMessage].  In [saveAndNotify], which runs the second
    pass, the persistence batch is the first effect, so a cascade can only
    follow it. *)
Theorem cascade_deferred :
  (∀ cid s, ∃ extra,
      added (world s) (world (modifyTargetMessage env cid true s).2) extra ∧
      Forall (λ e, isCascade e = false) extra) ∧
  (∀ initialMessage data s, ∃ extra,
      added (world s) (world (handleDataMessage env initialMessage data s).2) extra ∧
      Forall (λ e, isCascade e = false) extra) ∧
  (∀ cid s, ∃ extra,
      added (world s) (world (saveAndNotify env cid s).2) extra ∧
      ∀ before e after, extra = before ++ e :: after → isCascade e = true →
        ∃ row, SaveNewMessageBatch row ∈ before).
Proof.
  split; [|split].
  - intros cid s.
    destruct (modifyTargetMessage_first_trace env (λ e, isCascade e = false)
                (λ e He, He) (λ _, True) cid s) as [[_ Happ] _].
    exact Happ.
  - intros initialMessage data s.
    destruct (handleDataMessage_trace env (λ e, isCascade e = false) (λ e He, He)
                (λ _, True) initialMessage data (λ _, I) s) as [[_ Happ] _].
    exact Happ.
  - intros cid s.
    destruct (saveAndNotify_trace env (λ _, True) (λ _ _, I) cid s (λ _ _, I))
      as [Hsame|(extra & Htrace & _)].
    + exists []. split; [unfold added; rewrite app_nil_r; exact Hsame|].
      intros before e after Heq. destruct before; discriminate.
    + eexists. split; [exact Htrace|].
      intros before e after Heq Hcascade. destruct before as [|first before].
      * injection Heq as <- _. discriminate.
      * injection Heq as <- _. eexists. left.
  Qed.
End Cascade.

(** ** What a run leaves alone on the receiver *)

#[global] Instance keepsReadState_preorder : PreOrder keepsReadState.
Proof.
  split.
  - intros m. reflexivity.
  - intros m1 m2 m3 H12 H23. unfold keepsReadState in *. congruence.
Qed.

Section ReadState.
Context `{!MessageSelectors, !SendStateOps, !ReactionUtil, !ConversationSelectors,
          !MessageUtil}.
Variable env : Env.

Local Abbreviation kept := (both keepsReadState anything).

Lemma ensures_selfSame Rs `{!PreOrder Rs} T {A} (m : M A) :
  (∀ s, self (m s).2 = self s ∧ ∀ o, (m s).1 ≠ Return o) →
  ensures (both Rs anything) T m.
Proof.
  intros Hm s. destruct (Hm s) as [Hself Hreturn]. split.
  - split; [rewrite Hself; reflexivity | exact I].
  - intros o Ho. destruct (Hreturn o Ho).
Qed.

Lemma modifyWorld_self Rs `{!PreOrder Rs} T f : ensures (both Rs anything) T (modifyWorld f).
Proof. apply ensures_selfSame; try apply _. intros s. split; [reflexivity | discriminate]. Qed.
Lemma emit_self Rs `{!PreOrder Rs} T e : ensures (both Rs anything) T (emit e).
Proof. apply modifyWorld_self; apply _. Qed.
Lemma putConversation_self Rs `{!PreOrder Rs} T c :
  ensures (both Rs anything) T (putConversation c).
Proof. apply modifyWorld_self; apply _. Qed.
Lemma writeRow_self Rs `{!PreOrder Rs} T a : ensures (both Rs anything) T (writeRow a).
Proof. apply modifyWorld_self; apply _. Qed.
Lemma publish_self Rs `{!PreOrder Rs} T m : ensures (both Rs anything) T (publish m).
Proof. apply modifyWorld_self; apply _. Qed.
Lemma dateNow_self Rs `{!PreOrder Rs} T : ensures (both Rs anything) T dateNow.
Proof. apply ensures_selfSame; try apply _. intros s. split; [reflexivity | discriminate]. Qed.
Lemma generateUuid_self Rs `{!PreOrder Rs} T : ensures (both Rs anything) T generateUuid.
Proof. apply ensures_selfSame; try apply _. intros s. split; [reflexivity | discriminate]. Qed.
Lemma register_self Rs `{!PreOrder Rs} T m : ensures (both Rs anything) T (register m).
Proof. apply ensures_selfSame; try apply _. intros s. split; [reflexivity | discriminate]. Qed.

Hint Resolve emit_self putConversation_self writeRow_self publish_self dateNow_self
  generateUuid_self register_self : frame.
Hint Extern 1 (ensures _ _ (set _)) =>
  apply ensures_set; try apply _; intros ?; first [exact I | reflexivity] : frame.
Hint Extern 1 (ensures _ _ (modifyThis _)) =>
  apply ensures_modifyThis; try apply _; intros ?; first [exact I | reflexivity] : frame.

Lemma saveMessage_kept T a : ensures kept T (saveMessage env a).
Proof. unfold saveMessage. frame. Qed.
Hint Resolve saveMessage_kept : frame.

Lemma deleteData_kept T : ensures kept T (deleteData env).
Proof. unfold deleteData. frame. Qed.
Hint Resolve deleteData_kept : frame.

Lemma eraseContents_kept T f shouldPersist :
  (∀ m, keepsReadState m (setAttributes f m)) →
  ensures kept T (eraseContents env f shouldPersist).
Proof.
  intros Hf. unfold eraseContents. frame.
  apply ensures_set; try apply _. intros m.
  pose proof (Hf (setAttributes (erase (λ a, a)) m)) as Hkeeps.
  unfold keepsReadState in *. etrans; [exact Hkeeps | reflexivity].
Qed.

Lemma handleDeleteForEveryone_kept T del shouldPersist :
  ensures kept T (handleDeleteForEveryone env del shouldPersist).
Proof.
  unfold handleDeleteForEveryone.
  pose proof (eraseContents_kept T
    (λ a, set_reactions (Some []) (set_deletedForEveryone (Some true) a)) shouldPersist
    (λ m, eq_refl)).
  frame.
Qed.
Hint Resolve handleDeleteForEveryone_kept : frame.

Lemma deleteForEveryone_kept T del shouldPersist :
  ensures kept T (deleteForEveryone env del shouldPersist).
Proof. unfold deleteForEveryone. frame. Qed.
Hint Resolve deleteForEveryone_kept : frame.

Lemma clearNotifications_kept T : ensures kept T clearNotifications.
Proof. unfold clearNotifications. frame. Qed.
Hint Resolve clearNotifications_kept : frame.

Lemma hydrateStoryContext_kept T inMemoryMessage :
  ensures kept T (hydrateStoryContext inMemoryMessage).
Proof. unfold hydrateStoryContext. frame. Qed.
Hint Resolve hydrateStoryContext_kept : frame.

Lemma storeStoryReaction_kept T reaction storyMessage :
  ensures kept T (storeStoryReaction env reaction storyMessage).
Proof. unfold storeStoryReaction. frame. Qed.
Hint Resolve storeStoryReaction_kept : frame.

Lemma handleReaction_kept T reaction storyMessage shouldPersist :
  ensures kept T (handleReaction env reaction storyMessage shouldPersist).
Proof. unfold handleReaction. frame. Qed.
Hint Resolve handleReaction_kept : frame.

Lemma reconcileReaction_kept T changed reaction :
  ensures kept T (reconcileReaction env changed reaction).
Proof. unfold reconcileReaction. frame. Qed.
Hint Resolve reconcileReaction_kept : frame.

Lemma mathMin_le_first rest a : mathMin a rest ≤ a.
Proof.
  unfold mathMin. revert a. induction rest as [|x rest IH]; intros a; cbn; [lia|].
  specialize (IH (Z.min a x)). lia.
Qed.

Lemma mathMin_le_elem rest a x : x ∈ rest → mathMin a rest ≤ x.
Proof.
  unfold mathMin. revert a. induction rest as [|y rest IH]; intros a Hx; cbn.
  - inversion Hx.
  - apply elem_of_cons in Hx as [->|Hx]; [|auto].
    pose proof (mathMin_le_first rest (Z.min a y)). unfold mathMin in *. lia.
Qed.

Lemma mathMin_elem rest a : mathMin a rest ∈ a :: rest.
Proof.
  unfold mathMin. revert a. induction rest as [|y rest IH]; intros a; cbn.
  - left.
  - specialize (IH (Z.min a y)). apply elem_of_cons in IH as [Heq|Hin].
    + rewrite Heq. destruct (Z.min_spec a y) as [[_ ->]|[_ ->]];
        [left | right; left].
    + right. right. exact Hin.
Qed.

Lemma applyReadAndViewSyncs_spec readSyncs viewSyncs s :
  wp (applyReadAndViewSyncs readSyncs viewSyncs) s (λ r s',
    r = Normal tt ∧ Synced readSyncs viewSyncs s (self s') ∧
    ∃ pending, pendingMarkRead (self s') = Some pending ∧
               pending ≤ computeMarkReadAt (reading (world s)) readSyncs viewSyncs).
Proof.
  unfold applyReadAndViewSyncs, orNow. wp_run.
  all: split; [reflexivity|]; split;
    [ split; cbn; rewrite ?Heqb; try reflexivity
    | eexists; split; [reflexivity | lia] ].
  all: try match goal with Ht : Truthy.num _ = _ |- _ => rewrite Ht end;
    try match goal with He : expirationStartTimestamp _ = _ |- _ => rewrite He end;
    reflexivity.
Qed.

Lemma wp_exact {A} (m : M A) s (Q : Completion A → St → Prop) :
  Q (m s).1 (m s).2 → wp m s Q.
Proof. auto. Qed.

Lemma afterSyncs_synced pending s :
  (applyReadAndViewSyncs (readSyncsOf pending) (viewSyncs pending) s).1 = Normal tt ∧
  Synced (readSyncsOf pending) (viewSyncs pending) s (self (afterSyncs pending s)).
Proof.
  destruct (applyReadAndViewSyncs_spec (readSyncsOf pending) (viewSyncs pending) s)
    as (Hnormal & Hsynced & _).
  split; [exact Hnormal | exact Hsynced].
Qed.

Lemma afterSyncs_pending pending s :
  pendingMarkRead (self (afterSyncs pending s))
  = Some (Z.min (default (reading (clockAtPending s)) (pendingMarkRead (self s)))
            (computeMarkReadAt (reading (world s)) (readSyncsOf pending)
               (viewSyncs pending))).
Proof.
  enough (wp (applyReadAndViewSyncs (readSyncsOf pending) (viewSyncs pending)) s
            (λ _ s',
               pendingMarkRead (self s')
               = Some (Z.min (default (reading (clockAtPending s)) (pendingMarkRead (self s)))
                         (computeMarkReadAt (reading (world s)) (readSyncsOf pending)
                            (viewSyncs pending))))) as Hwp by exact Hwp.
  unfold applyReadAndViewSyncs, orNow, clockAtPending. wp_run.
  all: cbn [self world attributes pendingMarkRead setAttributes set_pendingMarkRead] in *.
  all: repeat match goal with
       | Ht : Truthy.num _ = _ |- _ => rewrite Ht
       | He : expirationStartTimestamp _ = _ |- _ => rewrite He
       | Hp : pendingMarkRead _ = _ |- _ => rewrite Hp
       end.
  all: reflexivity.
Qed.

(** Opening a view-once message leaves the read state alone, apart from
    what [markViewed] does to a message that is not Viewed yet. *)
Lemma markViewOnceMessageViewed_readState fromSync s :
  wp (markViewOnceMessageViewed env fromSync) s (λ _ s',
    let a := attributes (self s) in
    readState (self s')
    = readState (if isValidTapToView a && negb (Truthy.flag (isErased a)) &&
                    negb (bool_decide (readStatus a = Some ReadStatus.Viewed))
                 then setAttributes markViewed (self s) else self s)).
Proof.
  pose proof (λ T, eraseContents_kept T (λ a, a) true (λ m, eq_refl)) as Herase.
  unfold markViewOnceMessageViewed. wp_step. wp_step.
  destruct (isValidTapToView (attributes (self s))); cbn [negb andb];
    [|wp_step; reflexivity].
  destruct (Truthy.flag (isErased (attributes (self s)))); cbn [negb andb];
    [wp_step; reflexivity|].
  wp_step. wp_step.
  - wp_step.
    eapply wp_mono; [apply (wp_ensures kept (λ _, True)); frame|].
    cbn beta. intros r s' [[Hkeep _] _]. cbn [self] in Hkeep.
    match goal with Hb : negb _ = _ |- _ => rewrite Hb end. exact Hkeep.
  - eapply wp_mono; [apply (wp_ensures kept (λ _, True)); frame|].
    cbn beta. intros r s' [[Hkeep _] _].
    match goal with Hb : negb _ = _ |- _ => rewrite Hb end. exact Hkeep.
Qed.

Lemma reconcileIncoming_all cid isFirstRun pending changed s conversation :
  conversations (world s) !! cid = Some conversation →
  negb (isNil (readSyncsOf pending)) || negb (isNil (viewSyncs pending)) = true →
  wp (reconcileIncoming env cid isFirstRun pending changed) s (λ _ s',
    let s1 := afterSyncs pending s in
    readState (self s')
    = readState (mkModel (openedBy pending (attributes (self s1)))
                   (stampLeft isFirstRun (pendingMarkRead (self s1))) None)).
Proof.
  intros Hconversation Hsome.
  destruct (afterSyncs_synced pending s) as [Hnormal _].
  unfold reconcileIncoming. fold (readSyncsOf pending). rewrite Hsome.
  wp_step. apply (wp_theConversation _ _ _ _ Hconversation).
  wp_step. wp_step. wp_step. wp_step.
  apply wp_exact. rewrite Hnormal. fold (afterSyncs pending s).
  set (s1 := afterSyncs pending s).
  wp_step. wp_step. wp_step. unfold stampLeft, openedBy, opensViewOnce.
  wp_step.
  destruct (negb isFirstRun && Truthy.num (pendingMarkRead (self s1))); unfold when.
  - (* the stamp goes to the cascade *)
    wp_step. wp_step. wp_step. wp_step. wp_step. wp_step.
    assert (∀ s2, self s2 = set_pendingMarkRead None (self s1) →
              wp (a ← getAttributes;
                  if isTapToView a && viewOnceOpenSync pending
                  then markViewOnceMessageViewed env true ;; mret true
                  else mret true) s2
                (λ _ s',
                   readState (self s')
                   = readState
                       (mkModel
                          (if isTapToView (attributes (self s1)) &&
                              viewOnceOpenSync pending &&
                              isValidTapToView (attributes (self s1)) &&
                              negb (Truthy.flag (isErased (attributes (self s1)))) &&
                              negb (bool_decide (readStatus (attributes (self s1))
                                                 = Some ReadStatus.Viewed))
                           then markViewed (attributes (self s1))
                           else attributes (self s1)) None None))) as Hrest.
    { intros s2 Hs2. wp_step. wp_step. rewrite Hs2. cbn [attributes set_pendingMarkRead].
      destruct (isTapToView (attributes (self s1)) && viewOnceOpenSync pending);
        cbn [andb].
      - wp_step.
        eapply wp_mono; [apply markViewOnceMessageViewed_readState|].
        cbn beta zeta. intros r s' Hstate. rewrite Hs2 in Hstate.
        cbn [attributes set_pendingMarkRead] in Hstate.
        assert (readState (self s')
                = readState
                    (mkModel
                       (if isValidTapToView (attributes (self s1)) &&
                           negb (Truthy.flag (isErased (attributes (self s1)))) &&
                           negb (bool_decide (readStatus (attributes (self s1))
                                              = Some ReadStatus.Viewed))
                        then markViewed (attributes (self s1))
                        else attributes (self s1)) None None)) as Hdone.
        { rewrite Hstate. destruct (_ && _ && _); reflexivity. }
        destruct r; [wp_step; exact Hdone | exact Hdone..].
      - wp_step. rewrite Hs2. reflexivity. }
    wp_step.
    + wp_step. apply Hrest. reflexivity.
    + apply Hrest. reflexivity.
  - (* the stamp stays *)
    wp_step. wp_step. wp_step.
    destruct (isTapToView (attributes (self s1)) && viewOnceOpenSync pending);
      cbn [andb].
    + wp_step.
      eapply wp_mono; [apply markViewOnceMessageViewed_readState|].
      cbn beta zeta. intros r s' Hstate.
      assert (readState (self s')
              = readState
                  (mkModel
                     (if isValidTapToView (attributes (self s1)) &&
                         negb (Truthy.flag (isErased (attributes (self s1)))) &&
                         negb (bool_decide (readStatus (attributes (self s1))
                                            = Some ReadStatus.Viewed))
                      then markViewed (attributes (self s1))
                      else attributes (self s1))
                     (pendingMarkRead (self s1)) None)) as Hdone.
      { rewrite Hstate. destruct (_ && _ && _); reflexivity. }
      destruct r; [wp_step; exact Hdone | exact Hdone..].
    + wp_step. reflexivity.
Qed.
Lemma reconcileStory_status pending changed s :
  wp (reconcileStory pending changed) s (λ _ s',
    type (attributes (self s')) = type (attributes (self s)) ∧
    readStatus (attributes (self s'))
    = (if isNil (viewSyncs pending) then readStatus (attributes (self s))
       else Some ReadStatus.Viewed) ∧
    seenStatus (attributes (self s'))
    = (if isNil (viewSyncs pending) then seenStatus (attributes (self s))
       else Some SeenStatus.Seen)).
Proof.
  unfold reconcileStory, orNow. destruct (viewSyncs pending); cbn [isNil negb]; wp_run; auto.
Qed.

Lemma openedBy_viewed pending a :
  readStatus a = Some ReadStatus.Viewed → openedBy pending a = a.
Proof.
  intros Hviewed. unfold openedBy.
  rewrite (bool_decide_eq_true_2 _ Hviewed), andb_false_r. reflexivity.
Qed.

Lemma openedBy_closed pending a : opensViewOnce pending a = false → openedBy pending a = a.
Proof. intros Hclosed. unfold openedBy. rewrite Hclosed. reflexivity. Qed.

Lemma openedBy_opened pending a :
  opensViewOnce pending a = true → readStatus a ≠ Some ReadStatus.Viewed →
  openedBy pending a = markViewed a.
Proof.
  intros Hopened Hstatus. unfold openedBy.
  rewrite Hopened, (bool_decide_eq_false_2 _ Hstatus). reflexivity.
Qed.

Lemma modifyTargetMessage_incoming_all cid isFirstRun s conversation :
  let a := attributes (self s) in
  let pending := forMessage env isFirstRun a in
  type a = incoming →
  conversations (world s) !! cid = Some conversation →
  negb (isNil (readSyncsOf pending)) || negb (isNil (viewSyncs pending)) = true →
  wp (modifyTargetMessage env cid isFirstRun) s (λ _ s',
    let s1 := afterSyncs pending s in
    let a2 := openedBy pending (attributes (self s1)) in
    let a' := attributes (self s') in
    readStatus a' = readStatus a2 ∧
    seenStatus a' = seenStatus a2 ∧
    (StoryIsAType → type a2 = incoming →
     expirationStartTimestamp a' = expirationStartTimestamp a2 ∧
     pendingMarkRead (self s') = stampLeft isFirstRun (pendingMarkRead (self s1)))).
Proof.
  intros a pending Htype Hconversation Hsome.
  destruct (afterSyncs_synced pending s) as [_ Hsynced].
  unfold modifyTargetMessage. wp_step. wp_step. fold a. fold pending. rewrite Htype.
  rewrite (bool_decide_eq_false_2 (incoming = outgoing)) by discriminate.
  rewrite (bool_decide_eq_false_2 (incoming = story)) by discriminate.
  rewrite (bool_decide_eq_true_2 (incoming = incoming)) by reflexivity. cbn [orb andb].
  wp_step. wp_step. wp_step.
  eapply wp_mono; [apply (reconcileIncoming_all _ _ _ _ _ _ Hconversation Hsome)|].
  cbn beta zeta. set (s1 := afterSyncs pending s) in *.
  set (a2 := openedBy pending (attributes (self s1))).
  intros r s2 Hstate.
  assert (∀ this,
    readState this = readState (self s2) →
    readStatus (attributes this) = readStatus a2 ∧
    seenStatus (attributes this) = seenStatus a2 ∧
    (StoryIsAType → type a2 = incoming →
     expirationStartTimestamp (attributes this) = expirationStartTimestamp a2 ∧
     pendingMarkRead this = stampLeft isFirstRun (pendingMarkRead (self s1)))) as Hkept.
  { intros this Hthis. rewrite Hstate in Hthis. unfold readState in Hthis.
    cbn [attributes pendingMarkRead] in Hthis.
    injection Hthis as Ht Hc Hr Hs He Hx Hp. auto. }
  destruct r as [changed| |]; try (apply Hkept; reflexivity).
  wp_step. wp_step. wp_step.
  destruct (isStory (attributes (self s2))) eqn:Hstory.
  - eapply wp_mono; [apply reconcileStory_status|].
    cbn beta. intros r s3 (Htype3 & Hread3 & Hseen3).
    assert (type (attributes (self s2)) = type a2 ∧
            readStatus (attributes (self s2)) = readStatus a2 ∧
            seenStatus (attributes (self s2)) = seenStatus a2) as (Htype2 & Hread2 & Hseen2).
    { unfold readState in Hstate. cbn [attributes pendingMarkRead] in Hstate.
      injection Hstate as Ht Hc Hr Hs He Hx Hp. auto. }
    assert (∀ this,
      readState this = readState (self s3) →
      readStatus (attributes this) = readStatus a2 ∧
      seenStatus (attributes this) = seenStatus a2 ∧
      (StoryIsAType → type a2 = incoming →
       expirationStartTimestamp (attributes this) = expirationStartTimestamp a2 ∧
       pendingMarkRead this = stampLeft isFirstRun (pendingMarkRead (self s1)))) as Hkept3.
    { intros this Hthis. unfold readState in Hthis.
      injection Hthis as Ht Hc Hr Hs He Hx Hp.
      rewrite Hr, Hs, Hread3, Hseen3, Hread2, Hseen2.
      destruct (isNil (viewSyncs pending)) eqn:Hviews.
      - split; [reflexivity|]. split; [reflexivity|].
        intros Hlaw Hincoming. apply Hlaw in Hstory. congruence.
      - assert (a2 = attributes (self s1)) as ->.
        { apply openedBy_viewed. destruct Hsynced as [_ _ _ Hviewed _ _].
          rewrite Hviewed. destruct (viewSyncs pending); [discriminate | reflexivity]. }
        destruct Hsynced as [_ _ _ Hviewed Hseen _]. rewrite Hviewed, Hseen.
        split; [destruct (viewSyncs pending); [discriminate | reflexivity]|].
        split; [reflexivity|].
        intros Hlaw Hincoming. apply Hlaw in Hstory. congruence. }
    destruct r as [changed'| |]; try (apply Hkept3; reflexivity).
    eapply wp_mono; [apply (wp_ensures kept (λ _, True)); frame|].
    cbn beta. intros r s4 [[Hkeep _] _]. apply Hkept3. exact Hkeep.
  - wp_step.
    eapply wp_mono; [apply (wp_ensures kept (λ _, True)); frame|].
    cbn beta. intros r s3 [[Hkeep _] _]. apply Hkept. exact Hkeep.
Qed.

Lemma some_sync pending :
  is_Some (readSync pending) ∨ viewSyncs pending ≠ [] →
  negb (isNil (readSyncsOf pending)) || negb (isNil (viewSyncs pending)) = true.
Proof.
  unfold readSyncsOf. intros [[sync ->]|Hview]; [reflexivity|].
  destruct (viewSyncs pending); [congruence|]. apply orb_true_r.
Qed.

(** C3.  In every reconciliation pass over an incoming message for which a
    read sync or a view sync is buffered, the block that applies these
    syncs sets the read status to Viewed when a view sync is present and to
    Read otherwise (read syncs only), and it sets the seen status to Seen.
    With a view sync the message is Viewed and Seen at the end of the pass,
    however the pass completes.  With read syncs only it is Read and Seen
    at the end of the pass, unless a view-once open sync buffered for the
    same pass opens the message: the pass then goes on to apply
    [markViewed] to what the block has left. *)
Theorem modifyTargetMessage_read_status cid isFirstRun s conversation :
  let a := attributes (self s) in
  let pending := forMessage env isFirstRun a in
  type a = incoming →
  conversations (world s) !! cid = Some conversation →
  is_Some (readSync pending) ∨ viewSyncs pending ≠ [] →
  let a1 := attributes (self (afterSyncs pending s)) in
  let a' := attributes (self (modifyTargetMessage env cid isFirstRun s).2) in
  ((viewSyncs pending ≠ [] → readStatus a1 = Some ReadStatus.Viewed) ∧
   (viewSyncs pending = [] → readStatus a1 = Some ReadStatus.Read) ∧
   seenStatus a1 = Some SeenStatus.Seen) ∧
  (viewSyncs pending ≠ [] →
   readStatus a' = Some ReadStatus.Viewed ∧ seenStatus a' = Some SeenStatus.Seen) ∧
  (viewSyncs pending = [] → opensViewOnce pending a1 = false →
   readStatus a' = Some ReadStatus.Read ∧ seenStatus a' = Some SeenStatus.Seen) ∧
  (viewSyncs pending = [] → opensViewOnce pending a1 = true →
   readStatus a' = readStatus (markViewed a1) ∧
   seenStatus a' = seenStatus (markViewed a1)).
Proof.
  intros a pending Htype Hconversation Hsome a1 a'.
  assert (readStatus a' = readStatus (openedBy pending a1) ∧
          seenStatus a' = seenStatus (openedBy pending a1)) as [Hread Hseen].
  { destruct (modifyTargetMessage_incoming_all cid isFirstRun s conversation Htype
                Hconversation (some_sync _ Hsome)) as (Hread & Hseen & _).
    split; [exact Hread | exact Hseen]. }
  assert (readStatus a1
          = Some (match viewSyncs pending with
                  | [] => ReadStatus.Read
                  | _ :: _ => ReadStatus.Viewed
                  end) ∧
          seenStatus a1 = Some SeenStatus.Seen) as [Hread1 Hseen1].
  { destruct (afterSyncs_synced pending s) as [_ [_ _ _ Hread1 Hseen1 _]].
    split; [exact Hread1 | exact Hseen1]. }
  assert (viewSyncs pending ≠ [] → readStatus a1 = Some ReadStatus.Viewed) as Hviewed.
  { intros Hviews. rewrite Hread1. destruct (viewSyncs pending); [congruence | reflexivity]. }
  assert (viewSyncs pending = [] → readStatus a1 = Some ReadStatus.Read) as Honly.
  { intros Hviews. rewrite Hread1, Hviews. reflexivity. }
  split; [split; [exact Hviewed | split; [exact Honly | exact Hseen1]]|].
  split; [|split].
  - intros Hviews. rewrite (openedBy_viewed _ _ (Hviewed Hviews)) in Hread, Hseen.
    rewrite Hread, Hseen. auto.
  - intros Hviews Hclosed. rewrite (openedBy_closed _ _ Hclosed) in Hread, Hseen.
    rewrite Hread, Hseen. auto.
  - intros Hviews Hopened.
    rewrite (openedBy_opened _ _ Hopened) in Hread, Hseen;
      [auto | rewrite (Honly Hviews); discriminate..].
Qed.

(** C4.  In every reconciliation pass over an incoming message with a
    buffered read or view sync, [markReadAt] is the minimum of the clock
    reading and the [readAt] and [viewedAt] stamps of the syncs: it is one
    of them and not above any of them, so not later than now.  The pass
    works with this value: the block that applies the syncs lowers
    [pendingMarkRead] to it, and when the message has an expire timer it
    sets [expirationStartTimestamp] to the minimum of [markReadAt] and the
    existing start, or the clock when there was none; without a timer the
    start is left as it was.  When the story selector holds of stories
    only, the start that the block has left is the one at the end of the
    pass; a first run keeps the stamp in [pendingMarkRead] and a later run
    has cleared a stamp that is not zero for the read cascade.  When a
    view-once open sync opens a message that only read syncs have marked,
    the start at the end is that of [markViewed] applied to what the block
    has left, as long as that is still an incoming message. *)
Theorem modifyTargetMessage_expiration cid isFirstRun s conversation :
  let a := attributes (self s) in
  let pending := forMessage env isFirstRun a in
  type a = incoming →
  conversations (world s) !! cid = Some conversation →
  is_Some (readSync pending) ∨ viewSyncs pending ≠ [] →
  let now := reading (world s) in
  let stamps := map readAt (readSyncsOf pending) ++ map viewedAt (viewSyncs pending) in
  let markReadAt := computeMarkReadAt now (readSyncsOf pending) (viewSyncs pending) in
  let started :=
    Some (Z.min (default (reading (tick (world s))) (expirationStartTimestamp a))
            markReadAt) in
  let s1 := afterSyncs pending s in
  let a1 := attributes (self s1) in
  let s' := (modifyTargetMessage env cid isFirstRun s).2 in
  let a' := attributes (self s') in
  (markReadAt ∈ now :: stamps ∧ ∀ t, t ∈ now :: stamps → markReadAt ≤ t) ∧
  pendingMarkRead (self s1)
  = Some (Z.min (default (reading (clockAtPending s)) (pendingMarkRead (self s)))
            markReadAt) ∧
  expirationStartTimestamp a1
  = (if Truthy.num (expireTimer a) then started else expirationStartTimestamp a) ∧
  (StoryIsAType →
   (opensViewOnce pending a1 = false ∨ viewSyncs pending ≠ [] →
    expirationStartTimestamp a'
    = (if Truthy.num (expireTimer a) then started else expirationStartTimestamp a) ∧
    pendingMarkRead (self s') = stampLeft isFirstRun (pendingMarkRead (self s1))) ∧
   (opensViewOnce pending a1 = true → viewSyncs pending = [] →
    type (markViewed a1) = incoming →
    expirationStartTimestamp a' = expirationStartTimestamp (markViewed a1) ∧
    pendingMarkRead (self s') = stampLeft isFirstRun (pendingMarkRead (self s1)))).
Proof.
  intros a pending Htype Hconversation Hsome now stamps markReadAt started s1 a1 s' a'.
  assert (StoryIsAType → type (openedBy pending a1) = incoming →
          expirationStartTimestamp a' = expirationStartTimestamp (openedBy pending a1) ∧
          pendingMarkRead (self s') = stampLeft isFirstRun (pendingMarkRead (self s1)))
    as Hend.
  { destruct (modifyTargetMessage_incoming_all cid isFirstRun s conversation Htype
                Hconversation (some_sync _ Hsome)) as (_ & _ & Hend).
    exact Hend. }
  assert (type a1 = type a ∧
          readStatus a1
          = Some (match viewSyncs pending with
                  | [] => ReadStatus.Read
                  | _ :: _ => ReadStatus.Viewed
                  end) ∧
          expirationStartTimestamp a1
          = (if Truthy.num (expireTimer a) then started else expirationStartTimestamp a))
    as (Htype1 & Hread1 & Hstart1).
  { destruct (afterSyncs_synced pending s) as [_ [Htype1 _ _ Hread1 _ Hstart1]].
    split; [exact Htype1 | split; [exact Hread1 | exact Hstart1]]. }
  split.
  { split; [apply mathMin_elem|].
    intros t Ht. apply elem_of_cons in Ht as [->|Ht];
      [apply mathMin_le_first | apply mathMin_le_elem; exact Ht]. }
  split; [apply afterSyncs_pending|]. split; [exact Hstart1|].
  intros Hlaw. split.
  - intros Hsame.
    assert (openedBy pending a1 = a1) as Hopened.
    { destruct Hsame as [Hclosed|Hviews]; [apply openedBy_closed; exact Hclosed|].
      apply openedBy_viewed. rewrite Hread1.
      destruct (viewSyncs pending); [congruence | reflexivity]. }
    rewrite Hopened, Hstart1 in Hend. apply Hend; [exact Hlaw|].
    rewrite Htype1. exact Htype.
  - intros Hopened Hviews Hincoming.
    rewrite (openedBy_opened _ _ Hopened) in Hend;
      [apply Hend; assumption | rewrite Hread1, Hviews; discriminate].
Qed.
End ReadState.

(** ** Retrying a send *)

Section Retry.
Context `{!MessageSelectors, !SendStateOps, !ReactionUtil, !ConversationSelectors,
          !MessageUtil}.
Variable env : Env.

Lemma markFailed_self s :
  wp markFailed s (λ _ s',
    sendStates (self s')
    = (λ sendState,
         sendStateReducer sendState
           (mkSendAction SendActionType.Failed (reading (world s))))
      <$> sendStates (self s)).
Proof. unfold markFailed. wp_run; reflexivity. Qed.

Lemma retrySend_self s :
  wp (retrySend env) s (λ _ s',
    match retryRecipients env (world s) (attributes (self s)) with
    | DistributionMissing =>
        sendStates (self s')
        = (λ sendState,
             sendStateReducer sendState
               (mkSendAction SendActionType.Failed (reading (world s))))
          <$> sendStates (self s)
    | ConversationMissing => self s' = self s
    | Recipients currentConversationRecipients =>
        sendStates (self s')
        = retriedSendStates env (world s) currentConversationRecipients
            (sendStates (self s))
    end).
Proof.
  unfold retrySend. wp_step. wp_step. wp_step. wp_step.
  destruct (retryRecipients env (world s) (attributes (self s))).
  - apply markFailed_self.
  - wp_run. reflexivity.
  - unfold saveMessage. wp_run; reflexivity.
Qed.

(** C6.  [retrySend] leaves the send state of every recipient that is
    already Sent, Delivered, Read or Viewed exactly as it was.  Every other
    entry is unchanged too, unless the recipient is Pending or Failed, is
    known to the conversation controller and is a current recipient of the
    conversation (or the local account): then ManuallyRetried is applied to
    it.  When the story's distribution list is gone nothing is retried and
    the message is marked failed instead. *)
Theorem retrySend_spares_sent s cid state :
  IsSentClass →
  FailureSparesSent →
  sendStates (self s) !! cid = Some state →
  let after := sendStates (self (retrySend env s).2) in
  (sentClass (status state) = true → after !! cid = Some state) ∧
  (after !! cid = Some state ∨
   (sentClass (status state) = false ∧
    ∃ current recipient,
      retryRecipients env (world s) (attributes (self s)) = Recipients current ∧
      controllerGet (world s) cid = Some recipient ∧
      (cid ∈ current ∨ isMe recipient = true) ∧
      after !! cid
      = Some (sendStateReducer state
                (mkSendAction SendActionType.ManuallyRetried (nowAt env cid)))) ∨
   (retryRecipients env (world s) (attributes (self s)) = DistributionMissing ∧
    after !! cid
    = Some (sendStateReducer state
              (mkSendAction SendActionType.Failed (reading (world s)))))).
Proof.
  intros Hclass Hfailure Hstate after.
  pose proof (retrySend_self s) as Hself. unfold wp in Hself. subst after.
  destruct (retryRecipients env (world s) (attributes (self s))) as [| |current] eqn:Hwho.
  - rewrite Hself, lookup_fmap, Hstate. cbn. split.
    + intros Hsent. rewrite Hfailure; auto. rewrite Hclass. exact Hsent.
    + right. right. auto.
  - rewrite Hself, Hstate. auto.
  - rewrite Hself. unfold retriedSendStates. rewrite map_lookup_imap, Hstate. cbn.
    rewrite Hclass. destruct (sentClass (status state)) eqn:Hsent; [auto|].
    split; [discriminate|].
    destruct (controllerGet (world s) cid) as [recipient|] eqn:Hrecipient; [|auto].
    destruct (bool_decide (cid ∈ current)) eqn:Hcurrent; cbn.
    + right. left. split; [reflexivity|]. exists current, recipient.
      apply bool_decide_eq_true in Hcurrent. auto.
    + destruct (isMe recipient) eqn:Hme; cbn; [|auto].
      right. left. split; [reflexivity|]. exists current, recipient. auto.
Qed.
End Retry.

(** ** The emptiness gate *)

Section Emptiness.
Context `{!MessageSelectors, !SendStateOps, !ReactionUtil, !ConversationSelectors,
          !MessageUtil}.
Variable env : Env.

Lemma isEmpty_classes a :
  isEmpty a = negb (hasDisplayableContent a || isRecognizedSubtype a).
Proof.
  unfold isEmpty, hasDisplayableContent, isRecognizedSubtype. cbv zeta.
  f_equal. rewrite !orb_assoc. reflexivity.
Qed.

Lemma isExpirationTimerUpdate_recognized a :
  isExpirationTimerUpdate a = true → isRecognizedSubtype a = true.
Proof.
  intros Hflag. unfold isRecognizedSubtype. rewrite Hflag.
  rewrite !orb_true_r. reflexivity.
Qed.

(** A job that ends before the message is populated does not end at the
    emptiness gate. *)
Lemma handleDataMessage_early initialMessage data s o :
  (ingest env initialMessage data s).1 = Return o →
  handleDataMessage env initialMessage data s = (Return o, (ingest env initialMessage data s).2)
  ∧ o ≠ EmptyMessage.
Proof.
  intros Hearly. split.
  - rewrite handleDataMessage_ingest. unfold mbind, M_bind.
    destruct (ingest env initialMessage data s) as [r s1]. cbn in Hearly. subst r.
    reflexivity.
  - destruct (ingest_trace env (λ _, True) (λ _ _, I) initialMessage data s) as [_ Hreturn].
    exact (Hreturn o Hearly).
Qed.

(** C7.  Let the job of [handleDataMessage] reach the end of the population
    step (the initial [message.set] with the resolved quote, attachments and
    previews) with attributes [a], in a conversation that is known.  The
    message is classified empty exactly when it has none of the displayable
    content kinds and is none of the recognized subtypes.  A message that is
    a recognized subtype, in particular an expiration timer update, is not
    empty even without body, attachments, contact and sticker, and the job
    does not end at the emptiness gate.  A message classified empty is
    dropped there: the delivery is confirmed, the job returns, and nothing
    but the confirmation is added to what the population step left. *)
Theorem emptiness_gate initialMessage data s dataMessage storyQuote isGroupStoryReply now s1 :
  ingest env initialMessage data s
    = (Normal (dataMessage, storyQuote, isGroupStoryReply, now), s1) →
  is_Some (conversations (world s1) !! conversationId (attributes (self s1))) →
  let a := attributes (self s1) in
  isEmpty a = negb (hasDisplayableContent a || isRecognizedSubtype a) ∧
  (isRecognizedSubtype a = true →
     isEmpty a = false ∧
     (handleDataMessage env initialMessage data s).1 ≠ Return EmptyMessage) ∧
  (isExpirationTimerUpdate a = true →
     isEmpty a = false ∧
     (handleDataMessage env initialMessage data s).1 ≠ Return EmptyMessage) ∧
  (hasDisplayableContent a = false → isRecognizedSubtype a = false →
     handleDataMessage env initialMessage data s
     = (Return EmptyMessage, mkSt (self s1) (logged Confirm (world s1)))).
Proof.
  intros Hingest Hconversation a.
  pose proof (afterPopulate_gate env (λ _, True) (λ _ _, I) initialMessage dataMessage
                storyQuote isGroupStoryReply now s1 Hconversation) as Hgate.
  unfold wp in Hgate. fold a in Hgate.
  assert (handleDataMessage env initialMessage data s
          = afterPopulate env initialMessage dataMessage storyQuote isGroupStoryReply now s1)
    as Hjob.
  { rewrite handleDataMessage_ingest. unfold mbind, M_bind. rewrite Hingest. reflexivity. }
  assert (isRecognizedSubtype a = true →
          isEmpty a = false ∧
          (handleDataMessage env initialMessage data s).1 ≠ Return EmptyMessage) as Hkept.
  { intros Hsubtype.
    assert (isEmpty a = false) as Hfull.
    { rewrite isEmpty_classes, Hsubtype, orb_true_r. reflexivity. }
    rewrite Hfull in Hgate. rewrite Hjob. auto. }
  split; [apply isEmpty_classes|]. split; [exact Hkept|]. split.
  - intros Hflag. apply Hkept, isExpirationTimerUpdate_recognized, Hflag.
  - intros Hcontent Hsubtype.
    assert (isEmpty a = true) as Hempty.
    { rewrite isEmpty_classes, Hcontent, Hsubtype. reflexivity. }
    rewrite Hempty in Hgate. destruct Hgate as [Hresult Hstate].
    rewrite Hjob.
    destruct (afterPopulate env initialMessage dataMessage storyQuote isGroupStoryReply
                now s1) as [r s2].
    cbn in Hresult, Hstate. subst. reflexivity.
Qed.
End Emptiness.

(** ** Duplicate detection and transcript merging *)

Section Duplicates.
Context `{!MessageSelectors, !SendStateOps, !ReactionUtil, !ConversationSelectors,
          !MessageUtil}.
Variable env : Env.

#[local] Instance extends_preorder : PreOrder extends.
Proof.
  split.
  - intros d. split; auto.
  - intros d1 d2 d3 [Hk1 Hi1] [Hk2 Hi2]. split; auto.
Qed.

#[local] Instance sameStore_preorder : PreOrder sameStore.
Proof.
  split.
  - intros w. repeat split.
  - intros w1 w2 w3 (A1 & B1 & C1 & D1 & E1) (A2 & B2 & C2 & D2 & E2).
    repeat split; congruence.
Qed.

Lemma covers_extends d d' entry : covers env d entry → extends d d' → covers env d' entry.
Proof.
  intros Hcovers [Hkeys Hids] identifier recipient Hid Hstr Hrecipient.
  destruct (Hcovers identifier recipient Hid Hstr Hrecipient) as [Hkey Hsealed].
  split; auto.
Qed.

Lemma setAdd_elem x s : x ∈ setAdd x s.
Proof.
  unfold setAdd. case_bool_decide; [assumption|]. apply elem_of_app. right. left.
Qed.

Lemma setAdd_keeps x y s : y ∈ s → y ∈ setAdd x s.
Proof.
  unfold setAdd. case_bool_decide; [auto|]. intros Hy. apply elem_of_app. left. exact Hy.
Qed.

Lemma newSet_keeps l i : i ∈ l → i ∈ newSet l.
Proof.
  unfold newSet.
  assert (∀ acc, i ∈ acc → i ∈ fold_left (λ s x, setAdd x s) l acc) as Hacc.
  { induction l as [|x l IH]; intros acc Hi; cbn; [exact Hi|].
    apply IH, setAdd_keeps, Hi. }
  revert Hacc. generalize (@nil string).
  induction l as [|x l IH]; intros acc Hacc Hi; [inversion Hi|].
  cbn. apply elem_of_cons in Hi as [->|Hi].
  - clear IH Hacc.
    assert (∀ acc, x ∈ acc → x ∈ fold_left (λ s y, setAdd y s) l acc) as Hkeep.
    { induction l as [|y l IH]; intros acc' Hx; cbn; [exact Hx|].
      apply IH, setAdd_keeps, Hx. }
    apply Hkeep, setAdd_elem.
  - apply IH; [|exact Hi].
    intros acc' Hacc'. clear -Hacc'. revert acc' Hacc'.
    induction l as [|y l IH]; intros acc' Hx; cbn; [exact Hx|].
    apply IH, setAdd_keeps, Hx.
Qed.

Lemma mergeUnidentifiedStatus_spec data d entry s :
  wp (mergeUnidentifiedStatus env data d entry) s (λ r s',
    ∃ d', r = Normal d' ∧ self s' = self s ∧ sameStore (world s) (world s') ∧
          extends d d' ∧ covers env d' entry).
Proof.
  destruct d as [states deliveries].
  unfold mergeUnidentifiedStatus.
  destruct (orElse (destinationUuid entry) (destination entry)) as [identifier|] eqn:Hid.
  2:{ wp_step. eexists. split; [reflexivity|]. split; [reflexivity|].
      split; [reflexivity|]. split; [reflexivity|].
      intros i r Hi. rewrite Hid in Hi. discriminate. }
  destruct (Truthy.str (Some identifier)) eqn:Hstr; cbn [negb].
  2:{ wp_step. eexists. split; [reflexivity|]. split; [reflexivity|].
      split; [reflexivity|]. split; [reflexivity|].
      intros i r Hi Hs. rewrite Hid in Hi. injection Hi as <-. congruence. }
  destruct (maybeMergeContacts env (destinationUuid entry)
              (orElse (destination entry) None)) as [recipient|] eqn:Hrecipient.
  2:{ wp_step. eexists. split; [reflexivity|]. split; [reflexivity|].
      split; [reflexivity|]. split; [reflexivity|].
      intros i r _ _ Hr. rewrite Hrecipient in Hr. discriminate. }
  wp_step.
  assert (∀ updatedAt s', self s' = self s → sameStore (world s) (world s') →
    wp (mret (M := M)
          (<[recipient :=
               match states !! recipient with
               | Some previousSendState =>
                   sendStateReducer previousSendState
                     (mkSendAction SendActionType.Sent updatedAt)
               | None => mkSendState SendStatus.Sent (Some updatedAt) None
               end]> states,
           if unidentified entry then setAdd identifier deliveries else deliveries)) s'
      (λ r s'', ∃ d', r = Normal d' ∧ self s'' = self s ∧ sameStore (world s) (world s'') ∧
                  extends (states, deliveries) d' ∧ covers env d' entry)) as Hfinish.
  { intros updatedAt s' Hself Hstore. wp_step. eexists. split; [reflexivity|].
    split; [exact Hself|]. split; [exact Hstore|]. split.
    - split; cbn.
      + intros k Hk. destruct (decide (recipient = k)) as [->|Hne].
        * rewrite lookup_insert_eq. eauto.
        * rewrite lookup_insert_ne by exact Hne. exact Hk.
      + intros i Hi. destruct (unidentified entry); [apply setAdd_keeps|]; exact Hi.
    - intros i r Hi _ Hr. rewrite Hid in Hi. injection Hi as <-. rewrite Hrecipient in Hr.
      injection Hr as <-. cbn. split.
      + rewrite lookup_insert_eq. eauto.
      + intros ->. apply setAdd_elem. }
  unfold orNow. destruct (dataTimestamp data) as [stamp|].
  - wp_step. apply Hfinish; [reflexivity | repeat split].
  - wp_step. apply Hfinish; [reflexivity | repeat split].
Qed.

Lemma mergeAll_spec data entries d s :
  wp (foldM (mergeUnidentifiedStatus env data) entries d) s (λ r s',
    ∃ d', r = Normal d' ∧ self s' = self s ∧ sameStore (world s) (world s') ∧
          extends d d' ∧ Forall (covers env d') entries).
Proof.
  revert d s. induction entries as [|entry entries IH]; intros d s; cbn [foldM].
  - wp_step. exists d. repeat split; auto.
  - wp_step. eapply wp_mono; [apply mergeUnidentifiedStatus_spec|].
    cbn beta. intros r s1 (d1 & -> & Hself1 & Hstore1 & Hextends1 & Hcovers1).
    eapply wp_mono; [apply IH|].
    cbn beta. intros r s2 (d2 & -> & Hself2 & Hstore2 & Hextends2 & Hcovers2).
    exists d2. split; [reflexivity|]. split; [congruence|].
    split; [etransitivity; eassumption|]. split; [etransitivity; eassumption|].
    constructor; [|exact Hcovers2]. eapply covers_extends; eassumption.
Qed.


Lemma withRegistered_store m w :
  conversations (withRegistered m w) = conversations w ∧
  database (withRegistered m w) = database w ∧
  trace (withRegistered m w) = trace w.
Proof. unfold withRegistered. repeat case_match; auto. Qed.

Lemma mergeTranscript_spec existing data s :
  wp (mergeTranscript env existing data ;; emit Confirm ;; returnWith TranscriptMerged) s
    (λ r s', Merged env data (attributes (registered (newModel existing) (world s))) []
               s r s' TranscriptMerged).
Proof.
  unfold mergeTranscript. wp_step. wp_step. wp_step. wp_step.
  eapply wp_mono; [apply mergeAll_spec|].
  cbn beta. intros r s1 (d & -> & Hself & (Hconv & Hcache & Hdb & Htrace & _) & Hext & Hcov).
  cbn [self world] in *. destruct d as [states deliveries].
  wp_step. wp_step. wp_step. wp_step. wp_step. wp_step.
  unfold saveMessage. cbn [attributes setAttributes].
  destruct (withRegistered_store (newModel existing) (world s)) as (Rconv & Rdb & Rtrace).
  rewrite Rconv in Hconv. rewrite Rdb in Hdb. rewrite Rtrace in Htrace.
  set (base := attributes (registered (newModel existing) (world s))).
  set (merged := set_unidentifiedDeliveries (Some deliveries)
                   (set_sendStateByConversationId (Some states) base)).
  destruct (saveMessageFails env merged) eqn:Hsave.
  - wp_step. exists (states, deliveries). cbn zeta.
    change (withDeliveryMetadata (states, deliveries) base) with merged. rewrite Hsave.
    cbn [self world]. split; [exact Hext|]. split; [exact Hcov|].
    repeat split; assumption || reflexivity.
  - wp_run. exists (states, deliveries). cbn zeta.
    change (withDeliveryMetadata (states, deliveries) base) with merged. rewrite Hsave.
    cbn. rewrite Hdb, Htrace, <- app_assoc. split; [exact Hext|]. split; [exact Hcov|].
    repeat split; assumption || reflexivity.
Qed.


(** A bind whose first part never completes normally ends there. *)
Lemma wp_bind_abrupt {A B} (m : M A) (f : A → M B) s
    (Q : Completion A → St → Prop) (Q' : Completion B → St → Prop) :
  wp m s Q →
  (∀ x s', ¬ Q (Normal x) s') →
  (∀ o s', Q (Return o) s' → Q' (Return o) s') →
  (∀ e s', Q (Throw e) s' → Q' (Throw e) s') →
  wp (m ≫= f) s Q'.
Proof.
  intros Hm Hnormal Hreturn Hthrow. apply wp_bind. eapply wp_mono; [exact Hm|].
  intros [x|o|e] s' HQ; [destruct (Hnormal x s' HQ) | auto | auto].
Qed.


Lemma Merged_abrupt data base trail before after done x :
  ¬ Merged env data base trail before (Normal x) after done.
Proof.
  intros (d & _ & _ & _ & _ & Hresult). cbn zeta in Hresult.
  destruct (saveMessageFails env _); destruct Hresult as [Hr _]; discriminate.
Qed.

Lemma loggedAll_store extra w :
  conversations (loggedAll extra w) = conversations w ∧
  messageCache (loggedAll extra w) = messageCache w ∧
  database (loggedAll extra w) = database w ∧
  trace (loggedAll extra w) = trace w ++ extra.
Proof.
  unfold loggedAll. revert w. induction extra as [|e extra IH]; intros w; cbn.
  - rewrite app_nil_r. auto.
  - destruct (IH (logged e w)) as (Hconv & Hcache & Hdb & Htrace). cbn in *.
    rewrite <- app_assoc in Htrace. auto.
Qed.


End Duplicates.

(** ** The block list *)

Section Blocked.
Context `{!MessageSelectors, !SendStateOps, !ReactionUtil, !ConversationSelectors,
          !MessageUtil}.
Variable env : Env.

Lemma checkForDuplicates_normal data s :
  wp (checkForDuplicates env data) s (λ r s', ∀ u, r = Normal u → s' = s).
Proof.
  unfold checkForDuplicates. wp_step. wp_step. wp_step. wp_step.
  destruct (match findBySender env (world s) _ with Some m => Some m | None => _ end)
    as [existing|].
  - wp_step; [wp_run; intros; discriminate|].
    wp_step; [|wp_run; intros; reflexivity].
    wp_step; [|wp_run; intros; discriminate].
    eapply wp_mono; [apply mergeTranscript_spec|].
    cbn beta. intros r s' Hmerged u ->. destruct (Merged_abrupt _ _ _ _ _ _ _ _ Hmerged).
  - wp_run; intros; discriminate || reflexivity.
Qed.

Lemma processGroupV2_normal cid initialMessage s :
  wp (processGroupV2 env cid initialMessage) s (λ r s',
    ∃ groupEffects,
      GroupsOnly (Truthy.obj (DataMessage.groupV2 initialMessage)) s s' groupEffects).
Proof.
  unfold processGroupV2, theConversation.
  destruct (DataMessage.groupV2 initialMessage) as [groupV2|].
  - wp_run.
    all: eexists; split; cbn;
      [reflexivity | reflexivity | reflexivity
      | first [ reflexivity | rewrite <- !app_assoc; reflexivity | symmetry; apply app_nil_r ]
      | repeat constructor | discriminate ].
  - wp_run. exists []. split; cbn; auto using app_nil_r.
Qed.

(** The start of the job when it reaches the block list. *)
Lemma beforeBlockedGate_normal initialMessage data s :
  wp (beforeBlockedGate env initialMessage data) s (λ r s',
    ∀ u, r = Normal u →
      ∃ groupEffects,
        GroupsOnly (Truthy.obj (DataMessage.groupV2 initialMessage))
          (mkSt (self s) (loggedAll (registration env (attributes (self s))) (world s)))
          s' groupEffects).
Proof.
  unfold beforeBlockedGate, registration.
  wp_step. wp_step. wp_step.
  set (s0 := mkSt (self s)
               (loggedAll match lookupOrCreate env (source (attributes (self s)))
                                  (sourceUuid (attributes (self s))) with
                          | Some fromContact => [SetRegistered fromContact]
                          | None => []
                          end (world s))).
  assert (wp (theConversation (conversationId (attributes (self s))) ;;
              checkForDuplicates env data ;;
              processGroupV2 env (conversationId (attributes (self s))) initialMessage) s0
            (λ r s', ∀ u, r = Normal u →
               ∃ groupEffects,
                 GroupsOnly (Truthy.obj (DataMessage.groupV2 initialMessage)) s0 s'
                   groupEffects)) as Hqueued.
  { wp_step. unfold theConversation. wp_step. wp_step. wp_step; [|wp_step; discriminate].
    wp_step. wp_step.
    eapply wp_mono; [apply checkForDuplicates_normal|].
    cbn beta. intros r s1 Hsame. destruct r as [u|o|e]; [|discriminate..].
    rewrite (Hsame u eq_refl).
    eapply wp_mono; [apply processGroupV2_normal|]. cbn beta. auto. }
  wp_step.
  - wp_step. exact Hqueued.
  - wp_step. destruct s as [this w]. exact Hqueued.
Qed.

Lemma dropped_here {A} o (rest : unit → M A) s :
  ((emit Confirm ;; returnWith o) ≫= rest) s
  = (Return o, mkSt (self s) (logged Confirm (world s))).
Proof. reflexivity. Qed.

(** C10.  Let the sender of the arrival be on the block list, by
    number or by uuid, and let the job reach the block list: the arrival is
    not ended by duplicate detection and the GroupV2 block does not fail.
    Then the job ends there: the delivery is confirmed and the message is
    dropped.  The drop comes after duplicate detection and after the GroupV2
    block, whose migration, repair and group update have been applied to the
    conversation, and before everything else: the receiver, the store and
    the identity index are as they were, and the trace has grown by the
    registration of the sender, the calls into the groups module and the
    confirmation only.  For a payload without a group context nothing but
    the trace has changed. *)
Theorem blocked_sender_dropped initialMessage data s :
  let a := attributes (self s) in
  let queued := beforeBlockedGate env initialMessage data s in
  let job := handleDataMessage env initialMessage data s in
  isBlockedSender env a = true →
  queued.1 = Normal tt →
  job = (Return BlockedSender, mkSt (self s) (logged Confirm (world queued.2))) ∧
  database (world job.2) = database (world s) ∧
  messageCache (world job.2) = messageCache (world s) ∧
  ∃ groupEffects,
    trace (world job.2) = trace (world s) ++ registration env a ++ groupEffects ++ [Confirm] ∧
    Forall (λ e, isGroupEffect e = true) groupEffects ∧
    (DataMessage.groupV2 initialMessage = None →
       groupEffects = [] ∧ conversations (world job.2) = conversations (world s)).
Proof.
  intros a queued job Hblocked Hqueued.
  pose proof (beforeBlockedGate_normal initialMessage data s) as Hframe.
  unfold wp in Hframe. fold queued in Hframe. fold a in Hframe.
  destruct (Hframe tt Hqueued) as [groupEffects Hgroups]. clear Hframe.
  destruct Hgroups as [Hself Hdb Hcache Htrace Heffects Hnone]. cbn [self world] in *.
  destruct (loggedAll_store (registration env a) (world s)) as (Lconv & Lcache & Ldb & Ltrace).
  assert (job = (Return BlockedSender, mkSt (self s) (logged Confirm (world queued.2))))
    as Hjob.
  { subst job. unfold handleDataMessage. unfold mbind at 1, M_bind at 1.
    fold queued. rewrite (surjective_pairing queued), Hqueued.
    unfold mbind at 1, M_bind at 1. cbn [getAttributes fst snd].
    rewrite Hself. fold a. rewrite Hblocked.
    rewrite dropped_here, Hself. reflexivity. }
  rewrite Hjob. cbn [fst snd world logged database messageCache trace conversations].
  split; [reflexivity|]. split; [congruence|]. split; [congruence|].
  exists groupEffects. split; [|split].
  - rewrite Htrace, Ltrace, <- !app_assoc. reflexivity.
  - exact Heffects.
  - intros Hnogroup. destruct Hnone as [-> Hconv]; [rewrite Hnogroup; reflexivity|].
    split; [reflexivity | congruence].
Qed.
End Blocked.

(** * Further properties *)

(** ** Confirmation of a payload *)

Lemma confirmations_app a b : confirmations (a ++ b) = (confirmations a + confirmations b)%nat.
Proof. unfold confirmations. rewrite List.filter_app, length_app. reflexivity. Qed.

Lemma confirmations_silent effects :
  Forall (λ e, isConfirm e = false) effects → confirmations effects = 0%nat.
Proof.
  unfold confirmations. induction 1 as [|e rest He _ IH]; cbn; [reflexivity|].
  rewrite He. exact IH.
Qed.

Section Unconfirmed.
Context `{!MessageSelectors, !SendStateOps, !ReactionUtil, !ConversationSelectors,
          !MessageUtil}.
Variable env : Env.

(** The methods below the queued job never call [confirm]. *)
Local Abbreviation silent := (both anything (appends (λ e, isConfirm e = false))).

Lemma ensures_silent T {A} (m : M A) :
  (∀ s, trace (world (m s).2) = trace (world s) ∧ ∀ o, (m s).1 ≠ Return o) →
  ensures silent T m.
Proof.
  intros Hm s. destruct (Hm s) as [Htrace Hreturn]. split.
  - split; [exact I|]. exists []. rewrite app_nil_r. split; [exact Htrace | constructor].
  - intros o Ho. destruct (Hreturn o Ho).
Qed.

Lemma emit_unconfirmed T e : isConfirm e = false → ensures silent T (emit e).
Proof.
  intros He s. split; [|discriminate]. split; [exact I|].
  exists [e]. split; [reflexivity|]. constructor; auto.
Qed.

Lemma modifyThis_unconfirmed T f : ensures silent T (modifyThis f).
Proof. apply ensures_silent. intros s. split; [reflexivity | discriminate]. Qed.
Lemma set_unconfirmed T f : ensures silent T (set f).
Proof. apply modifyThis_unconfirmed. Qed.
Lemma putConversation_unconfirmed T c : ensures silent T (putConversation c).
Proof. apply ensures_silent. intros s. split; [reflexivity | discriminate]. Qed.
Lemma writeRow_unconfirmed T a : ensures silent T (writeRow a).
Proof. apply ensures_silent. intros s. split; [reflexivity | discriminate]. Qed.
Lemma dateNow_unconfirmed T : ensures silent T dateNow.
Proof. apply ensures_silent. intros s. split; [reflexivity | discriminate]. Qed.
Lemma generateUuid_unconfirmed T : ensures silent T generateUuid.
Proof. apply ensures_silent. intros s. split; [reflexivity | discriminate]. Qed.
Lemma register_unconfirmed T m : ensures silent T (register m).
Proof.
  apply ensures_silent. intros s. split; [|discriminate]. cbn. unfold withRegistered.
  destruct (negb _); [reflexivity|]. destruct (find _ _); reflexivity.
Qed.
Lemma publish_unconfirmed T m : ensures silent T (publish m).
Proof. apply ensures_silent. intros s. split; [reflexivity | discriminate]. Qed.

Hint Resolve modifyThis_unconfirmed set_unconfirmed putConversation_unconfirmed
  writeRow_unconfirmed dateNow_unconfirmed generateUuid_unconfirmed register_unconfirmed
  publish_unconfirmed : frame.
Hint Extern 1 (ensures _ _ (emit _)) => apply emit_unconfirmed; reflexivity : frame.

Lemma saveMessage_unconfirmed T a : ensures silent T (saveMessage env a).
Proof. unfold saveMessage. frame. Qed.
Hint Resolve saveMessage_unconfirmed : frame.

Lemma deleteData_unconfirmed T : ensures silent T (deleteData env).
Proof. unfold deleteData. frame. Qed.
Hint Resolve deleteData_unconfirmed : frame.

Lemma eraseContents_unconfirmed T f shouldPersist :
  ensures silent T (eraseContents env f shouldPersist).
Proof. unfold eraseContents. frame. Qed.
Hint Resolve eraseContents_unconfirmed : frame.

Lemma markViewOnceMessageViewed_unconfirmed T fromSync :
  ensures silent T (markViewOnceMessageViewed env fromSync).
Proof. unfold markViewOnceMessageViewed. frame. Qed.
Hint Resolve markViewOnceMessageViewed_unconfirmed : frame.

Lemma handleDeleteForEveryone_unconfirmed T del shouldPersist :
  ensures silent T (handleDeleteForEveryone env del shouldPersist).
Proof. unfold handleDeleteForEveryone. frame. Qed.
Hint Resolve handleDeleteForEveryone_unconfirmed : frame.

Lemma clearNotifications_unconfirmed T : ensures silent T clearNotifications.
Proof. unfold clearNotifications. frame. Qed.
Hint Resolve clearNotifications_unconfirmed : frame.

Lemma hydrateStoryContext_unconfirmed T inMemoryMessage :
  ensures silent T (hydrateStoryContext inMemoryMessage).
Proof. unfold hydrateStoryContext. frame. Qed.
Hint Resolve hydrateStoryContext_unconfirmed : frame.

Lemma storeStoryReaction_unconfirmed T reaction storyMessage :
  ensures silent T (storeStoryReaction env reaction storyMessage).
Proof. unfold storeStoryReaction. frame. Qed.
Hint Resolve storeStoryReaction_unconfirmed : frame.

Lemma handleReaction_unconfirmed T reaction storyMessage shouldPersist :
  ensures silent T (handleReaction env reaction storyMessage shouldPersist).
Proof. unfold handleReaction. frame. Qed.
Hint Resolve handleReaction_unconfirmed : frame.

Lemma theConversation_unconfirmed T cid : ensures silent T (theConversation cid).
Proof. unfold theConversation. frame. Qed.
Hint Resolve theConversation_unconfirmed : frame.

Lemma orNow_unconfirmed T v : ensures silent T (orNow v).
Proof. unfold orNow. frame. Qed.
Hint Resolve orNow_unconfirmed : frame.

Lemma applyReadAndViewSyncs_unconfirmed T readSyncs viewSyncs :
  ensures silent T (applyReadAndViewSyncs readSyncs viewSyncs).
Proof. unfold applyReadAndViewSyncs. frame. Qed.
Hint Resolve applyReadAndViewSyncs_unconfirmed : frame.

Lemma deleteForEveryone_unconfirmed T del shouldPersist :
  ensures silent T (deleteForEveryone env del shouldPersist).
Proof. unfold deleteForEveryone. frame. Qed.
Hint Resolve deleteForEveryone_unconfirmed : frame.

Lemma reconcileReceipts_unconfirmed T pending changed :
  ensures silent T (reconcileReceipts pending changed).
Proof. unfold reconcileReceipts. frame. Qed.
Hint Resolve reconcileReceipts_unconfirmed : frame.

Lemma reconcileIncoming_unconfirmed T cid isFirstRun pending changed :
  ensures silent T (reconcileIncoming env cid isFirstRun pending changed).
Proof. unfold reconcileIncoming. frame. Qed.
Hint Resolve reconcileIncoming_unconfirmed : frame.

Lemma reconcileStory_unconfirmed T pending changed :
  ensures silent T (reconcileStory pending changed).
Proof. unfold reconcileStory. frame. Qed.
Hint Resolve reconcileStory_unconfirmed : frame.

Lemma reconcileReaction_unconfirmed T changed reaction :
  ensures silent T (reconcileReaction env changed reaction).
Proof. unfold reconcileReaction. frame. Qed.
Hint Resolve reconcileReaction_unconfirmed : frame.

Lemma modifyTargetMessage_unconfirmed T cid isFirstRun :
  ensures silent T (modifyTargetMessage env cid isFirstRun).
Proof. unfold modifyTargetMessage. frame. Qed.
Hint Resolve modifyTargetMessage_unconfirmed : frame.

Lemma mergeUnidentifiedStatus_unconfirmed T data acc entry :
  ensures silent T (mergeUnidentifiedStatus env data acc entry).
Proof. unfold mergeUnidentifiedStatus. frame. Qed.
Hint Resolve mergeUnidentifiedStatus_unconfirmed : frame.

Lemma mergeTranscript_unconfirmed T existingMessage data :
  ensures silent T (mergeTranscript env existingMessage data).
Proof. unfold mergeTranscript. frame. Qed.
Hint Resolve mergeTranscript_unconfirmed : frame.

Lemma processGroupV2_unconfirmed T cid initialMessage :
  ensures silent T (processGroupV2 env cid initialMessage).
Proof. unfold processGroupV2. frame. Qed.
Hint Resolve processGroupV2_unconfirmed : frame.

Lemma populateMessage_unconfirmed T messageId initialMessage dataMessage storyQuote :
  ensures silent T (populateMessage messageId initialMessage dataMessage storyQuote).
Proof. unfold populateMessage. frame. Qed.
Hint Resolve populateMessage_unconfirmed : frame.

Lemma registerAndReconcile_unconfirmed T cid isGroupStoryReply :
  ensures silent T (registerAndReconcile env cid isGroupStoryReply).
Proof. unfold registerAndReconcile. frame. Qed.
Hint Resolve registerAndReconcile_unconfirmed : frame.

(** *** Parts of the job that confirm when they end it *)

Lemma acks_silent {A} (m : M A) : ensures silent never m → acks m.
Proof.
  intros Hm s. destruct (Hm s) as [[_ (added & Htrace & Hsilent)] Hreturn].
  exists added. split; [exact Htrace|].
  destruct (m s).1 as [x|o|e].
  - apply confirmations_silent, Hsilent.
  - destruct (Hreturn o eq_refl).
  - apply confirmations_silent, Hsilent.
Qed.

Lemma acks_ret {A} (x : A) : acks (mret x).
Proof. intros s. exists []. split; [symmetry; apply app_nil_r | reflexivity]. Qed.

Lemma acks_throw {A} e : acks (throw (A := A) e).
Proof. intros s. exists []. split; [symmetry; apply app_nil_r | reflexivity]. Qed.

Lemma acks_deferred {A} : acks (returnWith (A := A) StoryMissingDeferred).
Proof. intros s. exists []. split; [symmetry; apply app_nil_r | reflexivity]. Qed.

Lemma acks_dropped {A} o : isDeferred o = false → acks (emit Confirm ;; returnWith (A := A) o).
Proof.
  intros Ho s. exists [Confirm]. split; [reflexivity|].
  change ((emit Confirm ;; returnWith (A := A) o) s).1 with (Return (A := A) o).
  cbv beta iota. rewrite Ho. exists []. split; reflexivity.
Qed.

Lemma acks_bind {A B} (m : M A) (f : A → M B) :
  acks m → (∀ x, acks (f x)) → acks (m ≫= f).
Proof.
  intros Hm Hf s. unfold mbind, M_bind.
  destruct (Hm s) as (added & Htrace & Hcount).
  destruct (m s) as [[x|o|e] s1]; cbn [fst snd] in *.
  - destruct (Hf x s1) as (added' & Htrace' & Hcount').
    exists (added ++ added'). split; [rewrite Htrace', Htrace, app_assoc; reflexivity|].
    destruct (f x s1).1 as [y|o|e].
    + rewrite confirmations_app, Hcount, Hcount'. reflexivity.
    + destruct (isDeferred o).
      * rewrite confirmations_app, Hcount, Hcount'. reflexivity.
      * destruct Hcount' as (earlier & -> & Hearlier). exists (added ++ earlier).
        split; [apply app_assoc|]. rewrite confirmations_app, Hcount, Hearlier. reflexivity.
    + rewrite confirmations_app, Hcount, Hcount'. reflexivity.
  - exists added. auto.
  - exists added. auto.
Qed.

Lemma acks_tryCatch {A} (body : M A) handler :
  acks body → (∀ e, acks (handler e)) → acks (tryCatch body handler).
Proof.
  intros Hbody Hhandler s. unfold tryCatch.
  destruct (Hbody s) as (added & Htrace & Hcount).
  destruct (body s) as [[x|o|e] s1]; cbn [fst snd] in *.
  - exists added. auto.
  - exists added. auto.
  - destruct (Hhandler e s1) as (added' & Htrace' & Hcount').
    exists (added ++ added'). split; [rewrite Htrace', Htrace, app_assoc; reflexivity|].
    destruct (handler e s1).1 as [y|o|e'].
    + rewrite confirmations_app, Hcount, Hcount'. reflexivity.
    + destruct (isDeferred o).
      * rewrite confirmations_app, Hcount, Hcount'. reflexivity.
      * destruct Hcount' as (earlier & -> & Hearlier). exists (added ++ earlier).
        split; [apply app_assoc|]. rewrite confirmations_app, Hcount, Hearlier. reflexivity.
    + rewrite confirmations_app, Hcount, Hcount'. reflexivity.
Qed.

Lemma acks_when b (m : M unit) : acks m → acks (when b m).
Proof. intros Hm. destruct b; [exact Hm | apply acks_ret]. Qed.

(** Decomposition of a part of the job; what does not confirm is closed by
    the frame lemmas. *)
Ltac acks_step :=
  lazymatch goal with
  | |- acks (emit Confirm ≫= λ _, returnWith _) => apply acks_dropped; reflexivity
  | |- acks (returnWith StoryMissingDeferred) => apply acks_deferred
  | |- acks (mret _) => apply acks_ret
  | |- acks (throw _) => apply acks_throw
  | |- acks (mbind _ _) => apply acks_bind; [|intros ?]
  | |- acks (tryCatch _ _) => apply acks_tryCatch; [|intros ?]
  | |- acks (when _ _) => apply acks_when
  | |- acks (if ?b then _ else _) => destruct b
  | |- acks (match ?x with _ => _ end) => destruct x
  | |- acks _ => first [ solve [auto] | apply acks_silent; solve [frame] ]
  end.

Ltac acks_run := cbv zeta; repeat (acks_step; cbv zeta).

Lemma checkForDuplicates_acks data : acks (checkForDuplicates env data).
Proof. unfold checkForDuplicates. acks_run. Qed.

Lemma beforeBlockedGate_acks initialMessage data :
  acks (beforeBlockedGate env initialMessage data).
Proof.
  pose proof (checkForDuplicates_acks data).
  unfold beforeBlockedGate. acks_run.
Qed.

Lemma checkStoryContext_acks conversation sender initialMessage storyQuote :
  acks (checkStoryContext env conversation sender initialMessage storyQuote).
Proof. unfold checkStoryContext. acks_run. Qed.

Lemma afterBlockedGate_acks initialMessage : acks (afterBlockedGate env initialMessage).
Proof.
  pose proof (λ c s q, checkStoryContext_acks c s initialMessage q).
  unfold afterBlockedGate. acks_run.
Qed.

Lemma processSupported_acks cid initialMessage dataMessage storyQuote reply v2 now :
  acks (processSupported env cid initialMessage dataMessage storyQuote reply v2 now).
Proof. unfold processSupported. acks_run. Qed.

Lemma afterPopulate_acks initialMessage dataMessage storyQuote reply now :
  acks (afterPopulate env initialMessage dataMessage storyQuote reply now).
Proof.
  pose proof (λ cid v2,
    processSupported_acks cid initialMessage dataMessage storyQuote reply v2 now).
  unfold afterPopulate. acks_run.
Qed.

Lemma handleDataMessage_acks initialMessage data :
  acks (handleDataMessage env initialMessage data).
Proof.
  pose proof (beforeBlockedGate_acks initialMessage data).
  pose proof (afterBlockedGate_acks initialMessage).
  pose proof (λ d q r n, afterPopulate_acks initialMessage d q r n).
  unfold handleDataMessage. acks_run.
Qed.

(** *** The continuation confirms when it completes *)

Lemma settles_silent {A B} (m : M A) (f : A → M B) :
  ensures silent never m → (∀ x, settles (f x)) → settles (m ≫= f).
Proof.
  intros Hm Hf s. unfold mbind, M_bind.
  destruct (Hm s) as [[_ (added & Htrace & Hsilent)] Hreturn].
  apply confirmations_silent in Hsilent.
  destruct (m s) as [[x|o|e] s1]; cbn [fst snd] in *.
  - destruct (Hf x s1) as (added' & Htrace' & Hcount').
    exists (added ++ added'). split; [rewrite Htrace', Htrace, app_assoc; reflexivity|].
    destruct (f x s1).1 as [y|o|e].
    + rewrite confirmations_app, Hsilent, Hcount'. reflexivity.
    + destruct (isDeferred o).
      * rewrite confirmations_app, Hsilent, Hcount'. reflexivity.
      * destruct Hcount' as (earlier & -> & Hearlier). exists (added ++ earlier).
        split; [apply app_assoc|]. rewrite confirmations_app, Hsilent, Hearlier. reflexivity.
    + rewrite confirmations_app, Hsilent, Hcount'. reflexivity.
  - destruct (Hreturn o eq_refl).
  - exists added. auto.
Qed.

Lemma settles_acks {A B} (m : M A) (f : A → M B) :
  acks m → (∀ x, settles (f x)) → settles (m ≫= f).
Proof.
  intros Hm Hf s. unfold mbind, M_bind.
  destruct (Hm s) as (added & Htrace & Hcount).
  destruct (m s) as [[x|o|e] s1]; cbn [fst snd] in *.
  - destruct (Hf x s1) as (added' & Htrace' & Hcount').
    exists (added ++ added'). split; [rewrite Htrace', Htrace, app_assoc; reflexivity|].
    destruct (f x s1).1 as [y|o|e].
    + rewrite confirmations_app, Hcount, Hcount'. reflexivity.
    + destruct (isDeferred o).
      * rewrite confirmations_app, Hcount, Hcount'. reflexivity.
      * destruct Hcount' as (earlier & -> & Hearlier). exists (added ++ earlier).
        split; [apply app_assoc|]. rewrite confirmations_app, Hcount, Hearlier. reflexivity.
    + rewrite confirmations_app, Hcount, Hcount'. reflexivity.
  - exists added. auto.
  - exists added. auto.
Qed.

Lemma settles_throw {A} e : settles (throw (A := A) e).
Proof. intros s. exists []. split; [symmetry; apply app_nil_r | reflexivity]. Qed.

Lemma settles_confirm b e :
  isConfirm e = false → settles (emit Confirm ;; when b (emit e)).
Proof.
  intros He s. destruct b.
  - exists [Confirm; e].
    split; [unfold when, mbind, M_bind; cbn; rewrite <- app_assoc; reflexivity|].
    unfold when, mbind, M_bind, confirmations. cbn. rewrite He. reflexivity.
  - exists [Confirm]. split; reflexivity.
Qed.

Lemma saveAndNotify_settles cid : settles (saveAndNotify env cid).
Proof.
  unfold saveAndNotify.
  repeat (apply settles_silent; [solve [frame] | intros ?]).
  match goal with |- settles (match ?c with _ => _ end) => destruct c end;
    [|apply settles_throw].
  repeat (apply settles_silent; [solve [frame] | intros ?]).
  apply settles_confirm. reflexivity.
Qed.

Lemma processPayload_settles initialMessage data :
  settles (processPayload env initialMessage data).
Proof.
  unfold processPayload.
  apply settles_silent; [solve [frame] | intros a].
  apply settles_acks; [apply handleDataMessage_acks | intros _].
  apply saveAndNotify_settles.
Qed.

(** X1.  Every payload is confirmed at most once.  [confirm] is called exactly
    once when the payload is processed to the end, and exactly once, as the
    last thing the job does, when the payload is dropped; it is not called
    when processing fails, nor when a reply to a story that is not there yet
    is put off in a direct conversation. *)
Theorem payload_confirmed_once initialMessage data s :
  let run := processPayload env initialMessage data s in
  ∃ added,
    trace (world run.2) = trace (world s) ++ added ∧
    confirmations added
    = match run.1 with
      | Normal _ => 1%nat
      | Return o => if isDeferred o then 0%nat else 1%nat
      | Throw _ => 0%nat
      end ∧
    (∀ o, run.1 = Return o → isDeferred o = false → last added = Some Confirm).
Proof.
  intros run. destruct (processPayload_settles initialMessage data s)
    as (added & Htrace & Hcount).
  fold run in Htrace, Hcount. exists added. split; [exact Htrace|].
  destruct run.1 as [x|o|e].
  - split; [exact Hcount | discriminate].
  - destruct (isDeferred o) eqn:Ho.
    + split; [exact Hcount|]. intros o' Heq. injection Heq as <-. congruence.
    + destruct Hcount as (earlier & -> & Hearlier). split.
      * rewrite confirmations_app, Hearlier. reflexivity.
      * intros _ _ _. apply last_snoc.
  - split; [exact Hcount | discriminate].
Qed.
End Unconfirmed.

(** ** The order of messages in a collection *)

Lemma orZero_id x : orZero x = x.
Proof. unfold orZero. destruct (Z.eqb_spec x 0); congruence. Qed.

(** X20.  The comparator of the message collection is a consistent order: it
    compares the pairs (received_at, sent_at) lexicographically, so it is
    zero on a message and itself, antisymmetric and transitive, and two
    messages compare equal exactly when both stamps agree. *)
Theorem comparator_lexicographic left right third :
  comparator left left = 0 ∧
  comparator right left = - comparator left right ∧
  (comparator left right < 0 ↔
     received_at left < received_at right ∨
     (received_at left = received_at right ∧ sent_at left < sent_at right)) ∧
  (comparator left right = 0 ↔
     received_at left = received_at right ∧ sent_at left = sent_at right) ∧
  (comparator left right ≤ 0 → comparator right third ≤ 0 → comparator left third ≤ 0).
Proof.
  unfold comparator. rewrite !orZero_id.
  destruct (Z.eqb_spec (received_at left) (received_at left)) as [_|Hne]; [|congruence].
  destruct (Z.eqb_spec (received_at left) (received_at right)),
           (Z.eqb_spec (received_at right) (received_at left)),
           (Z.eqb_spec (received_at right) (received_at third)),
           (Z.eqb_spec (received_at left) (received_at third)).
  all: repeat split; intros; lia.
Qed.

(** ** Send states: receipts, retries and failures *)

Section SendStates.
Context `{!MessageSelectors, !SendStateOps, !ReactionUtil, !ConversationSelectors,
          !MessageUtil, !SendStateQueries}.
Variable env : Env.

Lemma applySendActions_dom actions states :
  dom (applySendActions actions states) = dom states.
Proof.
  unfold applySendActions. revert states.
  induction actions as [|[k action] actions IH]; intros states; cbn; [reflexivity|].
  rewrite IH. destruct (states !! k) as [old|] eqn:Hk; [|reflexivity].
  rewrite dom_insert_L. apply elem_of_dom_2 in Hk.
  apply set_eq. intros x. rewrite elem_of_union, elem_of_singleton.
  split; [intros [->|]; assumption | auto].
Qed.

Lemma applySendActions_other actions states k :
  k ∉ map fst actions → applySendActions actions states !! k = states !! k.
Proof.
  unfold applySendActions. revert states.
  induction actions as [|[k' action] actions IH]; intros states Hk; cbn; [reflexivity|].
  cbn in Hk. apply not_elem_of_cons in Hk as [Hne Hk].
  rewrite IH by exact Hk. destruct (states !! k'); [|reflexivity].
  apply lookup_insert_ne. congruence.
Qed.

(** X11.  Receipts never add or remove a recipient.  In the block of
    [modifyTargetMessage] that folds delivery, read and view receipts into
    a message we sent, the recipients with a send state stay the same; a
    receipt from a conversation without a send state is ignored; the state
    of a recipient from whom no receipt is buffered is untouched; nothing
    but the send states changes, and without receipts nothing changes. *)
Theorem reconcileReceipts_recipients pending changed s :
  let run := reconcileReceipts pending changed s in
  (∃ flag, run.1 = Normal flag ∧ (receipts pending = [] → flag = changed)) ∧
  world run.2 = world s ∧
  set_sendStateByConversationId None (attributes (self run.2))
  = set_sendStateByConversationId None (attributes (self s)) ∧
  dom (sendStates (self run.2)) = dom (sendStates (self s)) ∧
  (∀ k, k ∉ map MessageReceipt.sourceConversationId (receipts pending) →
     sendStates (self run.2) !! k = sendStates (self s) !! k).
Proof.
  set (old := default ∅ (sendStateByConversationId (attributes (self s)))).
  set (new := applySendActions (map sendActionOf (receipts pending)) old).
  intros run.
  assert (run = if bool_decide (old = new) then (Normal changed, s)
                else (Normal true,
                      mkSt (setAttributes (set_sendStateByConversationId (Some new))
                              (self s)) (world s))) as ->.
  { subst run. unfold reconcileReceipts, mbind, M_bind. cbn. fold old. fold new.
    destruct (bool_decide (old = new)); reflexivity. }
  assert (dom new = dom old) as Hdom by apply applySendActions_dom.
  assert (∀ k, k ∉ map MessageReceipt.sourceConversationId (receipts pending) →
               new !! k = old !! k) as Hother.
  { intros k Hk. apply applySendActions_other. rewrite map_map. exact Hk. }
  unfold sendStates. fold old.
  case_bool_decide as Hsame; cbn.
  - split; [eauto|]. fold old. rewrite <- Hsame in Hother. auto.
  - split; [|auto]. eexists. split; [reflexivity|]. intros Hnone.
    exfalso. apply Hsame. subst new. rewrite Hnone. reflexivity.
Qed.

(** *** Retries keep what was delivered *)

Lemma delivery_kept (old new : gmap string SendState) a a' :
  SomeIsExists →
  default ∅ (sendStateByConversationId a) = old →
  default ∅ (sendStateByConversationId a') = new →
  dom new = dom old →
  (∀ k state, old !! k = Some state → isSent (status state) = true →
              new !! k = Some state) →
  hasSuccessfulDelivery env a = true → hasSuccessfulDelivery env a' = true.
Proof.
  intros Hsome Hold Hnew Hdom Hkept. unfold hasSuccessfulDelivery. cbv zeta.
  rewrite Hold, Hnew. intros Hbefore. apply orb_true_iff in Hbefore as [Hempty|Hsent].
  - apply orb_true_iff. left. apply bool_decide_eq_true in Hempty.
    apply bool_decide_eq_true. apply dom_empty_inv_L.
    rewrite dom_delete_L, Hdom, <- dom_delete_L, Hempty. apply dom_empty_L.
  - apply orb_true_iff. right. apply Hsome in Hsent as (k & state & Hk & Hstatus).
    apply Hsome. exists k, state. split; [|exact Hstatus].
    apply lookup_delete_Some in Hk as [Hne Hk]. apply lookup_delete_Some.
    split; [exact Hne|]. apply Hkept; assumption.
Qed.

(** X12.  A retry never takes a successful delivery away.  If the message had
    been delivered to somebody other than ourselves (or had no other
    recipient) before [retrySend], this is still so after it, whichever
    path the retry takes: a retry of the unsent recipients, or, when the
    distribution list of the story is gone, marking the message failed. *)
Theorem retrySend_keeps_delivery s :
  SomeIsExists →
  FailureSparesSent →
  hasSuccessfulDelivery env (attributes (self s)) = true →
  hasSuccessfulDelivery env (attributes (self (retrySend env s).2)) = true.
Proof.
  intros Hsome Hfailure.
  pose proof (retrySend_self env s) as Hself. unfold wp in Hself.
  destruct (retryRecipients env (world s) (attributes (self s))) as [| |current].
  - apply (delivery_kept _ _ _ _ Hsome eq_refl Hself).
    + apply dom_fmap_L.
    + intros k state Hk Hsent. unfold sendStates. rewrite lookup_fmap.
      unfold sendStates in Hk. rewrite Hk. cbn. f_equal. apply Hfailure; auto.
  - rewrite Hself. auto.
  - apply (delivery_kept _ _ _ _ Hsome eq_refl Hself).
    + unfold retriedSendStates. apply set_eq. intros k.
      rewrite !elem_of_dom, map_lookup_imap. unfold sendStates.
      destruct (default ∅ (sendStateByConversationId (attributes (self s))) !! k);
        cbn; split; intros [? ?]; eauto; discriminate.
    + intros k state Hk Hsent. unfold retriedSendStates. rewrite map_lookup_imap.
      unfold sendStates in *. rewrite Hk. cbn. rewrite Hsent. reflexivity.
Qed.
End SendStates.

(** ** Opening a view-once message *)

Section ViewOnce.
Context `{!MessageSelectors, !SendStateOps, !ReactionUtil, !ConversationSelectors,
          !MessageUtil}.
Variable env : Env.

Lemma markViewOnceMessageViewed_skip fromSync s :
  isValidTapToView (attributes (self s)) = false ∨
  Truthy.flag (isErased (attributes (self s))) = true →
  markViewOnceMessageViewed env fromSync s = (Normal tt, s).
Proof.
  intros Hskip. unfold markViewOnceMessageViewed, mbind, M_bind, getAttributes.
  cbv beta iota. destruct Hskip as [Hvalid|Herased].
  - rewrite Hvalid. reflexivity.
  - rewrite Herased. destruct (isValidTapToView _); reflexivity.
Qed.

Lemma markViewOnceMessageViewed_self fromSync s :
  isValidTapToView (attributes (self s)) = true →
  Truthy.flag (isErased (attributes (self s))) = false →
  wp (markViewOnceMessageViewed env fromSync) s (λ _ s',
    ∃ f, self s' = setAttributes (λ a, erase (λ a, a) (f a)) (self s)).
Proof.
  intros Hvalid Herased. unfold markViewOnceMessageViewed.
  wp_step. wp_step. rewrite Hvalid, Herased. cbv beta iota.
  cbn [negb]. wp_step.
  assert (∀ s1, (∃ f, self s1 = setAttributes f (self s)) →
            wp (eraseContents env (λ a, a) true ;;
                if fromSync then mret tt
                else a ← getAttributes;
                     match getSourceUuid a with
                     | None => throw "markViewOnceMessageViewed: senderUuid is undefined"
                     | Some _ =>
                         if areWePrimaryDevice env then mret tt
                         else emit (EnqueueJob "viewOnceOpen" (id a))
                     end) s1
              (λ _ s', ∃ f, self s' = setAttributes (λ a, erase (λ a, a) (f a)) (self s)))
    as Hrest.
  { intros s1 [f Hs1]. wp_step.
    eapply wp_mono; [apply eraseContents_self|].
    intros r s2 Hs2. cbn beta in Hs2.
    assert (∃ g, self s2 = setAttributes (λ a, erase (λ a, a) (g a)) (self s)) as Hdone.
    { exists f. rewrite Hs2, Hs1. reflexivity. }
    destruct r; [|exact Hdone|exact Hdone].
    destruct fromSync; wp_run; exact Hdone. }
  wp_step.
  - wp_step. apply Hrest. exists markViewed. reflexivity.
  - apply Hrest. exists (λ a, a). destruct (self s); reflexivity.
Qed.

(** X13.  A view-once message opens once.  When [markViewOnceMessageViewed] runs
    on a valid view-once message that is not erased yet, the message is
    erased however the run completes: [isErased] is set, body and
    attachments are empty, there is no quote or sticker.  The message is no
    valid view-once message any more, and every later call, in whatever
    state of the stores, returns at once and changes nothing. *)
Theorem markViewOnceMessageViewed_once fromSync s :
  isValidTapToView (attributes (self s)) = true →
  Truthy.flag (isErased (attributes (self s))) = false →
  let s' := (markViewOnceMessageViewed env fromSync s).2 in
  let a' := attributes (self s') in
  isErased a' = Some true ∧ body a' = Some "" ∧ attachments a' = Some [] ∧
  contact a' = Some [] ∧ preview a' = Some [] ∧ quote a' = None ∧ sticker a' = None ∧
  isValidTapToView a' = false ∧
  ∀ fromSync' w,
    markViewOnceMessageViewed env fromSync' (mkSt (self s') w)
    = (Normal tt, mkSt (self s') w).
Proof.
  intros Hvalid Herased s' a'.
  destruct (markViewOnceMessageViewed_self fromSync s Hvalid Herased) as [f Hself].
  fold s' in Hself. subst a'. rewrite Hself.
  do 8 (split; [reflexivity|]).
  intros fromSync' w. apply markViewOnceMessageViewed_skip. left. reflexivity.
Qed.

(** Erasing queues no job and does not end the caller's job. *)
Local Abbreviation jobless := (both anything (appends (λ e, isJob e = false))).

Lemma emit_jobless T e : isJob e = false → ensures jobless T (emit e).
Proof.
  intros He s. split; [|discriminate]. split; [exact I|].
  exists [e]. split; [reflexivity|]. constructor; auto.
Qed.

Lemma modifyThis_jobless T f : ensures jobless T (modifyThis f).
Proof.
  intros s. split; [|discriminate]. split; [exact I|].
  exists []. rewrite app_nil_r. split; [reflexivity | constructor].
Qed.

Lemma writeRow_jobless T a : ensures jobless T (writeRow a).
Proof.
  intros s. split; [|discriminate]. split; [exact I|].
  exists []. rewrite app_nil_r. split; [reflexivity | constructor].
Qed.

Hint Resolve modifyThis_jobless writeRow_jobless : frame.
Hint Extern 1 (ensures _ _ (set _)) => apply modifyThis_jobless : frame.
Hint Extern 1 (ensures _ _ (emit _)) => apply emit_jobless; reflexivity : frame.

Lemma eraseContents_jobless f shouldPersist :
  ensures jobless never (eraseContents env f shouldPersist).
Proof. unfold eraseContents, deleteData, saveMessage. frame. Qed.

Lemma jobs_none effects : Forall (λ e, isJob e = false) effects → jobs effects = 0%nat.
Proof.
  unfold jobs. induction 1 as [|e rest He _ IH]; cbn; [reflexivity|].
  rewrite He. exact IH.
Qed.

Lemma jobs_app a b : jobs (a ++ b) = (jobs a + jobs b)%nat.
Proof. unfold jobs. rewrite List.filter_app, length_app. reflexivity. Qed.

(** X14.  The view-once-open sync job is queued exactly when a valid, unerased
    view-once message is opened on this device (not through a sync from
    another one), this device is not the primary device, and the run
    completes; then it is the last thing the run does.  A run that fails
    (the erased message could not be saved, or the sender has no UUID)
    queues nothing, and no run queues the job twice. *)
Theorem view_once_sync_job fromSync s :
  let a := attributes (self s) in
  let run := markViewOnceMessageViewed env fromSync s in
  ∃ added,
    trace (world run.2) = trace (world s) ++ added ∧
    jobs added =
      (if isNormal run.1 && isValidTapToView a && negb (Truthy.flag (isErased a)) &&
          negb fromSync && negb (areWePrimaryDevice env)
       then 1 else 0)%nat ∧
    (jobs added = 1%nat →
     last added = Some (EnqueueJob "viewOnceOpen" (id (attributes (self run.2))))).
Proof.
  intros a run.
  destruct (isValidTapToView a && negb (Truthy.flag (isErased a))) eqn:Hgo.
  2:{ assert (run = (Normal tt, s)) as Hrun.
      { apply markViewOnceMessageViewed_skip. apply andb_false_iff in Hgo as [Hgo|Hgo];
          [left; exact Hgo | right; apply negb_false_iff, Hgo]. }
      rewrite Hrun. exists []. rewrite app_nil_r. cbn [fst snd isNormal andb].
      rewrite <- andb_assoc, Hgo. split; [reflexivity|]. split; [reflexivity|].
      discriminate. }
  apply andb_true_iff in Hgo as [Hvalid Herased]. apply negb_true_iff in Herased.
  rewrite Hvalid, Herased. cbn [negb andb]. rewrite andb_true_r.
  (* the state in which the contents are erased *)
  pose (s1 := if negb (bool_decide (readStatus a = Some ReadStatus.Viewed))
              then mkSt (setAttributes markViewed (self s)) (world s) else s).
  assert (world s1 = world s) as Hworld.
  { subst s1. destruct (negb _); reflexivity. }
  pose (rest := (if fromSync then mret tt
                 else a ← getAttributes;
                      match getSourceUuid a with
                      | None => throw "markViewOnceMessageViewed: senderUuid is undefined"
                      | Some _ =>
                          if areWePrimaryDevice env then mret tt
                          else emit (EnqueueJob "viewOnceOpen" (id a))
                      end) : M unit).
  assert (run = (eraseContents env (λ a, a) true ;; rest) s1) as Hrun.
  { subst run rest s1. unfold markViewOnceMessageViewed.
    unfold mbind at 1. unfold M_bind at 1. unfold getAttributes at 1. cbv beta iota.
    fold a. rewrite Hvalid, Herased. cbv beta iota. cbn [negb].
    unfold mbind at 1. unfold M_bind at 1.
    destruct (negb (bool_decide (readStatus a = Some ReadStatus.Viewed))); reflexivity. }
  rewrite Hrun. clear Hrun run.
  destruct (eraseContents_jobless (λ a, a) true s1) as [[_ (erasing & Htrace & Hquiet)] Hnever].
  pose proof (eraseContents_self env (λ a, a) true s1) as Hself. unfold wp in Hself.
  unfold mbind, M_bind.
  destruct (eraseContents env (λ a, a) true s1) as [[[]|o|e] s2]; cbn [fst snd] in *.
  2:{ destruct (Hnever o eq_refl). }
  2:{ exists erasing. rewrite <- Hworld. split; [exact Htrace|].
      rewrite (jobs_none _ Hquiet). cbn. split; [reflexivity | discriminate]. }
  subst rest. destruct fromSync.
  { exists erasing. rewrite <- Hworld. split; [exact Htrace|].
    rewrite (jobs_none _ Hquiet). cbn. split; [reflexivity | discriminate]. }
  unfold mbind, M_bind, getAttributes. cbv beta iota.
  destruct (getSourceUuid (attributes (self s2))).
  2:{ exists erasing. rewrite <- Hworld. split; [exact Htrace|].
      rewrite (jobs_none _ Hquiet). cbn. split; [reflexivity | discriminate]. }
  destruct (areWePrimaryDevice env).
  { exists erasing. rewrite <- Hworld. split; [exact Htrace|].
    rewrite (jobs_none _ Hquiet). cbn. split; [reflexivity | discriminate]. }
  exists (erasing ++ [EnqueueJob "viewOnceOpen" (id (attributes (self s2)))]).
  rewrite <- Hworld. cbn. rewrite Htrace, app_assoc. split; [reflexivity|].
  rewrite jobs_app, (jobs_none _ Hquiet). split; [reflexivity|].
  intros _. apply last_snoc.
Qed.
End ViewOnce.

(** ** The story context of a reply *)

Section StoryContext.
Context `{!MessageSelectors, !SendStateOps, !ReactionUtil, !ConversationSelectors,
          !MessageUtil}.

Lemma hydrateStoryContext_skip inMemoryMessage s :
  Truthy.str (storyId (attributes (self s))) = false ∨
  contextSettled (attributes (self s)) = true →
  hydrateStoryContext inMemoryMessage s = (Normal tt, s).
Proof.
  intros Hskip. unfold hydrateStoryContext, mbind, M_bind, getAttributes.
  cbv beta iota zeta. destruct (storyId (attributes (self s))) as [i|]; [|reflexivity].
  destruct Hskip as [Hnone|Hsettled].
  - rewrite Hnone. reflexivity.
  - unfold contextSettled, mbind in Hsettled. rewrite Hsettled.
    destruct (negb _); reflexivity.
Qed.

Lemma hydrateStoryContext_run inMemoryMessage s i :
  storyId (attributes (self s)) = Some i →
  Truthy.str (Some i) = true →
  contextSettled (attributes (self s)) = false →
  ∃ context,
    hydrateStoryContext inMemoryMessage s
    = (Normal tt,
       mkSt (setAttributes (set_storyReplyContext (Some context)) (self s)) (world s)) ∧
    context =
      match resolvedStory (world s) inMemoryMessage i with
      | None =>
          mkStoryReplyContext None
            (conversations (world s) !! conversationId (attributes (self s))
               ≫= Conversation.uuid) ""
      | Some message => storyContextOf message
      end.
Proof.
  intros Hstory Htruthy Hopen.
  unfold hydrateStoryContext, mbind, M_bind, getAttributes. cbv beta iota zeta.
  rewrite Hstory, Htruthy. cbn [negb]. unfold contextSettled, mbind in Hopen. rewrite Hopen.
  unfold getWorld. cbv beta iota. fold (resolvedStory (world s) inMemoryMessage i).
  destruct (resolvedStory (world s) inMemoryMessage i) as [message|].
  - eexists. split; reflexivity.
  - eexists. split; reflexivity.
Qed.

(** X17.  [hydrateStoryContext] fills in one field.  It always completes, it
    leaves the stores and the trace alone, it changes nothing of the
    message but [storyReplyContext], and it is idempotent: a second call
    with the same argument, right after the first, changes nothing. *)
Theorem hydrateStoryContext_idempotent inMemoryMessage s :
  let run := hydrateStoryContext inMemoryMessage s in
  run.1 = Normal tt ∧
  world run.2 = world s ∧
  (∃ context,
     self run.2 = setAttributes (set_storyReplyContext context) (self s) ∧
     (context = storyReplyContext (attributes (self s)) ∨
      Truthy.str (storyId (attributes (self s))) = true)) ∧
  hydrateStoryContext inMemoryMessage run.2 = (Normal tt, run.2).
Proof.
  intros run.
  destruct (Truthy.str (storyId (attributes (self s)))) eqn:Htruthy.
  2:{ subst run. rewrite hydrateStoryContext_skip by auto.
      split; [reflexivity|]. split; [reflexivity|]. split.
      - exists (storyReplyContext (attributes (self s))). split; [|auto].
        destruct s as [[[] ? ?] ?]; reflexivity.
      - apply hydrateStoryContext_skip. auto. }
  destruct (contextSettled (attributes (self s))) eqn:Hsettled.
  { subst run. rewrite hydrateStoryContext_skip by auto.
    split; [reflexivity|]. split; [reflexivity|]. split.
    - exists (storyReplyContext (attributes (self s))). split; [|auto].
      destruct s as [[[] ? ?] ?]; reflexivity.
    - apply hydrateStoryContext_skip. auto. }
  destruct (storyId (attributes (self s))) as [i|] eqn:Hstory; [|discriminate].
  destruct (hydrateStoryContext_run inMemoryMessage s i Hstory Htruthy Hsettled)
    as (context & Hrun & Hcontext).
  subst run. rewrite Hrun. cbn [fst snd self world].
  split; [reflexivity|]. split; [reflexivity|]. split; [eauto|].
  set (s' := mkSt (setAttributes (set_storyReplyContext (Some context)) (self s))
               (world s)).
  destruct (contextSettled (attributes (self s'))) eqn:Hsettled'.
  { apply hydrateStoryContext_skip. auto. }
  destruct (hydrateStoryContext_run inMemoryMessage s' i Hstory Htruthy Hsettled')
    as (context' & Hrun' & Hcontext').
  rewrite Hrun'. cbn [self world s'] in Hcontext' |- *.
  change (conversationId (attributes (setAttributes (set_storyReplyContext (Some context))
            (self s)))) with (conversationId (attributes (self s))) in Hcontext'.
  rewrite <- Hcontext in Hcontext'. subst context'. reflexivity.
Qed.

(** X18.  A story that was not found stays not found.  When a reply's story can
    be resolved neither from the message handed in nor from the stores,
    [hydrateStoryContext] records a context without attachment and with an
    empty message id, with the uuid of the reply's conversation as the
    author.  From then on every call returns at once and changes nothing,
    also when the story is handed in or has reached the stores
    meanwhile. *)
Theorem hydrateStoryContext_not_found inMemoryMessage s i :
  storyId (attributes (self s)) = Some i →
  Truthy.str (Some i) = true →
  contextSettled (attributes (self s)) = false →
  resolvedStory (world s) inMemoryMessage i = None →
  let s' := (hydrateStoryContext inMemoryMessage s).2 in
  storyReplyContext (attributes (self s'))
  = Some (mkStoryReplyContext None
            (conversations (world s) !! conversationId (attributes (self s))
               ≫= Conversation.uuid) "") ∧
  ∀ later w, hydrateStoryContext later (mkSt (self s') w) = (Normal tt, mkSt (self s') w).
Proof.
  intros Hstory Htruthy Hopen Hmissing s'.
  destruct (hydrateStoryContext_run inMemoryMessage s i Hstory Htruthy Hopen)
    as (context & Hrun & Hcontext).
  rewrite Hmissing in Hcontext. subst s'. rewrite Hrun. cbn [snd self].
  subst context. split; [reflexivity|].
  intros later w. apply hydrateStoryContext_skip. right. reflexivity.
Qed.

(** X19.  A story that was found is looked up again until its attachment has
    arrived.  After [hydrateStoryContext] has found the story, the context
    is settled exactly when the first attachment of the story has a url.
    While it has none, the next call resolves the story afresh and replaces
    the context by that of the story it finds then. *)
Theorem hydrateStoryContext_retries inMemoryMessage s i message :
  storyId (attributes (self s)) = Some i →
  Truthy.str (Some i) = true →
  contextSettled (attributes (self s)) = false →
  resolvedStory (world s) inMemoryMessage i = Some message →
  Truthy.str (id message) = true →
  let s' := (hydrateStoryContext inMemoryMessage s).2 in
  let downloaded :=
    match default [] (getAttachmentsForMessage message) with
    | first :: _ => Truthy.str (attachmentUrl first)
    | [] => false
    end in
  storyReplyContext (attributes (self s')) = Some (storyContextOf message) ∧
  contextSettled (attributes (self s')) = downloaded ∧
  (downloaded = false →
   ∀ later w newer,
     resolvedStory w later i = Some newer →
     hydrateStoryContext later (mkSt (self s') w)
     = (Normal tt,
        mkSt (setAttributes (set_storyReplyContext (Some (storyContextOf newer))) (self s'))
          w)).
Proof.
  intros Hstory Htruthy Hopen Hfound Hid s' downloaded.
  destruct (hydrateStoryContext_run inMemoryMessage s i Hstory Htruthy Hopen)
    as (context & Hrun & Hcontext).
  rewrite Hfound in Hcontext.
  assert (storyReplyContext (attributes (self s')) = Some (storyContextOf message))
    as Hnow.
  { subst s'. rewrite Hrun. subst context. reflexivity. }
  assert (contextSettled (attributes (self s')) = downloaded) as Hsettled.
  { unfold contextSettled. rewrite Hnow. unfold storyContextOf. cbn.
    subst downloaded.
    destruct (id message) as [mid|]; [|discriminate]. cbn in Hid |- *. rewrite Hid.
    cbn. rewrite orb_false_r.
    destruct (default [] (getAttachmentsForMessage message)) as [|first rest];
      [reflexivity|].
    destruct (Truthy.str (attachmentUrl first)) eqn:Hurl; cbn.
    - exact Hurl.
    - destruct (textAttachment first); cbn; [exact Hurl | reflexivity]. }
  split; [exact Hnow|]. split; [exact Hsettled|].
  intros Hnot later w newer Hnewer. rewrite Hnot in Hsettled.
  assert (storyId (attributes (self (mkSt (self s') w))) = Some i) as Hstory'.
  { subst s'. rewrite Hrun. exact Hstory. }
  destruct (hydrateStoryContext_run later (mkSt (self s') w) i Hstory' Htruthy Hsettled)
    as (context' & Hrun' & Hcontext').
  rewrite Hrun'. cbn [snd self world] in Hcontext' |- *. rewrite Hnewer in Hcontext'.
  subst context'. reflexivity.
Qed.
End StoryContext.

(** ** Erasure and failing stores *)

Section Erasure.
Context `{!MessageSelectors, !SendStateOps, !ReactionUtil, !ConversationSelectors,
          !MessageUtil}.
Variable env : Env.

Lemma ends_with_cons {A} (x : A) l tail :
  (∃ earlier, l = earlier ++ tail) → ∃ earlier, x :: l = earlier ++ tail.
Proof. intros [earlier ->]. exists (x :: earlier). reflexivity. Qed.

Lemma eraseContents_spec additionalProperties shouldPersist s :
  let erased := erase additionalProperties (attributes (self s)) in
  let failing := shouldPersist && saveMessageFails env erased in
  wp (eraseContents env additionalProperties shouldPersist) s (λ r s',
    r = (if failing then Throw "saveMessage" else Normal tt) ∧
    database (world s')
    = (if shouldPersist && negb failing then upsert erased (database (world s))
       else database (world s)) ∧
    ∃ added,
      trace (world s') = trace (world s) ++ added ∧
      (if failing
       then Forall (λ e, e ≠ SaveMessage erased ∧ e ≠ DeleteSentProto (id erased) ∧
                         e ≠ ScheduleOptimizeFTS) added
       else ∃ earlier,
              added = earlier ++ (if shouldPersist then [SaveMessage erased] else []) ++
                      [DeleteSentProto (id erased); ScheduleOptimizeFTS])).
Proof.
  intros erased failing. subst failing.
  destruct shouldPersist, (saveMessageFails env erased) eqn:Hsave.
  all: unfold eraseContents, deleteData, saveMessage; wp_run.
  all: try discriminate.
  all: repeat match goal with
       | Hb : saveMessageFails env _ = ?b |- _ =>
           change (saveMessageFails env erased = b) in Hb; rewrite Hsave in Hb;
           discriminate Hb
       end.
  all: cbn [andb negb]; cbn [world logged withRow database trace].
  all: split; [reflexivity|]; split; [reflexivity|].
  all: try (eexists; split; [rewrite <- ?app_assoc; reflexivity|];
            repeat constructor; repeat split; discriminate).
  all: try (exists []; split; [symmetry; apply app_nil_r | constructor]).
  all: eexists; split; [rewrite <- ?app_assoc; reflexivity|].
  all: cbn [app].
  all: repeat first [ solve [exists []; reflexivity] | apply ends_with_cons ].
Qed.

(** X15.  [eraseContents] survives a failing attachment store.  Whether or not
    [deleteData] fails, the content fields are erased in memory, and the
    run completes unless the erased message is to be persisted and cannot
    be saved; only that failure reaches the caller.  A run that completes
    has written the erased message to the store when asked to persist it,
    and ends with the removal of the sent proto and the scheduling of the
    search index optimization; a run that fails has written nothing and
    has done neither of the two. *)
Theorem eraseContents_outcome additionalProperties shouldPersist s :
  let erased := erase additionalProperties (attributes (self s)) in
  let run := eraseContents env additionalProperties shouldPersist s in
  let failing := shouldPersist && saveMessageFails env erased in
  self run.2 = setAttributes (erase additionalProperties) (self s) ∧
  run.1 = (if failing then Throw "saveMessage" else Normal tt) ∧
  database (world run.2)
  = (if shouldPersist && negb failing then upsert erased (database (world s))
     else database (world s)) ∧
  ∃ added,
    trace (world run.2) = trace (world s) ++ added ∧
    (if failing
     then Forall (λ e, e ≠ SaveMessage erased ∧ e ≠ DeleteSentProto (id erased) ∧
                       e ≠ ScheduleOptimizeFTS) added
     else ∃ earlier,
            added = earlier ++ (if shouldPersist then [SaveMessage erased] else []) ++
                    [DeleteSentProto (id erased); ScheduleOptimizeFTS]).
Proof.
  intros erased run failing.
  split; [apply (eraseContents_self env additionalProperties shouldPersist s)|].
  apply (eraseContents_spec additionalProperties shouldPersist s).
Qed.

(** X16.  A deletion for everyone that cannot be saved is not retried.  When the
    erased message cannot be written to the store, [handleDeleteForEveryone]
    fails with the error of the store, after the message has been marked
    deleted and erased in memory and the in-progress flag has been released;
    the store still has what it had.  Every later call finds the message
    deleted already and returns at once, so it does not write the deletion
    to the store either. *)
Theorem handleDeleteForEveryone_unsaved del s :
  let erased :=
    erase (λ a, set_reactions (Some []) (set_deletedForEveryone (Some true) a))
      (attributes (self s)) in
  Truthy.flag (deletingForEveryone (self s)) = false →
  Truthy.flag (deletedForEveryone (attributes (self s))) = false →
  saveMessageFails env erased = true →
  let run := handleDeleteForEveryone env del true s in
  run.1 = Throw "saveMessage" ∧
  attributes (self run.2) = erased ∧
  deletingForEveryone (self run.2) = None ∧
  database (world run.2) = database (world s) ∧
  ∀ del' shouldPersist',
    handleDeleteForEveryone env del' shouldPersist' run.2 = (Normal tt, run.2).
Proof.
  intros erased Hprogress Hdeleted Hsave run.
  pose proof (handleDeleteForEveryone_self env del true s Hprogress Hdeleted) as Hself.
  unfold wp in Hself. fold run in Hself.
  enough (run.1 = Throw "saveMessage" ∧ database (world run.2) = database (world s))
    as [Hthrow Hstore].
  { split; [exact Hthrow|]. rewrite Hself. split; [reflexivity|]. split; [reflexivity|].
    split; [exact Hstore|]. intros del' shouldPersist'.
    apply handleDeleteForEveryone_again. rewrite Hself. reflexivity. }
  enough (wp (handleDeleteForEveryone env del true) s (λ r s',
            r = Throw "saveMessage" ∧ database (world s') = database (world s)))
    as Hwp by exact Hwp.
  unfold handleDeleteForEveryone.
  wp_step. wp_step. rewrite Hprogress, Hdeleted. cbn [orb].
  wp_step. wp_step. wp_step. wp_step. wp_step. wp_step.
  eapply wp_mono; [apply eraseContents_spec|].
  cbv zeta. cbn [self world andb].
  change (saveMessageFails env _) with (saveMessageFails env erased).
  rewrite Hsave. cbn [negb].
  intros r s' (-> & Hstore & _). wp_run. auto.
Qed.
End Erasure.

(** ** The group gates, the delivery receipt and the story gates *)

Section Gates.
Context `{!MessageSelectors, !SendStateOps, !ReactionUtil, !ConversationSelectors,
          !MessageUtil}.
Variable env : Env.

Lemma afterBlockedGate_run initialMessage s conversation :
  let a := attributes (self s) in
  conversations (world s) !! conversationId a = Some conversation →
  let grouped := Truthy.obj (DataMessage.groupV2 initialMessage) in
  let toGroup :=
    bool_decide (type a = incoming) && negb (isDirectConversation conversation) in
  let dropped o := (Return o, mkSt (self s) (logged Confirm (world s))) in
  afterBlockedGate env initialMessage s =
  if toGroup && grouped && (negb (areWeMember env conversation) || senderOutside a conversation)
  then dropped NotInGroupV2
  else if toGroup && negb grouped && Truthy.obj (Conversation.members conversation) &&
          negb (areWeMember env conversation)
  then dropped NotInGroupV1
  else if Conversation.announcementsOnly conversation then
    match checkedLookup env (lookupOrCreate env (source a) (sourceUuid a)) with
    | None => (Throw "UUID.checkedLookup", s)
    | Some senderUuid =>
        if negb (Conversation.isAdmin conversation senderUuid)
        then dropped AnnouncementOnly
        else afterGroupGates env initialMessage a conversation s
    end
  else afterGroupGates env initialMessage a conversation s.
Proof.
  intros a Hconversation grouped toGroup dropped.
  unfold afterBlockedGate. unfold mbind at 1. unfold M_bind at 1.
  unfold getAttributes at 1. cbv beta iota zeta. fold a.
  unfold mbind at 1. unfold M_bind at 1. unfold theConversation at 1.
  unfold mbind at 1. unfold M_bind at 1. unfold getConversationById at 1.
  cbv beta iota. rewrite Hconversation. cbv beta iota.
  unfold mret at 1. unfold M_ret at 1. cbv beta iota.
  fold (areWeMember env conversation). fold (senderOutside a conversation).
  fold grouped. fold toGroup.
  destruct (toGroup && grouped &&
            (negb (areWeMember env conversation) || senderOutside a conversation)).
  { reflexivity. }
  destruct (toGroup && negb grouped && Truthy.obj (Conversation.members conversation) &&
            negb (areWeMember env conversation)).
  { reflexivity. }
  destruct (Conversation.announcementsOnly conversation); [|reflexivity].
  destruct (checkedLookup env (lookupOrCreate env (source a) (sourceUuid a)));
    [|reflexivity].
  destruct (negb (Conversation.isAdmin conversation _)); reflexivity.
Qed.

Lemma receiptsQueued_app a b :
  receiptsQueued (a ++ b) = (receiptsQueued a + receiptsQueued b)%nat.
Proof. unfold receiptsQueued. rewrite List.filter_app, length_app. reflexivity. Qed.

(** The story gates end the job with a story reason or let it pass; they
    never fail, and all they do is confirm. *)
Lemma checkStoryContext_spec conversation sender initialMessage storyQuote s :
  wp (checkStoryContext env conversation sender initialMessage storyQuote) s (λ r s',
    match r with
    | Normal _ => s' = s
    | Return o =>
        isStoryOutcome o = true ∧
        s' = (if isDeferred o then s else mkSt (self s) (logged Confirm (world s)))
    | Throw _ => False
    end).
Proof.
  unfold checkStoryContext. wp_run; try (destruct s; reflexivity); auto.
Qed.

(** What the rest of the gate adds to the trace: at most one delivery
    receipt, queued exactly when the message asks for one, and no way out
    through a group gate. *)
Lemma afterGroupGates_spec initialMessage s conversation :
  let a := attributes (self s) in
  wp (afterGroupGates env initialMessage a conversation) s (λ r s',
    stoppedAtGroupGates r = false ∧
    ∃ added,
      trace (world s') = trace (world s) ++ added ∧
      receiptsQueued added = (if wantsDeliveryReceipt a conversation then 1 else 0)%nat).
Proof.
  intros a. unfold afterGroupGates. cbv zeta.
  fold (wantsDeliveryReceipt a conversation).
  assert (∀ (final : string * MessageAttributesType * option MessageModel * bool)
            s1 before,
            trace (world s1) = trace (world s) ++ before →
            wp (checkStoryContext env conversation
                  (lookupOrCreate env (source a) (sourceUuid a)) initialMessage
                  (findStoryMessage env (conversationId a)
                     (DataMessage.storyContext initialMessage)) ≫= λ _, mret final) s1
              (λ r s',
                 stoppedAtGroupGates r = false ∧
                 ∃ added,
                   trace (world s') = trace (world s) ++ added ∧
                   receiptsQueued added = receiptsQueued before)) as Hstory.
  { intros final s1 before Hbefore. wp_step.
    eapply wp_mono; [apply checkStoryContext_spec|]. cbn beta.
    intros [u|o|e] s2 Hs2; [| |destruct Hs2].
    - subst s2. wp_step. split; [reflexivity|]. eauto.
    - destruct Hs2 as [Hstory ->]. split; [destruct o; try discriminate; reflexivity|].
      destruct (isDeferred o); [eauto|]. exists (before ++ [Confirm]). cbn.
      rewrite Hbefore, <- app_assoc. split; [reflexivity|].
      rewrite receiptsQueued_app. cbn. lia. }
  assert (∀ messageId (final : string * MessageAttributesType * option MessageModel * bool)
            s1,
            trace (world s1) = trace (world s) →
            wp (when (wantsDeliveryReceipt a conversation)
                  (emit (QueueDeliveryReceipt messageId)) ;;
                checkStoryContext env conversation
                  (lookupOrCreate env (source a) (sourceUuid a)) initialMessage
                  (findStoryMessage env (conversationId a)
                     (DataMessage.storyContext initialMessage)) ≫= λ _, mret final) s1
              (λ r s',
                 stoppedAtGroupGates r = false ∧
                 ∃ added,
                   trace (world s') = trace (world s) ++ added ∧
                   receiptsQueued added
                   = (if wantsDeliveryReceipt a conversation then 1 else 0)%nat)) as Hreceipt.
  { intros messageId final s1 Hs1. wp_step.
    destruct (wantsDeliveryReceipt a conversation); unfold when.
    - wp_step. apply (Hstory _ _ [QueueDeliveryReceipt messageId]).
      cbn. rewrite Hs1. reflexivity.
    - wp_step. apply (Hstory _ _ []). rewrite Hs1, app_nil_r. reflexivity. }
  wp_step. destruct (Truthy.str (id a)).
  - wp_step. apply Hreceipt. reflexivity.
  - wp_step. apply Hreceipt. reflexivity.
Qed.

Lemma afterGroupGates_passes initialMessage s conversation :
  stoppedAtGroupGates (afterGroupGates env initialMessage (attributes (self s))
                         conversation s).1 = false.
Proof. apply (afterGroupGates_spec initialMessage s conversation). Qed.

Lemma passes_membership {A} (r : Completion A) :
  stoppedAtGroupGates r = false →
  r ≠ Return NotInGroupV2 ∧ r ≠ Return NotInGroupV1 ∧ r ≠ Return AnnouncementOnly.
Proof. intros Hr. repeat split; intros ->; discriminate. Qed.

(** X4.  The membership gates.  Only an incoming message to a group can be
    dropped for membership.  With a GroupV2 context it is dropped when we
    are not a member of the group (we left, or are not among its members)
    or when the sender has a uuid that is not among the members.  Without
    one it is dropped when the members of the group are known and we are
    not a member; a group of which nothing is known accepts the message.
    A dropped message is confirmed and nothing else is done with it. *)
Theorem membership_gates initialMessage s conversation :
  let a := attributes (self s) in
  conversations (world s) !! conversationId a = Some conversation →
  let run := afterBlockedGate env initialMessage s in
  let grouped := Truthy.obj (DataMessage.groupV2 initialMessage) in
  let dropped o := (Return o, mkSt (self s) (logged Confirm (world s))) in
  let kept := run.1 ≠ Return NotInGroupV2 ∧ run.1 ≠ Return NotInGroupV1 in
  (type a ≠ incoming ∨ isDirectConversation conversation = true → kept) ∧
  (type a = incoming → isDirectConversation conversation = false →
     (grouped = true →
        if negb (areWeMember env conversation) || senderOutside a conversation
        then run = dropped NotInGroupV2 else kept) ∧
     (grouped = false →
        if Truthy.obj (Conversation.members conversation) &&
           negb (areWeMember env conversation)
        then run = dropped NotInGroupV1 else kept)).
Proof.
  intros a Hconversation run grouped dropped kept.
  pose proof (afterBlockedGate_run initialMessage s conversation Hconversation) as Hrun.
  cbv zeta in Hrun. fold a grouped run in Hrun.
  assert (∀ r : Completion (string * MessageAttributesType * option MessageModel * bool) * St,
            run = r → stoppedAtGroupGates r.1 = false ∨ r.1 = Return AnnouncementOnly ∨
                      (∃ e, r.1 = Throw e) → kept) as Hkept.
  { intros r -> [Hpass|[Hr|[e Hr]]]; subst kept.
    - destruct (passes_membership _ Hpass) as (? & ? & _). auto.
    - rewrite Hr. split; discriminate.
    - rewrite Hr. split; discriminate. }
  assert ((if Conversation.announcementsOnly conversation
           then
             match checkedLookup env (lookupOrCreate env (source a) (sourceUuid a)) with
             | Some senderUuid =>
                 if negb (Conversation.isAdmin conversation senderUuid)
                 then dropped AnnouncementOnly
                 else afterGroupGates env initialMessage a conversation s
             | None => (Throw "UUID.checkedLookup", s)
             end
           else afterGroupGates env initialMessage a conversation s) = run → kept) as Hlater.
  { intros Heq. apply (Hkept _ (eq_sym Heq)). clear Heq Hrun Hkept.
    destruct (Conversation.announcementsOnly conversation).
    - destruct (checkedLookup env _) as [senderUuid|]; [|right; right; eexists; reflexivity].
      destruct (negb (Conversation.isAdmin conversation senderUuid));
        [right; left; reflexivity|].
      left. apply afterGroupGates_passes.
    - left. apply afterGroupGates_passes. }
  split.
  - intros Hfree. apply Hlater. rewrite Hrun.
    assert (bool_decide (type a = incoming) && negb (isDirectConversation conversation)
            = false) as ->.
    { destruct Hfree as [Htype|Hdirect].
      - rewrite bool_decide_eq_false_2 by exact Htype. reflexivity.
      - rewrite Hdirect, andb_false_r. reflexivity. }
    reflexivity.
  - intros Htype Hdirect.
    rewrite bool_decide_eq_true_2, Hdirect in Hrun by exact Htype.
    cbn [negb andb] in Hrun. split; intros Hgrouped; rewrite Hgrouped in Hrun;
      cbn [negb andb] in Hrun.
    + destruct (negb (areWeMember env conversation) || senderOutside a conversation);
        [exact Hrun|]. apply Hlater. rewrite Hrun. reflexivity.
    + destruct (Truthy.obj (Conversation.members conversation) &&
                negb (areWeMember env conversation));
        [exact Hrun|]. apply Hlater. rewrite Hrun. reflexivity.
Qed.

(** X5.  The announcement gate does not look at the type of the message.  In an
    announcement-only group every message that has passed the membership
    gates, incoming or not, is dropped with a confirmation when its sender
    is not an admin of the group.  A sender that cannot be resolved to a
    uuid makes the job fail there, without a confirmation.  The message of
    an admin is not dropped for this reason, and a group that is not
    announcement-only drops nothing for it; what the job does with such a
    message afterwards is not said here. *)
Theorem announcement_gate initialMessage s conversation :
  let a := attributes (self s) in
  conversations (world s) !! conversationId a = Some conversation →
  let run := afterBlockedGate env initialMessage s in
  run.1 ≠ Return NotInGroupV2 → run.1 ≠ Return NotInGroupV1 →
  if Conversation.announcementsOnly conversation
  then
    match checkedLookup env (lookupOrCreate env (source a) (sourceUuid a)) with
    | None => run = (Throw "UUID.checkedLookup", s)
    | Some senderUuid =>
        if Conversation.isAdmin conversation senderUuid
        then run.1 ≠ Return AnnouncementOnly
        else run = (Return AnnouncementOnly, mkSt (self s) (logged Confirm (world s)))
    end
  else run.1 ≠ Return AnnouncementOnly.
Proof.
  intros a Hconversation run Hv2 Hv1.
  pose proof (afterBlockedGate_run initialMessage s conversation Hconversation) as Hrun.
  cbv zeta in Hrun. fold a run in Hrun.
  destruct (passes_membership _ (afterGroupGates_passes initialMessage s conversation))
    as (_ & _ & Hlater).
  fold a in Hlater.
  destruct (_ && _ && (_ || _)); [rewrite Hrun in Hv2; destruct (Hv2 eq_refl)|].
  destruct (_ && _ && _ && _); [rewrite Hrun in Hv1; destruct (Hv1 eq_refl)|].
  destruct (Conversation.announcementsOnly conversation).
  - destruct (checkedLookup env _) as [senderUuid|]; [|exact Hrun].
    destruct (Conversation.isAdmin conversation senderUuid); cbn [negb] in Hrun.
    + rewrite Hrun. exact Hlater.
    + exact Hrun.
  - rewrite Hrun. exact Hlater.
Qed.

(** X6.  Delivery receipts come after the group gates and before the quoted
    message and the story gates.  For a message whose sender is resolved,
    the gate queues one delivery receipt exactly when the message is
    incoming, was delivered with sealed sender, has no errors, its
    conversation is accepted, and the job does not end at the membership
    or announcement gate; it queues none otherwise.  Whether the job ends
    at these gates is decided by the message, its payload and its
    conversation: the job then returns there or fails, and otherwise no
    group gate drops the message.  So what happens to the message after
    the receipt was queued takes nothing back: a reply that the story
    gates drop or defer has its delivery receipt queued all the same, and
    a message dropped for membership has none. *)
Theorem delivery_receipt_gate initialMessage s conversation :
  let a := attributes (self s) in
  conversations (world s) !! conversationId a = Some conversation →
  is_Some (lookupOrCreate env (source a) (sourceUuid a)) →
  let run := afterBlockedGate env initialMessage s in
  let ended := endsAtGroupGates env initialMessage a conversation in
  (ended = true → stoppedAtGroupGates run.1 = true) ∧
  (ended = false →
   run.1 ≠ Return NotInGroupV2 ∧ run.1 ≠ Return NotInGroupV1 ∧
   run.1 ≠ Return AnnouncementOnly) ∧
  ∃ added,
    trace (world run.2) = trace (world s) ++ added ∧
    receiptsQueued added =
      (if wantsDeliveryReceipt a conversation && negb ended then 1 else 0)%nat.
Proof.
  intros a Hconversation _ run ended.
  pose proof (afterBlockedGate_run initialMessage s conversation Hconversation) as Hrun.
  cbv zeta in Hrun. fold a run in Hrun.
  pose proof (afterGroupGates_spec initialMessage s conversation) as Hlater.
  cbv zeta in Hlater. unfold wp in Hlater. fold a in Hlater.
  destruct Hlater as (Hpass & added & Htrace & Hcount).
  set (goal := λ ended : bool,
    (ended = true → stoppedAtGroupGates run.1 = true) ∧
    (ended = false →
     run.1 ≠ Return NotInGroupV2 ∧ run.1 ≠ Return NotInGroupV1 ∧
     run.1 ≠ Return AnnouncementOnly) ∧
    ∃ added,
      trace (world run.2) = trace (world s) ++ added ∧
      receiptsQueued added =
        (if wantsDeliveryReceipt a conversation && negb ended then 1 else 0)%nat).
  change (goal ended).
  assert (∀ o, stoppedAtGroupGates (Return (A := string * MessageAttributesType *
                 option MessageModel * bool) o) = true →
            run = (Return o, mkSt (self s) (logged Confirm (world s))) →
            goal true) as Hdropped.
  { intros o Ho ->. split; [intros _; exact Ho|]. split; [discriminate|].
    exists [Confirm]. rewrite andb_false_r. split; reflexivity. }
  assert (run = afterGroupGates env initialMessage a conversation s → goal false)
    as Hpassed.
  { intros ->. split; [discriminate|]. split; [intros _; apply passes_membership, Hpass|].
    exists added. rewrite andb_true_r. auto. }
  subst ended. unfold endsAtGroupGates. cbv zeta.
  destruct (_ && _ && (_ || _)); [exact (Hdropped NotInGroupV2 eq_refl Hrun)|].
  destruct (_ && _ && _ && _); [exact (Hdropped NotInGroupV1 eq_refl Hrun)|].
  cbn [orb].
  destruct (Conversation.announcementsOnly conversation); [|exact (Hpassed Hrun)].
  cbn [andb].
  destruct (checkedLookup env _) as [senderUuid|].
  - destruct (negb (Conversation.isAdmin conversation senderUuid));
      [exact (Hdropped AnnouncementOnly eq_refl Hrun) | exact (Hpassed Hrun)].
  - unfold goal. rewrite Hrun. split; [intros _; reflexivity|]. split; [discriminate|].
    exists []. cbn [fst snd]. rewrite app_nil_r, andb_false_r. split; reflexivity.
Qed.

(** X7.  A reply to a story that is not known.  When the payload refers to a
    story and quotes no message, the story is not found, and the job has
    passed the group gates: in a group the reply is dropped and confirmed;
    in a direct conversation the job returns without confirming, so that
    the envelope is delivered again later.  In both cases the message is
    left as it arrived and nothing is stored.  (A payload with a quote has
    its quoted message looked up before the story is checked, which is not
    covered here.) *)
Theorem story_reply_without_story initialMessage s conversation :
  let a := attributes (self s) in
  conversations (world s) !! conversationId a = Some conversation →
  let run := afterBlockedGate env initialMessage s in
  stoppedAtGroupGates run.1 = false →
  Truthy.obj (DataMessage.storyContext initialMessage) = true →
  DataMessage.quote initialMessage = None →
  findStoryMessage env (conversationId a) (DataMessage.storyContext initialMessage) = None →
  run.1 = Return (if isDirectConversation conversation
                  then StoryMissingDeferred else StoryMissingInGroup) ∧
  self run.2 = self s ∧
  database (world run.2) = database (world s) ∧
  messageCache (world run.2) = messageCache (world s) ∧
  ∃ added,
    trace (world run.2) = trace (world s) ++ added ∧
    confirmations added = (if isDirectConversation conversation then 0 else 1)%nat.
Proof.
  intros a Hconversation run Hpassed Hcontext _ Hmissing.
  pose proof (afterBlockedGate_run initialMessage s conversation Hconversation) as Hrun.
  cbv zeta in Hrun. fold a run in Hrun.
  assert (run = afterGroupGates env initialMessage a conversation s) as Hlater.
  { destruct (_ && _ && (_ || _)); [rewrite Hrun in Hpassed; discriminate|].
    destruct (_ && _ && _ && _); [rewrite Hrun in Hpassed; discriminate|].
    destruct (Conversation.announcementsOnly conversation); [|exact Hrun].
    destruct (checkedLookup env _); [|rewrite Hrun in Hpassed; discriminate].
    destruct (negb _); [rewrite Hrun in Hpassed; discriminate | exact Hrun]. }
  rewrite Hlater. clear Hrun Hlater Hpassed run.
  unfold afterGroupGates, checkStoryContext. cbv zeta. rewrite Hmissing, Hcontext.
  cbn [Truthy.obj negb andb].
  unfold mbind, M_bind, when, emit, modifyWorld, generateUuid, returnWith, mret, M_ret.
  destruct (Truthy.str (id a)); cbv beta iota.
  all: destruct (_ && _ && _ && _); cbv beta iota; cbn [self world fst snd].
  all: destruct (isDirectConversation conversation); cbn [negb]; cbv beta iota;
    cbn [self world fst snd logged drawUuid database messageCache trace].
  all: split; [reflexivity|]; split; [reflexivity|]; split; [reflexivity|];
    split; [reflexivity|].
  all: eexists; split;
    [first [ symmetry; apply app_nil_r | rewrite <- ?app_assoc; reflexivity ]
    | reflexivity].
Qed.

(** X21.  Who may reply to a story.  A reply to a story that was found passes the
    story gates exactly when, if the story is our own, it was sent to the
    sender of the reply and, in a direct conversation, that recipient was
    not denied replies, and, if the story went to a distribution list, the
    list still exists and allows replies.  The send state of the sender
    plays no part for a story of somebody else, and a denial of replies
    none in a group.  A reply that does not pass is dropped and confirmed;
    it is never put off and the gates never fail. *)
Theorem story_reply_permission conversation senderId initialMessage story s :
  let run :=
    checkStoryContext env conversation (Some senderId) initialMessage (Some story) s in
  let states := default ∅ (sendStateByConversationId (attributes story)) in
  let sendState := states !! senderId in
  let own := bool_decide (sourceUuid (attributes story) = Some (ourUuid env)) in
  let listId := storyDistributionListId (attributes story) in
  let permitted :=
    (own = true →
       is_Some sendState ∧
       (isDirectConversation conversation = true →
          sendState ≫= isAllowedToReplyToStory ≠ Some false)) ∧
    (Truthy.str listId = true →
       ∃ list, getStoryDistributionWithMembers env (default "" listId) = Some list ∧
               allowsReplies list = true) in
  (run = (Normal tt, s) ↔ permitted) ∧
  (¬ permitted →
     ∃ o, run = (Return o, mkSt (self s) (logged Confirm (world s))) ∧
          isStoryOutcome o = true ∧ isDeferred o = false).
Proof.
  intros run states sendState own listId permitted.
  assert (run =
          if own && negb (Truthy.obj sendState)
          then (Return StorySenderUnknown, mkSt (self s) (logged Confirm (world s)))
          else if own && bool_decide (sendState ≫= isAllowedToReplyToStory = Some false) &&
                  isDirectConversation conversation
          then (Return StoryReplyDenied, mkSt (self s) (logged Confirm (world s)))
          else if Truthy.str listId then
            match getStoryDistributionWithMembers env (default "" listId) with
            | None => (Return StoryDistributionMissing,
                       mkSt (self s) (logged Confirm (world s)))
            | Some list =>
                if negb (allowsReplies list)
                then (Return StoryRepliesDisabled,
                      mkSt (self s) (logged Confirm (world s)))
                else (Normal tt, s)
            end
          else (Normal tt, s)) as Hrun.
  { subst run. unfold checkStoryContext. cbn [Truthy.obj negb].
    rewrite andb_false_r. unfold mbind at 1. unfold M_bind at 1.
    unfold mret at 1. unfold M_ret at 1. cbv beta iota zeta.
    cbn [mbind option_bind]. fold states. fold sendState. fold own. fold listId.
    destruct (own && negb (Truthy.obj sendState)); [reflexivity|].
    destruct (own && bool_decide (sendState ≫= isAllowedToReplyToStory = Some false) &&
              isDirectConversation conversation); [reflexivity|].
    destruct (Truthy.str listId); [|reflexivity].
    destruct (getStoryDistributionWithMembers env (default "" listId)) as [list|];
      [|reflexivity].
    destruct (negb (allowsReplies list)); reflexivity. }
  assert (permitted ∨ ¬ permitted) as Hdecide.
  { subst permitted.
    assert (∀ P Q : Prop, (P ∨ ¬ P) → (Q ∨ ¬ Q) → (P ∧ Q) ∨ ¬ (P ∧ Q)) as Hand
      by (intros P Q [?|?] [?|?]; tauto).
    apply Hand.
    - destruct own; [|left; discriminate].
      destruct sendState as [state|]; [|right; intros H'; destruct (H' eq_refl) as [[? ?] _];
                                        discriminate].
      destruct (isDirectConversation conversation); [|left; intros _; split; [eauto|discriminate]].
      destruct (decide (Some state ≫= isAllowedToReplyToStory = Some false)) as [Hdenied|Hfree].
      + right. intros H'. destruct (H' eq_refl) as [_ Hno]. exact (Hno eq_refl Hdenied).
      + left. intros _. split; [eauto|]. intros _. exact Hfree.
    - destruct (Truthy.str listId); [|left; discriminate].
      destruct (getStoryDistributionWithMembers env (default "" listId)) as [list|].
      + destruct (allowsReplies list) eqn:Hallows.
        * left. intros _. eauto.
        * right. intros H'. destruct (H' eq_refl) as (list' & Heq & Hyes).
          injection Heq as <-. congruence.
      + right. intros H'. destruct (H' eq_refl) as (list' & Heq & _). discriminate. }
  assert (permitted → run = (Normal tt, s)) as Hpass.
  { intros [Hown Hlist]. rewrite Hrun.
    destruct own.
    - destruct (Hown eq_refl) as [[state Hstate] Hfree]. rewrite Hstate in *.
      cbn [Truthy.obj negb andb].
      destruct (isDirectConversation conversation).
      + rewrite bool_decide_eq_false_2 by (apply Hfree; reflexivity). cbn [andb].
        destruct (Truthy.str listId); [|reflexivity].
        destruct (Hlist eq_refl) as (list & -> & ->). reflexivity.
      + rewrite andb_false_r.
        destruct (Truthy.str listId); [|reflexivity].
        destruct (Hlist eq_refl) as (list & -> & ->). reflexivity.
    - cbn [andb]. destruct (Truthy.str listId); [|reflexivity].
      destruct (Hlist eq_refl) as (list & -> & ->). reflexivity. }
  assert (¬ permitted →
          ∃ o, run = (Return o, mkSt (self s) (logged Confirm (world s))) ∧
               isStoryOutcome o = true ∧ isDeferred o = false) as Hfail.
  { intros Hnot. rewrite Hrun.
    destruct (own && negb (Truthy.obj sendState)) eqn:Hunknown; [eauto|].
    destruct (own && bool_decide (sendState ≫= isAllowedToReplyToStory = Some false) &&
              isDirectConversation conversation) eqn:Hdenied; [eauto|].
    assert (own = true →
            is_Some sendState ∧
            (isDirectConversation conversation = true →
               sendState ≫= isAllowedToReplyToStory ≠ Some false)) as Hown.
    { intros Hmine. rewrite Hmine in Hunknown, Hdenied. cbn [andb] in Hunknown, Hdenied.
      apply negb_false_iff in Hunknown. split.
      - destruct sendState; [eauto | discriminate].
      - intros Hdirect. rewrite Hdirect, andb_true_r in Hdenied.
        apply bool_decide_eq_false in Hdenied. exact Hdenied. }
    destruct (Truthy.str listId) eqn:Hlisted.
    - destruct (getStoryDistributionWithMembers env (default "" listId)) as [list|] eqn:Hlist;
        [|eauto].
      destruct (allowsReplies list) eqn:Hallows; cbn [negb]; [|eauto].
      exfalso. apply Hnot. split; [exact Hown|]. intros _. eauto.
    - exfalso. apply Hnot. split; [exact Hown | discriminate]. }
  split; [|exact Hfail]. split; [|exact Hpass].
  intros Hnormal. destruct Hdecide as [Hyes|Hno]; [exact Hyes|].
  destruct (Hfail Hno) as (o & Hreturn & _). rewrite Hreturn in Hnormal. discriminate.
Qed.
End Gates.

(** ** Link previews and group changes *)

Section Population.
Context `{!MessageSelectors, !SendStateOps, !ReactionUtil, !ConversationSelectors,
          !MessageUtil}.
Variable env : Env.

Lemma filter_sublist {A} (f : A → bool) (l : list A) : sublist (List.filter f l) l.
Proof.
  induction l as [|x l IH]; cbn; [constructor|].
  destruct (f x); [apply sublist_skip | apply sublist_cons]; exact IH.
Qed.

Lemma hydrateStoryContext_preview inMemoryMessage s :
  wp (hydrateStoryContext inMemoryMessage) s (λ r s',
    r = Normal tt ∧ preview (attributes (self s')) = preview (attributes (self s)) ∧
    id (attributes (self s')) = id (attributes (self s)) ∧
    errors (attributes (self s')) = errors (attributes (self s))).
Proof. unfold hydrateStoryContext. wp_run; auto. Qed.

(** X9.  The link previews of a stored message.  The first [message.set] of the
    job keeps, in their order, exactly those previews of the payload that
    have an image or a title and, unless the message is a story, whose url
    is a link of the body that may be previewed.  The step always
    completes, gives the message its id and clears its errors. *)
Theorem populateMessage_previews messageId initialMessage dataMessage storyQuote s :
  let a := attributes (self s) in
  let run := populateMessage messageId initialMessage dataMessage storyQuote s in
  let links := findLinks (default "" (orElse (body dataMessage) None)) in
  run.1 = Normal tt ∧
  id (attributes (self run.2)) = Some messageId ∧
  errors (attributes (self run.2)) = Some [] ∧
  ∃ kept,
    preview (attributes (self run.2)) = Some kept ∧
    sublist kept (default [] (preview dataMessage)) ∧
    ∀ item,
      item ∈ kept ↔
      item ∈ default [] (preview dataMessage) ∧
      (Truthy.str (image item) = true ∨ Truthy.str (title item) = true) ∧
      (isStory a = false → url item ∈ links ∧ shouldPreviewHref (url item) = true).
Proof.
  intros a run links.
  enough (wp (populateMessage messageId initialMessage dataMessage storyQuote) s (λ r s',
            r = Normal tt ∧ id (attributes (self s')) = Some messageId ∧
            errors (attributes (self s')) = Some [] ∧
            preview (attributes (self s')) = Some (filterPreviews a dataMessage))) as Hwp.
  { unfold wp in Hwp. fold run in Hwp. destruct Hwp as (Hr & Hid & Herrors & Hpreview).
    split; [exact Hr|]. split; [exact Hid|]. split; [exact Herrors|].
    exists (filterPreviews a dataMessage). split; [exact Hpreview|].
    unfold filterPreviews. cbv zeta. fold links. split; [apply filter_sublist|].
    intros item. rewrite list_elem_of_In, List.filter_In, <- list_elem_of_In.
    split.
    - intros [Hitem Hkeep]. split; [exact Hitem|].
      destruct (Truthy.str (image item)), (Truthy.str (title item));
        cbn in Hkeep; try discriminate; (split; [auto|]).
      all: intros Hstory; rewrite Hstory in Hkeep;
        apply andb_true_iff in Hkeep as [Hurl Hhref];
        apply bool_decide_eq_true in Hurl; auto.
    - intros (Hitem & Hshown & Hlinked). split; [exact Hitem|].
      assert (negb (Truthy.str (image item)) && negb (Truthy.str (title item)) = false)
        as ->.
      { destruct Hshown as [-> | ->]; [reflexivity | apply andb_false_r]. }
      destruct (isStory a); [reflexivity|].
      destruct (Hlinked eq_refl) as [Hurl Hhref].
      rewrite Hhref, bool_decide_eq_true_2 by exact Hurl. reflexivity. }
  unfold populateMessage. wp_step. wp_step. wp_step. wp_step.
  destruct storyQuote as [storyQuote|].
  - eapply wp_mono; [apply hydrateStoryContext_preview|]. cbn beta.
    intros r s' (-> & -> & -> & ->). repeat split.
  - wp_step. repeat split.
Qed.

(** X8.  A group change that is not newer is ignored.  When the payload carries
    a GroupV2 context for a group that is not a V1 group, and its revision
    is absent or not greater than the revision the conversation has after
    the repair of its core data, the groups module is not asked to update
    the group: the block completes, no group update is recorded, and the
    conversation is left as the repair left it (or untouched, when the
    context lacks a key and nothing is repaired). *)
Theorem stale_group_change_ignored cid initialMessage s groupV2 conversation :
  DataMessage.groupV2 initialMessage = Some groupV2 →
  conversations (world s) !! cid = Some conversation →
  isGroupV1 conversation = false →
  let repaired := maybeRepairGroupV2 env conversation groupV2 in
  Conversation.id repaired = cid →
  match groupRevision groupV2, Conversation.revision repaired with
  | Some revision, Some existing => revision ≤ existing
  | Some _, None => False
  | None, _ => True
  end →
  let run := processGroupV2 env cid initialMessage s in
  let complete :=
    Truthy.str (masterKey groupV2) && Truthy.str (secretParams groupV2) &&
    Truthy.str (publicParams groupV2) in
  run.1 = Normal tt ∧
  conversations (world run.2)
  = (if complete then <[cid := repaired]> (conversations (world s))
     else conversations (world s)) ∧
  trace (world run.2)
  = trace (world s) ++ (if complete then [GroupRepair cid] else []).
Proof.
  intros Hgroup Hconversation Hv1 repaired Hid Hstale run complete.
  subst repaired.
  assert (run = (Normal tt,
                 if complete
                 then mkSt (self s) (logged (GroupRepair cid)
                                       (withConversation (maybeRepairGroupV2 env conversation groupV2)
                                          (world s)))
                 else s)) as Hrun.
  { subst run. unfold processGroupV2. rewrite Hgroup.
    unfold mbind at 1. unfold M_bind at 1. unfold theConversation at 1.
    unfold mbind at 1. unfold M_bind at 1. unfold getConversationById at 1.
    cbv beta iota. rewrite Hconversation. cbv beta iota.
    unfold mret at 1. unfold M_ret at 1. cbv beta iota. rewrite Hv1.
    fold complete. destruct complete; [|reflexivity].
    unfold theConversation, putConversation, emit, modifyWorld, getConversationById,
      mbind, M_bind. cbv beta iota.
    cbn [self world conversations withConversation logged].
    rewrite Hid, lookup_insert_eq. cbv beta iota.
    unfold mret, M_ret. cbv beta iota.
    destruct (groupRevision groupV2) as [revision|]; [|reflexivity].
    destruct (Conversation.revision _) as [existing|]; [|destruct Hstale].
    assert ((existing <? revision) = false) as -> by (apply Z.ltb_ge; exact Hstale).
    reflexivity. }
  rewrite Hrun. cbn [fst snd]. split; [reflexivity|].
  destruct complete; cbn [world conversations trace logged withConversation].
  - rewrite Hid. split; reflexivity.
  - rewrite app_nil_r. split; reflexivity.
Qed.
End Population.

(** ** A reconciliation pass with nothing to reconcile *)

Section Idle.
Context `{!MessageSelectors, !SendStateOps, !ReactionUtil, !ConversationSelectors,
          !MessageUtil}.
Variable env : Env.

(** X10.  The second reconciliation pass does nothing when nothing is buffered.
    For a message that is no story, has no read cascade pending and for
    which no receipt, sync, reaction, delete or edit is buffered,
    [modifyTargetMessage] on a later run completes without changing the
    message, the stores or the trace: in particular it does not save the
    message again. *)
Theorem modifyTargetMessage_idle cid s :
  let a := attributes (self s) in
  forMessage env false a = noPending →
  isStory a = false →
  Truthy.num (pendingMarkRead (self s)) = false →
  (type a = incoming → is_Some (conversations (world s) !! cid)) →
  modifyTargetMessage env cid false s = (Normal tt, s).
Proof.
  intros a Hpending Hstory Hmark Hconversation.
  unfold modifyTargetMessage.
  unfold mbind at 1. unfold M_bind at 1. unfold getAttributes at 1. cbv beta iota zeta.
  fold a. rewrite Hpending.
  assert (reconcileReceipts noPending false s = (Normal false, s)) as Hreceipts.
  { unfold reconcileReceipts, mbind, M_bind, getAttributes. cbv beta iota zeta.
    cbn [receipts noPending map applySendActions fold_left].
    rewrite bool_decide_eq_true_2 by reflexivity. reflexivity. }
  assert (bool_decide (type a = incoming) = true →
          reconcileIncoming env cid false noPending false s = (Normal false, s))
    as Hincoming.
  { intros Htype. apply bool_decide_eq_true in Htype.
    destruct (Hconversation Htype) as [conversation Hc].
    unfold reconcileIncoming. cbv zeta. cbn [readSync viewSyncs noPending isNil negb orb].
    unfold theConversation, getConversationById, mbind, M_bind, getAttributes, getThis,
      when, mret, M_ret.
    cbv beta iota. rewrite Hc. cbv beta iota. cbn [andb negb].
    rewrite Hmark. cbv beta iota. cbn [viewOnceOpenSync noPending].
    rewrite andb_false_r. reflexivity. }
  unfold mbind at 1. unfold M_bind at 1.
  assert ((if bool_decide (type a = outgoing) ||
              bool_decide (type a = story) && bool_decide (Some (ourUuid env) = getSourceUuid a)
           then reconcileReceipts noPending false else mret false) s = (Normal false, s))
    as ->.
  { destruct (_ || _); [exact Hreceipts | reflexivity]. }
  cbv beta iota.
  unfold mbind at 1. unfold M_bind at 1.
  assert ((if bool_decide (type a = incoming)
           then reconcileIncoming env cid false noPending false else mret false) s
          = (Normal false, s)) as ->.
  { destruct (bool_decide (type a = incoming)) eqn:Htype; [auto | reflexivity]. }
  cbv beta iota.
  unfold mbind at 1. unfold M_bind at 1. unfold getAttributes at 1. cbv beta iota.
  fold a. rewrite Hstory.
  cbn [pendingReactions pendingDeletes pendingEdits noPending foldM forEach].
  reflexivity.
Qed.
End Idle.

(** ** What no method does to the process-wide state *)

Section WorldInvariant.
Context `{!MessageSelectors, !SendStateOps, !ReactionUtil, !ConversationSelectors,
          !MessageUtil}.
Variable env : Env.

(** A relation on the process-wide state that every primitive update
    respects is respected by every method. *)
Variable Rw : relation World.
Context `{!PreOrder Rw}.
Hypothesis logged_ok : ∀ e w, Rw w (logged e w).
Hypothesis withConversation_ok : ∀ c w, Rw w (withConversation c w).
Hypothesis withRow_ok : ∀ a w, Rw w (withRow a w).
Hypothesis tick_ok : ∀ w, Rw w (tick w).
Hypothesis drawUuid_ok : ∀ w, Rw w (drawUuid w).
Hypothesis withRegistered_ok : ∀ m w, Rw w (withRegistered m w).
Hypothesis withPublished_ok : ∀ m w, Rw w (withPublished m w).

Local Abbreviation invariant := (both anything Rw).

Lemma modifyWorld_invariant T f : (∀ w, Rw w (f w)) → ensures invariant T (modifyWorld f).
Proof. intros Hf s. split; [split; [exact I | apply Hf] | discriminate]. Qed.

Lemma emit_invariant T e : ensures invariant T (emit e).
Proof. apply modifyWorld_invariant. intros w. apply logged_ok. Qed.
Lemma putConversation_invariant T c : ensures invariant T (putConversation c).
Proof. apply modifyWorld_invariant. intros w. apply withConversation_ok. Qed.
Lemma writeRow_invariant T a : ensures invariant T (writeRow a).
Proof. apply modifyWorld_invariant. intros w. apply withRow_ok. Qed.
Lemma publish_invariant T m : ensures invariant T (publish m).
Proof. apply modifyWorld_invariant. intros w. apply withPublished_ok. Qed.
Lemma dateNow_invariant T : ensures invariant T dateNow.
Proof. intros s. split; [split; [exact I | apply tick_ok] | discriminate]. Qed.
Lemma generateUuid_invariant T : ensures invariant T generateUuid.
Proof. intros s. split; [split; [exact I | apply drawUuid_ok] | discriminate]. Qed.
Lemma register_invariant T m : ensures invariant T (register m).
Proof. intros s. split; [split; [exact I | apply withRegistered_ok] | discriminate]. Qed.
Lemma modifyThis_invariant T f : ensures invariant T (modifyThis f).
Proof. intros s. split; [split; [exact I | reflexivity] | discriminate]. Qed.
Lemma set_invariant T f : ensures invariant T (set f).
Proof. apply modifyThis_invariant. Qed.

Hint Resolve emit_invariant putConversation_invariant writeRow_invariant publish_invariant
  dateNow_invariant generateUuid_invariant register_invariant modifyThis_invariant
  set_invariant : frame.

Lemma saveMessage_invariant T a : ensures invariant T (saveMessage env a).
Proof. unfold saveMessage. frame. Qed.
Hint Resolve saveMessage_invariant : frame.

Lemma deleteData_invariant T : ensures invariant T (deleteData env).
Proof. unfold deleteData. frame. Qed.
Hint Resolve deleteData_invariant : frame.

Lemma eraseContents_invariant T f shouldPersist :
  ensures invariant T (eraseContents env f shouldPersist).
Proof. unfold eraseContents. frame. Qed.
Hint Resolve eraseContents_invariant : frame.

Lemma markViewOnceMessageViewed_invariant T fromSync :
  ensures invariant T (markViewOnceMessageViewed env fromSync).
Proof. unfold markViewOnceMessageViewed. frame. Qed.
Hint Resolve markViewOnceMessageViewed_invariant : frame.

Lemma handleDeleteForEveryone_invariant T del shouldPersist :
  ensures invariant T (handleDeleteForEveryone env del shouldPersist).
Proof. unfold handleDeleteForEveryone. frame. Qed.
Hint Resolve handleDeleteForEveryone_invariant : frame.

Lemma clearNotifications_invariant T : ensures invariant T clearNotifications.
Proof. unfold clearNotifications. frame. Qed.
Hint Resolve clearNotifications_invariant : frame.

Lemma hydrateStoryContext_invariant T inMemoryMessage :
  ensures invariant T (hydrateStoryContext inMemoryMessage).
Proof. unfold hydrateStoryContext. frame. Qed.
Hint Resolve hydrateStoryContext_invariant : frame.

Lemma storeStoryReaction_invariant T reaction storyMessage :
  ensures invariant T (storeStoryReaction env reaction storyMessage).
Proof. unfold storeStoryReaction. frame. Qed.
Hint Resolve storeStoryReaction_invariant : frame.

Lemma handleReaction_invariant T reaction storyMessage shouldPersist :
  ensures invariant T (handleReaction env reaction storyMessage shouldPersist).
Proof. unfold handleReaction. frame. Qed.
Hint Resolve handleReaction_invariant : frame.

Lemma markFailed_invariant T : ensures invariant T markFailed.
Proof. unfold markFailed. frame. Qed.
Hint Resolve markFailed_invariant : frame.

Lemma retrySend_invariant T : ensures invariant T (retrySend env).
Proof. unfold retrySend. frame. Qed.

Lemma theConversation_invariant T cid : ensures invariant T (theConversation cid).
Proof. unfold theConversation. frame. Qed.
Hint Resolve theConversation_invariant : frame.

Lemma orNow_invariant T v : ensures invariant T (orNow v).
Proof. unfold orNow. frame. Qed.
Hint Resolve orNow_invariant : frame.

Lemma applyReadAndViewSyncs_invariant T readSyncs viewSyncs :
  ensures invariant T (applyReadAndViewSyncs readSyncs viewSyncs).
Proof. unfold applyReadAndViewSyncs. frame. Qed.
Hint Resolve applyReadAndViewSyncs_invariant : frame.

Lemma deleteForEveryone_invariant T del shouldPersist :
  ensures invariant T (deleteForEveryone env del shouldPersist).
Proof. unfold deleteForEveryone. frame. Qed.
Hint Resolve deleteForEveryone_invariant : frame.

Lemma reconcileReceipts_invariant T pending changed :
  ensures invariant T (reconcileReceipts pending changed).
Proof. unfold reconcileReceipts. frame. Qed.
Hint Resolve reconcileReceipts_invariant : frame.

Lemma reconcileIncoming_invariant T cid isFirstRun pending changed :
  ensures invariant T (reconcileIncoming env cid isFirstRun pending changed).
Proof. unfold reconcileIncoming. frame. Qed.
Hint Resolve reconcileIncoming_invariant : frame.

Lemma reconcileStory_invariant T pending changed :
  ensures invariant T (reconcileStory pending changed).
Proof. unfold reconcileStory. frame. Qed.
Hint Resolve reconcileStory_invariant : frame.

Lemma reconcileReaction_invariant T changed reaction :
  ensures invariant T (reconcileReaction env changed reaction).
Proof. unfold reconcileReaction. frame. Qed.
Hint Resolve reconcileReaction_invariant : frame.

Lemma modifyTargetMessage_invariant T cid isFirstRun :
  ensures invariant T (modifyTargetMessage env cid isFirstRun).
Proof. unfold modifyTargetMessage. frame. Qed.
Hint Resolve modifyTargetMessage_invariant : frame.

Lemma mergeUnidentifiedStatus_invariant T data acc entry :
  ensures invariant T (mergeUnidentifiedStatus env data acc entry).
Proof. unfold mergeUnidentifiedStatus. frame. Qed.
Hint Resolve mergeUnidentifiedStatus_invariant : frame.

Lemma mergeTranscript_invariant T existingMessage data :
  ensures invariant T (mergeTranscript env existingMessage data).
Proof. unfold mergeTranscript. frame. Qed.
Hint Resolve mergeTranscript_invariant : frame.

Lemma processGroupV2_invariant T cid initialMessage :
  ensures invariant T (processGroupV2 env cid initialMessage).
Proof. unfold processGroupV2. frame. Qed.
Hint Resolve processGroupV2_invariant : frame.

Lemma populateMessage_invariant T messageId initialMessage dataMessage storyQuote :
  ensures invariant T (populateMessage messageId initialMessage dataMessage storyQuote).
Proof. unfold populateMessage. frame. Qed.
Hint Resolve populateMessage_invariant : frame.

Lemma registerAndReconcile_invariant T cid isGroupStoryReply :
  ensures invariant T (registerAndReconcile env cid isGroupStoryReply).
Proof. unfold registerAndReconcile. frame. Qed.
Hint Resolve registerAndReconcile_invariant : frame.

Lemma checkForDuplicates_invariant data :
  ensures invariant (λ _, True) (checkForDuplicates env data).
Proof. unfold checkForDuplicates. frame. Qed.
Hint Resolve checkForDuplicates_invariant : frame.

Lemma beforeBlockedGate_invariant initialMessage data :
  ensures invariant (λ _, True) (beforeBlockedGate env initialMessage data).
Proof. unfold beforeBlockedGate. frame. Qed.
Hint Resolve beforeBlockedGate_invariant : frame.

Lemma checkStoryContext_invariant conversation sender initialMessage storyQuote :
  ensures invariant (λ _, True)
    (checkStoryContext env conversation sender initialMessage storyQuote).
Proof. unfold checkStoryContext. frame. Qed.
Hint Resolve checkStoryContext_invariant : frame.

Lemma afterBlockedGate_invariant initialMessage :
  ensures invariant (λ _, True) (afterBlockedGate env initialMessage).
Proof. unfold afterBlockedGate. frame. Qed.
Hint Resolve afterBlockedGate_invariant : frame.

Lemma processSupported_invariant cid initialMessage dataMessage storyQuote reply v2 now :
  ensures invariant (λ _, True)
    (processSupported env cid initialMessage dataMessage storyQuote reply v2 now).
Proof. unfold processSupported. frame. Qed.
Hint Resolve processSupported_invariant : frame.

Lemma afterPopulate_invariant initialMessage dataMessage storyQuote reply now :
  ensures invariant (λ _, True)
    (afterPopulate env initialMessage dataMessage storyQuote reply now).
Proof. unfold afterPopulate. frame. Qed.
Hint Resolve afterPopulate_invariant : frame.

Lemma handleDataMessage_invariant initialMessage data :
  ensures invariant (λ _, True) (handleDataMessage env initialMessage data).
Proof. unfold handleDataMessage. frame. Qed.
Hint Resolve handleDataMessage_invariant : frame.

Lemma saveAndNotify_invariant cid : ensures invariant (λ _, True) (saveAndNotify env cid).
Proof. unfold saveAndNotify. frame. Qed.
Hint Resolve saveAndNotify_invariant : frame.

Lemma processPayload_invariant initialMessage data :
  ensures invariant (λ _, True) (processPayload env initialMessage data).
Proof. unfold processPayload. frame. Qed.

(** A continuation that completes has written the message to the store
    first. *)
Lemma saveAndNotify_written cid s :
  let a := attributes (self s) in
  wp (saveAndNotify env cid) s (λ r s',
    ∀ u, r = Normal u →
      Rw (withRow a (logged (SaveNewMessageBatch a) (world s))) (world s')).
Proof.
  intros a. unfold saveAndNotify. wp_step. wp_step. wp_step. wp_step.
  - wp_step. discriminate.
  - wp_step. wp_step. wp_step. fold a.
    eapply wp_mono; [apply (wp_ensures invariant (λ _, True)); frame|].
    cbn beta. intros r s' [[_ Hworld] _] u _. exact Hworld.
Qed.
End WorldInvariant.

Section Stores.
Context `{!MessageSelectors, !SendStateOps, !ReactionUtil, !ConversationSelectors,
          !MessageUtil}.
Variable env : Env.

#[local] Instance onlyAdds_preorder : PreOrder onlyAdds.
Proof.
  split.
  - intros w. repeat split; reflexivity.
  - intros w1 w2 w3 (A1 & B1 & C1) (A2 & B2 & C2).
    split; [etrans; eauto|]. split; etrans; eauto.
Qed.

Lemma upsert_ids a rows :
  map id rows `prefix_of` map id (upsert a rows).
Proof.
  unfold upsert. destruct (existsb _ rows).
  - rewrite map_map. erewrite map_ext; [reflexivity|].
    intros r. unfold sameId. cbv beta. case_bool_decide; congruence.
  - rewrite map_app. apply prefix_app_r. reflexivity.
Qed.

Lemma upsert_stored a rows : id a ∈ map id (upsert a rows).
Proof.
  unfold upsert. destruct (existsb (sameId (id a)) rows) eqn:Hknown.
  - apply existsb_exists in Hknown as (r & Hin & Hsame).
    apply list_elem_of_In, in_map_iff. exists (if sameId (id a) r then a else r).
    rewrite Hsame. split; [reflexivity|]. apply in_map_iff. exists r.
    rewrite Hsame. auto.
  - rewrite map_app. apply elem_of_app. right. left.
Qed.

Lemma withRegistered_ids m w : registeredIds w `prefix_of` registeredIds (withRegistered m w).
Proof.
  unfold withRegistered. destruct (negb _); [reflexivity|].
  destruct (find _ _); [reflexivity|].
  unfold registeredIds. cbn. rewrite map_app. apply prefix_app_r. reflexivity.
Qed.

Lemma withPublished_ids m w : registeredIds (withPublished m w) = registeredIds w.
Proof.
  unfold registeredIds, withPublished. cbn. rewrite map_map. apply map_ext.
  intros x. unfold sameId. cbv beta. case_bool_decide; congruence.
Qed.

Lemma onlyAdds_same w w' :
  database w' = database w → messageCache w' = messageCache w →
  conversations w' = conversations w → onlyAdds w w'.
Proof.
  intros Hdb Hcache Hconv. unfold onlyAdds, storedIds, registeredIds.
  rewrite Hdb, Hcache, Hconv. repeat split; reflexivity.
Qed.

Lemma onlyAdds_withConversation c w : onlyAdds w (withConversation c w).
Proof.
  split; [reflexivity|]. split; [reflexivity|].
  cbn. rewrite dom_insert_L. apply union_subseteq_r.
Qed.

Lemma onlyAdds_withRow a w : onlyAdds w (withRow a w).
Proof. split; [apply upsert_ids|]. split; reflexivity. Qed.

Lemma onlyAdds_withRegistered m w : onlyAdds w (withRegistered m w).
Proof.
  split; [|split; [apply withRegistered_ids|]].
  - unfold withRegistered. destruct (negb _); [reflexivity|].
    destruct (find _ _); reflexivity.
  - unfold withRegistered. destruct (negb _); [reflexivity|].
    destruct (find _ _); reflexivity.
Qed.

Lemma onlyAdds_withPublished m w : onlyAdds w (withPublished m w).
Proof.
  split; [reflexivity|]. split; [rewrite withPublished_ids|]; reflexivity.
Qed.

Local Ltac only_adds :=
  first [ exact onlyAdds_withConversation | exact onlyAdds_withRow
        | exact onlyAdds_withRegistered | exact onlyAdds_withPublished
        | intros; apply onlyAdds_same; reflexivity ].

(** X3.  The model never takes anything out of the stores.  Whatever a method
    does, and however it completes, the message store keeps every row
    under its id and in its place, the identity index keeps every
    registered id, and every conversation stays known; rows and
    registrations are only added at the end. *)
Theorem stores_only_grow :
  (∀ initialMessage data s,
      onlyAdds (world s) (world (processPayload env initialMessage data s).2)) ∧
  (∀ cid isFirstRun s,
      onlyAdds (world s) (world (modifyTargetMessage env cid isFirstRun s).2)) ∧
  (∀ reaction storyMessage shouldPersist s,
      onlyAdds (world s)
        (world (handleReaction env reaction storyMessage shouldPersist s).2)) ∧
  (∀ del shouldPersist s,
      onlyAdds (world s) (world (handleDeleteForEveryone env del shouldPersist s).2)) ∧
  (∀ fromSync s,
      onlyAdds (world s) (world (markViewOnceMessageViewed env fromSync s).2)) ∧
  (∀ s, onlyAdds (world s) (world (retrySend env s).2)).
Proof.
  split; [|split; [|split; [|split; [|split]]]].
  - intros initialMessage data s.
    assert (ensures (both anything onlyAdds) (λ _, True)
              (processPayload env initialMessage data)) as Hinv
      by (eapply (processPayload_invariant env onlyAdds); only_adds).
    apply Hinv.
  - intros cid isFirstRun s.
    assert (ensures (both anything onlyAdds) (λ _, True)
              (modifyTargetMessage env cid isFirstRun)) as Hinv
      by (eapply (modifyTargetMessage_invariant env onlyAdds); only_adds).
    apply Hinv.
  - intros reaction storyMessage shouldPersist s.
    assert (ensures (both anything onlyAdds) (λ _, True)
              (handleReaction env reaction storyMessage shouldPersist)) as Hinv
      by (eapply (handleReaction_invariant env onlyAdds); only_adds).
    apply Hinv.
  - intros del shouldPersist s.
    assert (ensures (both anything onlyAdds) (λ _, True)
              (handleDeleteForEveryone env del shouldPersist)) as Hinv
      by (eapply (handleDeleteForEveryone_invariant env onlyAdds); only_adds).
    apply Hinv.
  - intros fromSync s.
    assert (ensures (both anything onlyAdds) (λ _, True)
              (markViewOnceMessageViewed env fromSync)) as Hinv
      by (eapply (markViewOnceMessageViewed_invariant env onlyAdds); only_adds).
    apply Hinv.
  - intros s.
    assert (ensures (both anything onlyAdds) (λ _, True) (retrySend env)) as Hinv
      by (eapply (retrySend_invariant env onlyAdds); only_adds).
    apply Hinv.
Qed.
(** X2.  A payload is confirmed after it was stored.  When a payload is
    processed to the end, the message as the queued job left it has been
    handed to the persistence batch and written to the store before
    [confirm] is called: nothing that precedes the write confirms, the one
    confirmation follows it, and at the end the store has a row under the
    id of the message. *)
Theorem confirmed_after_stored initialMessage data s :
  let job := handleDataMessage env initialMessage data s in
  let run := processPayload env initialMessage data s in
  let a := attributes (self job.2) in
  run.1 = Normal tt →
  id a ∈ storedIds (world run.2) ∧
  ∃ before after,
    trace (world run.2) = trace (world s) ++ before ++ SaveNewMessageBatch a :: after ∧
    confirmations before = 0%nat ∧ confirmations after = 1%nat.
Proof.
  intros job run a Hrun.
  set (cid := conversationId (attributes (self s))).
  set (continuation := saveAndNotify env cid job.2).
  assert (run = match job.1 with
                | Normal _ => continuation
                | Return o => (Return o, job.2)
                | Throw e => (Throw e, job.2)
                end) as Hsplit.
  { subst run continuation job cid. unfold processPayload, mbind, M_bind, getAttributes.
    cbv beta iota. destruct (handleDataMessage env initialMessage data s) as [[u|o|e] s1];
      reflexivity. }
  destruct (handleDataMessage_acks env initialMessage data s) as (queued & Hqueued & Hsilent).
  fold job in Hqueued, Hsilent.
  destruct job.1 as [u|o|e] eqn:Hjob;
    [|rewrite Hsplit in Hrun; discriminate..].
  rewrite Hsplit in *. clear Hsplit run.
  destruct (saveAndNotify_settles env cid job.2) as (notified & Hnotified & Hone).
  fold continuation in Hnotified, Hone. rewrite Hrun in Hone.
  pose proof (saveAndNotify_trace env (λ _, True) (λ _ _, I) cid job.2 (λ _ _, I)) as Hfirst.
  unfold wp in Hfirst. fold continuation a in Hfirst.
  assert (onlyAdds (withRow a (logged (SaveNewMessageBatch a) (world job.2)))
            (world continuation.2)) as (Hstored & _).
  { eapply (saveAndNotify_written env onlyAdds); [only_adds..|exact Hrun]. }
  split.
  - eapply elem_of_prefix; [|exact Hstored]. apply upsert_stored.
  - destruct Hfirst as [Hnothing|(extra & Hextra & _)].
    + rewrite Hnothing in Hnotified. rewrite <- (app_nil_r (trace (world job.2))) in Hnotified
        at 1. apply app_inv_head in Hnotified. subst notified. discriminate.
    + rewrite Hextra in Hnotified. apply app_inv_head in Hnotified. subst notified.
      exists queued, extra. rewrite Hextra, Hqueued, <- app_assoc.
      split; [reflexivity|]. split; [exact Hsilent | exact Hone].
Qed.
End Stores.

(** ** The statements on the sample runs *)
Module Witnesses.
Import Reference Examples.

Lemma reference_replaces_same_author : ReplacesSameAuthor.
Proof. intros a b. reflexivity. Qed.

Lemma reference_outgoing_replaces : OutgoingReplaces.
Proof.
  intros old new Hemoji. cbn. unfold addOutgoingReaction.
  destruct (emoji new); [reflexivity | contradiction].
Qed.

Lemma reference_sent_class : IsSentClass.
Proof. intros []; reflexivity. Qed.

Lemma reference_failure_spares_sent : FailureSparesSent.
Proof.
  intros [status updatedAt reply] [kind stamp] Hsent Hkind. cbn in *. subst kind.
  destruct status; try discriminate; reflexivity.
Qed.

Lemma reference_story_is_a_type : StoryIsAType.
Proof. intros a Hstory. apply bool_decide_eq_true in Hstory. exact Hstory. Qed.



(** C2: a remove from a sync that is older than bob's reaction leaves the
    reaction in place. *)
Lemma handleReaction_remove_witness :
  thumbsUp ∈ default [] (reactions (attributes (self
    (handleReaction env staleRemoval None false (arrival reactedTo chat)).2))).
Proof.
  eapply (handleReaction_remove env staleRemoval false (arrival reactedTo chat)).
  - reflexivity.
  - vm_compute. reflexivity.
  - reflexivity.
  - discriminate.
  - split; [left | right; split; reflexivity].
Defined.

(** C3: with a read sync and a view sync buffered the message is viewed and
    seen.  With a read sync and a view-once open sync buffered, a
    view-once message is read after the syncs and viewed at the end of the
    pass, which has opened it. *)
Lemma modifyTargetMessage_read_status_witness :
  (readStatus (attributes (self
     (modifyTargetMessage synced "c1" true (arrival disappearing chat)).2))
   = Some ReadStatus.Viewed ∧
   seenStatus (attributes (self
     (modifyTargetMessage synced "c1" true (arrival disappearing chat)).2))
   = Some SeenStatus.Seen) ∧
  (readStatus (attributes (self
     (afterSyncs (forMessage readThenOpened true glimpse) (arrival glimpse chat))))
   = Some ReadStatus.Read ∧
   readStatus (attributes (self
     (modifyTargetMessage readThenOpened "c1" true (arrival glimpse chat)).2))
   = Some ReadStatus.Viewed).
Proof.
  split.
  - edestruct (modifyTargetMessage_read_status synced "c1" true (arrival disappearing chat))
      as (_ & Hviewed & _).
    + reflexivity.
    + vm_compute. reflexivity.
    + right. discriminate.
    + apply Hviewed. discriminate.
  - edestruct (modifyTargetMessage_read_status readThenOpened "c1" true
                 (arrival glimpse chat)) as ((_ & Hread & _) & _ & _ & Hopened).
    + reflexivity.
    + vm_compute. reflexivity.
    + left. vm_compute. eauto.
    + split; [exact (Hread eq_refl)|].
      destruct (Hopened eq_refl eq_refl) as [Hviewed _]. exact Hviewed.
Defined.

(** C4: the syncs are stamped 50 and 40 and the clock reads 100, so the
    timer of the message starts at 40, and 40 is the stamp that the first
    run leaves for the read cascade. *)
Lemma modifyTargetMessage_expiration_witness :
  computeMarkReadAt 100 [mkReadSync 50] [mkViewSync 40] = 40 ∧
  expirationStartTimestamp (attributes (self
    (modifyTargetMessage synced "c1" true (arrival disappearing chat)).2))
  = Some 40 ∧
  pendingMarkRead (self
    (modifyTargetMessage synced "c1" true (arrival disappearing chat)).2)
  = Some 40.
Proof.
  edestruct (modifyTargetMessage_expiration synced "c1" true (arrival disappearing chat))
    as (_ & _ & _ & Hend).
  - reflexivity.
  - vm_compute. reflexivity.
  - right. discriminate.
  - destruct (Hend reference_story_is_a_type) as [Hsame _].
    destruct Hsame as [Hstart Hstamp]; [right; discriminate|].
    split; [reflexivity | split; [exact Hstart | exact Hstamp]].
Defined.

(** C6: a retry leaves the delivered send to bob as it is. *)
Lemma retrySend_spares_sent_witness :
  sendStates (self (retrySend env (arrival sentToTwo chat)).2) !! "bob" = Some delivered.
Proof.
  edestruct (retrySend_spares_sent env (arrival sentToTwo chat) "bob" delivered)
    as [Hspared _].
  - exact reference_sent_class.
  - exact reference_failure_spares_sent.
  - vm_compute. reflexivity.
  - apply Hspared. reflexivity.
Defined.

(** C7: the timer update without content is not empty and passes the gate. *)
Lemma emptiness_gate_witness :
  isEmpty (attributes (self (ingest env timerUpdate None (arrival fromAlice chat)).2))
  = false ∧
  (handleDataMessage env timerUpdate None (arrival fromAlice chat)).1
  ≠ Return EmptyMessage.
Proof.
  edestruct (emptiness_gate env timerUpdate None (arrival fromAlice chat))
    as (_ & _ & Hupdate & _).
  - vm_compute. reflexivity.
  - vm_compute. eauto.
  - apply Hupdate. vm_compute. reflexivity.
Defined.

(** C8: carol's reaction applied twice is there once. *)
Lemma handleReaction_twice_witness :
  length (default [] (reactions (attributes (self
    (handleReaction env heart None false
       (handleReaction env heart None false (arrival reactedTo chat)).2).2))))
  = length (default [] (reactions (attributes (self
    (handleReaction env heart None false (arrival reactedTo chat)).2)))).
Proof.
  edestruct (handleReaction_twice env heart false false (arrival reactedTo chat))
    as [_ Hsize].
  - reflexivity.
  - exact reference_replaces_same_author.
  - discriminate.
  - exact Hsize.
Defined.

(** C9: alice's message after a delete for everyone. *)
Lemma handleDeleteForEveryone_erases_witness :
  ErasedForEveryone (attributes (self
    (handleDeleteForEveryone env deletion true (arrival reactedTo chat)).2)).
Proof.
  edestruct (handleDeleteForEveryone_erases env deletion true (arrival reactedTo chat))
    as [Herased _].
  - reflexivity.
  - reflexivity.
  - exact Herased.
Defined.

(** C10: a direct message from the blocked sender is dropped, and nothing
    but the trace has changed. *)
Lemma blocked_sender_dropped_witness :
  (handleDataMessage blocking (payload "hi" 8) None (arrival (fromMallory "c1") chat)).1
  = Return BlockedSender ∧
  database (world
    (handleDataMessage blocking (payload "hi" 8) None (arrival (fromMallory "c1") chat)).2)
  = [].
Proof.
  edestruct (blocked_sender_dropped blocking (payload "hi" 8) None
               (arrival (fromMallory "c1") chat)) as (Hjob & Hdb & _).
  - reflexivity.
  - vm_compute. reflexivity.
  - split; [rewrite Hjob; reflexivity | exact Hdb].
Defined.

(** C10: a group message from the blocked sender is dropped only after its
    group change has been applied to the conversation. *)
Lemma blocked_sender_after_group_update :
  isBlockedSender blocking (fromMallory "g1") = true ∧
  (handleDataMessage blocking groupChangePayload None
     (arrival (fromMallory "g1") (worldOf [group]))).1 = Return BlockedSender ∧
  trace (world (handleDataMessage blocking groupChangePayload None
                  (arrival (fromMallory "g1") (worldOf [group]))).2)
  = [SetRegistered "mallory"; GroupRepair "g1"; GroupUpdate "g1"; Confirm] ∧
  Conversation.revision <$> conversations (worldOf [group]) !! "g1" = Some (Some 1) ∧
  Conversation.revision <$>
    conversations (world (handleDataMessage blocking groupChangePayload None
                            (arrival (fromMallory "g1") (worldOf [group]))).2) !! "g1"
  = Some (Some 2).
Proof. vm_compute. repeat split. Qed.
End Witnesses.

(** ** The further statements on the sample runs *)
Module MoreWitnesses.
Import Reference Examples MoreExamples.

Lemma reference_some_is_exists : SomeIsExists.
Proof.
  intros states predicate. cbn. rewrite existsb_exists. split.
  - intros [[k state] [Hin Hp]]. exists k, state. split; [|exact Hp].
    apply elem_of_map_to_list, list_elem_of_In, Hin.
  - intros (k & state & Hk & Hp). exists (k, state). split; [|exact Hp].
    apply list_elem_of_In, elem_of_map_to_list, Hk.
Qed.

Lemma reference_spares_sent : FailureSparesSent.
Proof.
  intros [status updatedAt reply] [kind stamp] Hsent Hkind. cbn in *. subst kind.
  destruct status; try discriminate; reflexivity.
Qed.

(** X12: the message delivered to bob still counts as delivered after a retry. *)
Lemma retrySend_keeps_delivery_witness :
  hasSuccessfulDelivery env (attributes (self (retrySend env (arrival sentToTwo chat)).2))
  = true.
Proof.
  apply (retrySend_keeps_delivery env (arrival sentToTwo chat)).
  - exact reference_some_is_exists.
  - exact reference_spares_sent.
  - vm_compute. reflexivity.
Defined.

(** X13: alice's photo is erased by the first opening. *)
Lemma markViewOnceMessageViewed_once_witness :
  isErased (attributes (self
    (markViewOnceMessageViewed env false (arrival snapshot chat)).2)) = Some true ∧
  attachments (attributes (self
    (markViewOnceMessageViewed env false (arrival snapshot chat)).2)) = Some [].
Proof.
  edestruct (markViewOnceMessageViewed_once env false (arrival snapshot chat))
    as (Herased & _ & Hattachments & _).
  - vm_compute. reflexivity.
  - reflexivity.
  - split; assumption.
Defined.

(** X18: the story of alice's reply is not known, and stays unknown when it is
    handed in later. *)
Lemma hydrateStoryContext_not_found_witness :
  hydrateStoryContext (Some downloaded)
    (hydrateStoryContext None (arrival storyReply chat)).2
  = (Normal tt, (hydrateStoryContext None (arrival storyReply chat)).2).
Proof.
  edestruct (hydrateStoryContext_not_found None (arrival storyReply chat) "story-1")
    as [_ Hlater].
  - reflexivity.
  - reflexivity.
  - reflexivity.
  - reflexivity.
  - cbv zeta in Hlater. specialize (Hlater (Some downloaded) chat). exact Hlater.
Defined.

(** X19: the story is found before its photo is downloaded, and again after. *)
Lemma hydrateStoryContext_retries_witness :
  storyReplyContext (attributes (self
    (hydrateStoryContext (Some downloaded)
       (hydrateStoryContext (Some undownloaded) (arrival storyReply chat)).2).2))
  = Some (storyContextOf downloaded).
Proof.
  edestruct (hydrateStoryContext_retries (Some undownloaded) (arrival storyReply chat)
               "story-1" undownloaded) as (_ & _ & Hlater).
  - reflexivity.
  - reflexivity.
  - reflexivity.
  - reflexivity.
  - reflexivity.
  - cbv zeta in Hlater.
    specialize (Hlater eq_refl (Some downloaded) chat downloaded eq_refl).
    change (mkSt (self (hydrateStoryContext (Some undownloaded)
                          (arrival storyReply chat)).2) chat)
      with (hydrateStoryContext (Some undownloaded) (arrival storyReply chat)).2
      in Hlater.
    rewrite Hlater. reflexivity.
Defined.

(** X16: a deletion that the store refuses is reported and then never retried. *)
Lemma handleDeleteForEveryone_unsaved_witness :
  (handleDeleteForEveryone (onStore (λ _, true)) deletion true
     (arrival reactedTo chat)).1 = Throw "saveMessage" ∧
  database (world (handleDeleteForEveryone (onStore (λ _, true)) deletion true
                     (arrival reactedTo chat)).2) = [].
Proof.
  edestruct (handleDeleteForEveryone_unsaved (onStore (λ _, true)) deletion
               (arrival reactedTo chat)) as (Hthrow & _ & _ & Hstore & _).
  - reflexivity.
  - reflexivity.
  - reflexivity.
  - split; [exact Hthrow | exact Hstore].
Defined.

(** X4: eve is not a member of the group she writes to. *)
Lemma membership_gates_witness :
  afterBlockedGate env groupChangePayload (arrival fromEve (worldOf [group]))
  = (Return NotInGroupV2,
     mkSt (newModel fromEve) (logged Confirm (worldOf [group]))).
Proof.
  edestruct (membership_gates env groupChangePayload (arrival fromEve (worldOf [group]))
               group) as [_ Hgroup].
  - reflexivity.
  - destruct (Hgroup eq_refl eq_refl) as [Hv2 _]. exact (Hv2 eq_refl).
Defined.

(** X5: alice is a member, but no admin, of an announcement-only group. *)
Lemma announcement_gate_witness :
  afterBlockedGate env (payload "hello" 9) (arrival toAnnouncements (worldOf [announcements]))
  = (Return AnnouncementOnly,
     mkSt (newModel toAnnouncements) (logged Confirm (worldOf [announcements]))).
Proof.
  apply (announcement_gate env (payload "hello" 9)
           (arrival toAnnouncements (worldOf [announcements])) announcements).
  - reflexivity.
  - vm_compute. discriminate.
  - vm_compute. discriminate.
Defined.

(** X6: a sealed-sender message in an accepted conversation gets its receipt. *)
Lemma delivery_receipt_gate_witness :
  ∃ added,
    trace (world (afterBlockedGate env (payload "hi" 5) (arrival sealed chat)).2)
    = trace chat ++ added ∧
    receiptsQueued added = 1%nat.
Proof.
  edestruct (delivery_receipt_gate env (payload "hi" 5) (arrival sealed chat)
               (conversation "c1" Direct)) as (_ & _ & added & Htrace & Hcount).
  - reflexivity.
  - vm_compute. eauto.
  - exists added. split; [exact Htrace | exact Hcount].
Defined.

(** X7: a reply without a quote to a story that has not arrived, in a direct
    conversation, is deferred. *)
Lemma story_reply_without_story_witness :
  (afterBlockedGate env replyPayload (arrival fromAlice chat)).1
  = Return StoryMissingDeferred.
Proof.
  edestruct (story_reply_without_story env replyPayload (arrival fromAlice chat)
               (conversation "c1" Direct)) as (Hdeferred & _).
  - reflexivity.
  - vm_compute. reflexivity.
  - reflexivity.
  - reflexivity.
  - reflexivity.
  - exact Hdeferred.
Defined.

(** X8: a change to revision 2 for a group that is at revision 5 already. *)
Lemma stale_group_change_ignored_witness :
  (processGroupV2 env "g1" groupChangePayload (arrival (fromMallory "g1") (worldOf [ahead]))).1
  = Normal tt ∧
  trace (world (processGroupV2 env "g1" groupChangePayload
                  (arrival (fromMallory "g1") (worldOf [ahead]))).2)
  = [GroupRepair "g1"].
Proof.
  edestruct (stale_group_change_ignored env "g1" groupChangePayload
               (arrival (fromMallory "g1") (worldOf [ahead]))
               (mkGroupV2 (Some 2) None (Some "master") (Some "secret") (Some "public"))
               ahead) as (Hdone & _ & Htrace).
  - reflexivity.
  - reflexivity.
  - reflexivity.
  - reflexivity.
  - cbn. lia.
  - split; [exact Hdone | exact Htrace].
Defined.

(** X10: nothing is buffered for alice's message. *)
Lemma modifyTargetMessage_idle_witness :
  modifyTargetMessage env "c1" false (arrival fromAlice chat)
  = (Normal tt, arrival fromAlice chat).
Proof.
  apply (modifyTargetMessage_idle env "c1" (arrival fromAlice chat)).
  - reflexivity.
  - reflexivity.
  - reflexivity.
  - intros _. vm_compute. eauto.
Defined.

(** X2: alice's first message is in the store when it is confirmed. *)
Lemma confirmed_after_stored_witness :
  id (attributes (self (handleDataMessage env (payload "hi" 5) None
                          (arrival fromAlice chat)).2))
  ∈ storedIds (world (processPayload env (payload "hi" 5) None
                        (arrival fromAlice chat)).2).
Proof.
  edestruct (confirmed_after_stored env (payload "hi" 5) None (arrival fromAlice chat))
    as [Hstored _].
  - vm_compute. reflexivity.
  - exact Hstored.
Defined.
End MoreWitnesses.
